(** * Library inventory and requirement resolution of [lutris/util/linux.py]

    A shallow embedding of the parts of [lutris.util.linux] that build the
    shared-library inventory from the [ldconfig -p] listing, classify the
    records by architecture, resolve the library folders and answer the
    requirement queries, followed by the properties proved about them.

    Python values are modelled as follows.
    - [str] is [string]; a character is a code point below 256.
    - [None] or a value is [option]; a raised exception is the [Err] side of
      [result].
    - the insertion-ordered [dict] that is iterated ([shared_libraries], the
      [Counter] of folders) is an association list kept in insertion order;
      the dictionaries that are only indexed (the [LIBRARIES] cache) are
      [gmap]s; a [set] is a [gset].
    - [logger] calls append a record to the [logger] field of the state. *)

From Stdlib Require Import Ascii String.
From stdpp Require Import base option list strings gmap sorting.

Local Open Scope stdpp_scope.

(** ** Python [str] operations used by the module *)

Module Str.

Definition nl : ascii := "010"%char.
Definition tab : ascii := "009"%char.

Definition ascii_eqb (a b : ascii) : bool := Ascii.eqb a b.

(** [c.isspace()] for the code points below 256. *)
Definition is_space (c : ascii) : bool :=
  let n := nat_of_ascii c in
  (Nat.leb 9 n && Nat.leb n 13) || (Nat.leb 28 n && Nat.leb n 32)
  || Nat.eqb n 133 || Nat.eqb n 160.

(** [s.startswith(p)] *)
Fixpoint startswith (p s : string) : bool :=
  match p, s with
  | EmptyString, _ => true
  | String _ _, EmptyString => false
  | String a p', String b s' => ascii_eqb a b && startswith p' s'
  end.

(** The rest of [s] after the prefix [p], when [s] starts with [p]. *)
Fixpoint strip_prefix (p s : string) : option string :=
  match p, s with
  | EmptyString, _ => Some s
  | String _ _, EmptyString => None
  | String a p', String b s' =>
      if ascii_eqb a b then strip_prefix p' s' else None
  end.

(** [needle in s] *)
Fixpoint contains (needle s : string) : bool :=
  startswith needle s ||
  match s with
  | EmptyString => false
  | String _ s' => contains needle s'
  end.

(** [c in s] for a single character *)
Fixpoint has_char (c : ascii) (s : string) : bool :=
  match s with
  | EmptyString => false
  | String d s' => ascii_eqb c d || has_char c s'
  end.

(** [s.endswith(c)] for a single character *)
Fixpoint endswith_char (c : ascii) (s : string) : bool :=
  match s with
  | EmptyString => false
  | String d EmptyString => ascii_eqb c d
  | String _ s' => endswith_char c s'
  end.

(** [s.split(sep)] for a one-character separator: never an empty list. *)
Fixpoint split (sep : ascii) (s : string) : list string :=
  match s with
  | EmptyString => [EmptyString]
  | String c s' =>
      if ascii_eqb c sep then EmptyString :: split sep s'
      else match split sep s' with
           | h :: t => String c h :: t
           | [] => [String c EmptyString]
           end
  end.

Fixpoint lstrip (drop : ascii -> bool) (s : string) : string :=
  match s with
  | EmptyString => EmptyString
  | String c s' => if drop c then lstrip drop s' else s
  end.

Fixpoint rstrip (drop : ascii -> bool) (s : string) : string :=
  match s with
  | EmptyString => EmptyString
  | String c s' =>
      match rstrip drop s' with
      | EmptyString => if drop c then EmptyString else String c EmptyString
      | r => String c r
      end
  end.

(** [s.strip()] and [s.strip(chars)] *)
Definition strip_by (drop : ascii -> bool) (s : string) : string :=
  rstrip drop (lstrip drop s).
Definition strip (s : string) : string := strip_by is_space s.
Definition strip_chars (chars s : string) : string :=
  strip_by (fun c => has_char c chars) s.

(** [s.replace(old, new)]: the occurrences of [old] are replaced from left
    to right without overlap; [skip] counts the characters of an occurrence
    still to be dropped. *)
Fixpoint replace_go (old new : string) (skip : nat) (s : string) : string :=
  match s with
  | EmptyString => EmptyString
  | String c s' =>
      match skip with
      | S k => replace_go old new k s'
      | O =>
          if startswith old s
          then new +:+ replace_go old new (String.length old - 1) s'
          else String c (replace_go old new 0 s')
      end
  end.

Fixpoint intersperse_all (new s : string) : string :=
  match s with
  | EmptyString => new
  | String c s' => new +:+ String c (intersperse_all new s')
  end.

Definition replace (old new s : string) : string :=
  match old with
  | EmptyString => intersperse_all new s
  | _ => replace_go old new 0 s
  end.

(** [a >= b] on [str]: lexicographic on code points. *)
Definition ge (a b : string) : bool :=
  match String.compare a b with
  | Lt => false
  | _ => true
  end.

(** [posixpath.dirname]: everything up to the last slash, with the
    trailing slashes removed unless the head consists of slashes only. *)
Fixpoint upto_last_slash (p : string) : string :=
  match p with
  | EmptyString => EmptyString
  | String c p' =>
      match upto_last_slash p' with
      | EmptyString => if ascii_eqb c "/"%char then String "/"%char EmptyString else EmptyString
      | r => String c r
      end
  end.

Fixpoint all_slashes (p : string) : bool :=
  match p with
  | EmptyString => true
  | String c p' => ascii_eqb c "/"%char && all_slashes p'
  end.

Definition dirname (p : string) : string :=
  let head := upto_last_slash p in
  if all_slashes head then head else rstrip (fun c => ascii_eqb c "/"%char) head.

End Str.

(** ** Exceptions and log records *)

Inductive exn : Type :=
| ValueError (msg : string)
| KeyError (key : string)
| AttributeError
| IndexError.

Inductive result (A : Type) : Type :=
| Ok (a : A)
| Err (e : exn).
Arguments Ok {A} a.
Arguments Err {A} e.

Inductive level : Type := WARNING | ERROR.

Record LogRecord : Type := { lvl : level; message : string }.

(** ** The regular expression of [new_from_ldconfig]

    The pattern of [re.match] is anchored at both ends and has three groups
    of dot-star: group 1, a space and an opening parenthesis, group 2, a
    closing parenthesis and an arrow between two spaces, group 3, the end.
    It is a backtracking match: a dot matches every character but the
    newline, each star is greedy (the longest candidate is tried first,
    shorter ones on failure), and the end anchor matches at the end of the
    text or before a newline that ends the text. *)

Module Regex.

Definition dot (c : ascii) : bool := negb (Str.ascii_eqb c Str.nl).

Fixpoint all_dot (s : string) : bool :=
  match s with
  | EmptyString => true
  | String c s' => dot c && all_dot s'
  end.

(** Group 3 and the end anchor, on the rest of the line. *)
Fixpoint group3 (s : string) : option string :=
  match s with
  | EmptyString => Some EmptyString
  | String c s' =>
      if dot c then
        match group3 s' with
        | Some g => Some (String c g)
        | None => None
        end
      else match s' with
           | EmptyString => Some EmptyString
           | _ => None
           end
  end.

(** From group 2 on: the second group takes as many characters as it
    can; the groups 2 and 3 are returned. *)
Fixpoint group2 (s : string) : option (string * string) :=
  let here :=
    match Str.strip_prefix ") => " s with
    | Some rest =>
        match group3 rest with
        | Some g3 => Some (EmptyString, g3)
        | None => None
        end
    | None => None
    end in
  match s with
  | EmptyString => here
  | String c s' =>
      let longer :=
        if dot c then
          match group2 s' with
          | Some (g2, g3) => Some (String c g2, g3)
          | None => None
          end
        else None in
      match longer with
      | Some r => Some r
      | None => here
      end
  end.

(** The whole pattern: the first group takes as many characters as it
    can; the three groups are returned. *)
Fixpoint group1 (s : string) : option (string * string * string) :=
  let here :=
    match Str.strip_prefix " (" s with
    | Some rest =>
        match group2 rest with
        | Some (g2, g3) => Some (EmptyString, g2, g3)
        | None => None
        end
    | None => None
    end in
  match s with
  | EmptyString => here
  | String c s' =>
      let longer :=
        if dot c then
          match group1 s' with
          | Some (g1, g2, g3) => Some (String c g1, g2, g3)
          | None => None
          end
        else None in
      match longer with
      | Some r => Some r
      | None => here
      end
  end.

Definition ldconfig_match (line : string) : option (string * string * string) :=
  group1 line.

End Regex.

(** ** [class SharedLibrary] *)

Record SharedLibrary : Type := {
  name : string;
  flags : list string;
  path : string;
}.

Module SharedLibrary.

Definition default_arch : string := "i386".

(** [__init__(self, name, flags, path)] *)
Definition init (name flags path : string) : SharedLibrary :=
  {| name := name;
     flags := map Str.strip (Str.split ","%char flags);
     path := path |}.

(** [new_from_ldconfig(cls, ldconfig_line)] *)
Definition new_from_ldconfig (ldconfig_line : string) : result SharedLibrary :=
  match Regex.ldconfig_match ldconfig_line with
  | None =>
      Err (ValueError ("Received incorrect value for ldconfig line: " +:+ ldconfig_line))
  | Some (g1, g2, g3) => Ok (init g1 g2 g3)
  end.

(** [arch in self.flags] *)
Definition in_flags (tag : string) (l : SharedLibrary) : bool :=
  existsb (String.eqb tag) (flags l).

Definition detected_arch : list string := ["x86-64"; "x32"].

Fixpoint arch_loop (tags : list string) (l : SharedLibrary) : string :=
  match tags with
  | [] => default_arch
  | tag :: rest =>
      if in_flags tag l then Str.replace "-" "_" tag else arch_loop rest l
  end.

(** The [arch] property. *)
Definition arch (l : SharedLibrary) : string := arch_loop detected_arch l.

(** The [dirname] property. *)
Definition dirname (l : SharedLibrary) : string := Str.dirname (path l).

End SharedLibrary.

(** ** Insertion-ordered dictionaries

    A Python [dict] as the list of its items in insertion order: assigning
    to a key that is present keeps its position. *)

Module Dict.
Section dict.
Context {V : Type}.

(** [d.get(k)] *)
Fixpoint get (k : string) (d : list (string * V)) : option V :=
  match d with
  | [] => None
  | (k', v) :: d' => if String.eqb k k' then Some v else get k d'
  end.

(** [d[k] = v] *)
Fixpoint set (k : string) (v : V) (d : list (string * V)) : list (string * V) :=
  match d with
  | [] => [(k, v)]
  | (k', v') :: d' =>
      if String.eqb k k' then (k', v) :: d' else (k', v') :: set k v d'
  end.

Definition keys (d : list (string * V)) : list string := map fst d.
Definition values (d : list (string * V)) : list V := map snd d.
End dict.

(** [d[k]] on a [defaultdict(list)]: a missing key is inserted with the
    empty list. *)
Definition getitem_default {X : Type} (k : string) (d : list (string * list X))
  : list X * list (string * list X) :=
  match get k d with
  | Some v => (v, d)
  | None => ([], set k [] d)
  end.

(** [d[k].append(x)] on a [defaultdict(list)] *)
Definition append_default {X : Type} (k : string) (x : X) (d : list (string * list X))
  : list (string * list X) :=
  let '(v, d') := getitem_default k d in set k (v ++ [x]) d'.
End Dict.

(** ** [collections.Counter] *)

Module Counter.

Definition incr (c : list (string * nat)) (x : string) : list (string * nat) :=
  Dict.set x (S (default 0 (Dict.get x c))) c.

(** [Counter(iterable)] *)
Definition of_list (l : list string) : list (string * nat) :=
  fold_left incr l [].

(** [sorted(items, key=itemgetter(1), reverse=True)]: the sort is stable,
    items with equal counts keep their order. *)
Fixpoint insert_desc (x : string * nat) (l : list (string * nat)) : list (string * nat) :=
  match l with
  | [] => [x]
  | y :: l' => if Nat.ltb (snd x) (snd y) then y :: insert_desc x l' else x :: l
  end.

Definition most_common (c : list (string * nat)) : list (string * nat) :=
  fold_right insert_desc [] c.

End Counter.

(** ** The static tables *)

Module SYSTEM_COMPONENTS.

Definition COMMANDS : list string :=
  ["xrandr"; "fuser"; "glxinfo"; "vulkaninfo"; "fuser"; "7z";
   "gtk-update-icon-cache"; "lspci"; "ldconfig"].

Definition OPTIONAL_COMMANDS : list string :=
  ["fluidsynth"; "nvidia-smi"; "fluidsynth"].

Definition TERMINALS : list string :=
  ["xterm"; "gnome-terminal"; "konsole"; "xfce4-terminal";
   "pantheon-terminal"; "terminator"; "mate-terminal"; "urxvt";
   "cool-retro-term"; "Eterm"; "guake"; "lilyterm"; "lxterminal";
   "roxterm"; "rxvt"; "aterm"; "sakura"; "st"; "terminology"; "termite";
   "tilix"; "wterm"; "kitty"; "yuakuake"; "qterminal"; "alacritty"; "kgx";
   "deepin-terminal"; "wezterm"; "foot"; "ptyxis"].

Definition LIBRARIES : list (string * list string) :=
  [("OPENGL", ["libGL.so.1"]);
   ("VULKAN", ["libvulkan.so.1"]);
   ("WINE", ["libsqlite3.so.0"]);
   ("RADEON", ["libvulkan_radeon.so"]);
   ("GAMEMODE", ["libgamemodeauto.so"]);
   ("GNUTLS", ["libgnutls.so.30"])].

End SYSTEM_COMPONENTS.

(** ** What the module reads from the machine *)

(** Modelled from the spec: the [GlxInfo] object of [lutris.util.graphics.glxinfo]
    is not part of this file; the spec calls it an externally supplied
    graphics-info value that may carry the Mesa/GLX driver version.  An
    attribute that the object does not have is [None] here and reading it
    raises [AttributeError]. *)
Record Container : Type := { version : option string }.

Record GlxInfo : Type := {
  display : option string;
  GLX_MESA_query_renderer : option Container;
}.

Record Host : Type := {
  machine : string;                                 (* platform.machine() *)
  which : string -> option string;                  (* shutil.which *)
  path_exists : string -> bool;                     (* os.path.exists *)
  realpath : string -> string;                      (* os.path.realpath *)
  read_process_output : list string -> string;      (* system.read_process_output *)
  is_amd : bool;                                    (* drivers.is_amd() *)
  new_GlxInfo : GlxInfo;                            (* glxinfo.GlxInfo() *)
}.

(** ** [class LinuxSystem]

    The instance attributes, the keys of the class attribute [_cache] that
    the inventory and the requirement queries use, the records written by
    [logger], and the host that the object probes. *)

Record LinuxSystem : Type := {
  host : Host;
  cache_COMMANDS : list (string * string);
  cache_OPTIONAL_COMMANDS : list (string * string);
  cache_TERMINALS : list (string * string);
  cache_LIBRARIES : gmap string (gmap string (list string));
  arch : option string;
  shared_libraries : list (string * list SharedLibrary);
  glxinfo : option GlxInfo;
  logger : list LogRecord;
}.

Module LinuxSystem.

(** *** State updates and the monad of the methods

    A method takes the object and the logger and leaves them updated; it
    returns a value or raises.  What was written before an exception
    stays written. *)

Definition set_cache_LIBRARIES (c : gmap string (gmap string (list string)))
  (s : LinuxSystem) : LinuxSystem :=
  {| host := host s; cache_COMMANDS := cache_COMMANDS s;
     cache_OPTIONAL_COMMANDS := cache_OPTIONAL_COMMANDS s;
     cache_TERMINALS := cache_TERMINALS s; cache_LIBRARIES := c;
     arch := arch s; shared_libraries := shared_libraries s;
     glxinfo := glxinfo s; logger := logger s |}.

Definition set_shared_libraries (l : list (string * list SharedLibrary))
  (s : LinuxSystem) : LinuxSystem :=
  {| host := host s; cache_COMMANDS := cache_COMMANDS s;
     cache_OPTIONAL_COMMANDS := cache_OPTIONAL_COMMANDS s;
     cache_TERMINALS := cache_TERMINALS s; cache_LIBRARIES := cache_LIBRARIES s;
     arch := arch s; shared_libraries := l;
     glxinfo := glxinfo s; logger := logger s |}.

Definition set_arch (a : option string) (s : LinuxSystem) : LinuxSystem :=
  {| host := host s; cache_COMMANDS := cache_COMMANDS s;
     cache_OPTIONAL_COMMANDS := cache_OPTIONAL_COMMANDS s;
     cache_TERMINALS := cache_TERMINALS s; cache_LIBRARIES := cache_LIBRARIES s;
     arch := a; shared_libraries := shared_libraries s;
     glxinfo := glxinfo s; logger := logger s |}.

Definition set_glxinfo (g : option GlxInfo) (s : LinuxSystem) : LinuxSystem :=
  {| host := host s; cache_COMMANDS := cache_COMMANDS s;
     cache_OPTIONAL_COMMANDS := cache_OPTIONAL_COMMANDS s;
     cache_TERMINALS := cache_TERMINALS s; cache_LIBRARIES := cache_LIBRARIES s;
     arch := arch s; shared_libraries := shared_libraries s;
     glxinfo := g; logger := logger s |}.

Definition set_commands (key : string) (d : list (string * string))
  (s : LinuxSystem) : LinuxSystem :=
  {| host := host s;
     cache_COMMANDS := if String.eqb key "COMMANDS" then d else cache_COMMANDS s;
     cache_OPTIONAL_COMMANDS :=
       if String.eqb key "OPTIONAL_COMMANDS" then d else cache_OPTIONAL_COMMANDS s;
     cache_TERMINALS := if String.eqb key "TERMINALS" then d else cache_TERMINALS s;
     cache_LIBRARIES := cache_LIBRARIES s;
     arch := arch s; shared_libraries := shared_libraries s;
     glxinfo := glxinfo s; logger := logger s |}.

Definition get_commands (key : string) (s : LinuxSystem) : list (string * string) :=
  if String.eqb key "COMMANDS" then cache_COMMANDS s
  else if String.eqb key "OPTIONAL_COMMANDS" then cache_OPTIONAL_COMMANDS s
  else cache_TERMINALS s.

Definition add_log (r : LogRecord) (s : LinuxSystem) : LinuxSystem :=
  {| host := host s; cache_COMMANDS := cache_COMMANDS s;
     cache_OPTIONAL_COMMANDS := cache_OPTIONAL_COMMANDS s;
     cache_TERMINALS := cache_TERMINALS s; cache_LIBRARIES := cache_LIBRARIES s;
     arch := arch s; shared_libraries := shared_libraries s;
     glxinfo := glxinfo s; logger := logger s ++ [r] |}.

Definition M (A : Type) : Type := LinuxSystem -> result A * LinuxSystem.

Definition ret {A} (a : A) : M A := fun s => (Ok a, s).
Definition raise {A} (e : exn) : M A := fun s => (Err e, s).
Definition bind {A B} (m : M A) (k : A -> M B) : M B :=
  fun s => match m s with
           | (Ok a, s') => k a s'
           | (Err e, s') => (Err e, s')
           end.
Definition read {A} (f : LinuxSystem -> A) : M A := fun s => (Ok (f s), s).
Definition modify (f : LinuxSystem -> LinuxSystem) : M unit := fun s => (Ok tt, f s).

(** [try: body except AttributeError: handler] *)
Definition try_except_AttributeError {A} (body handler : M A) : M A :=
  fun s => match body s with
           | (Err AttributeError, s') => handler s'
           | r => r
           end.

#[global] Instance M_ret : MRet M := @ret.
#[global] Instance M_bind : MBind M := fun A B k m => bind m k.

(** [for x in l: body x] *)
Fixpoint for_each {A} (l : list A) (body : A -> M unit) : M unit :=
  match l with
  | [] => ret tt
  | x :: l' => body x;; for_each l' body
  end.

(** [[f x for x in l]] *)
Fixpoint comprehension {A B} (l : list A) (f : A -> M B) : M (list B) :=
  match l with
  | [] => ret []
  | x :: l' => y ← f x; ys ← comprehension l' f; ret (y :: ys)
  end.

Definition warning (msg : string) : M unit :=
  modify (add_log {| lvl := WARNING; message := msg |}).
Definition error (msg : string) : M unit :=
  modify (add_log {| lvl := ERROR; message := msg |}).

(** Truth value of a [str] or [None]. *)
Definition truthy (p : option string) : bool :=
  match p with
  | Some (String _ _) => true
  | _ => false
  end.

(** *** Class attributes *)

Definition multiarch_lib_folders : list (string * string) :=
  [("/lib", "/lib64");
   ("/lib32", "/lib64");
   ("/usr/lib", "/usr/lib64");
   ("/usr/lib32", "/usr/lib64");
   ("/lib/i386-linux-gnu", "/lib/x86_64-linux-gnu");
   ("/usr/lib/i386-linux-gnu", "/usr/lib/x86_64-linux-gnu");
   ("/usr/lib", "/opt/32/lib")].

Definition required_components : list string := ["OPENGL"; "VULKAN"; "GNUTLS"].
Definition optional_components : list string := ["WINE"; "GAMEMODE"].

(** *** Methods *)

(** [os.path.join(candidate, command)] *)
Definition path_join (a b : string) : string :=
  if Str.startswith "/" b then b
  else if String.eqb a "" || Str.endswith_char "/"%char a then a +:+ b
  else a +:+ "/" +:+ b.

Fixpoint get_sbin_path_loop (h : Host) (candidates : list string) (command : string)
  : option string :=
  match candidates with
  | [] => None
  | candidate :: rest =>
      let command_path := path_join candidate command in
      if path_exists h command_path then Some command_path
      else get_sbin_path_loop h rest command
  end.

Definition get_sbin_path (h : Host) (command : string) : option string :=
  get_sbin_path_loop h ["/sbin"; "/usr/sbin"] command.

(** The body of the command loop of [__init__]. *)
Definition find_command (key command : string) : M unit :=
  h ← read host;
  let command_path := which h command in
  let command_path :=
    if truthy command_path then command_path else get_sbin_path h command in
  match command_path with
  | Some (String c p) =>
      modify (fun s => set_commands key (Dict.set command (String c p) (get_commands key s)) s)
  | _ =>
      if String.eqb key "COMMANDS"
      then warning ("Command '" +:+ command +:+ "' not found on your system")
      else ret tt
  end.

Definition components (key : string) : list string :=
  if String.eqb key "COMMANDS" then SYSTEM_COMPONENTS.COMMANDS
  else if String.eqb key "OPTIONAL_COMMANDS" then SYSTEM_COMPONENTS.OPTIONAL_COMMANDS
  else SYSTEM_COMPONENTS.TERMINALS.

Definition find_commands : M unit :=
  for_each ["COMMANDS"; "OPTIONAL_COMMANDS"; "TERMINALS"] (fun key =>
    modify (set_commands key []);;
    for_each (components key) (find_command key)).

(** [get(self, command)] *)
Definition get (command : string) : M (option string) :=
  read (fun s => Dict.get command (cache_COMMANDS s)).

(** [get_arch()]: falling off the end of the function returns [None]. *)
Definition get_arch : M (option string) :=
  h ← read host;
  let machine := machine h in
  if String.eqb machine "x86_64" then ret (Some "x86_64")
  else if existsb (String.eqb machine) ["i386"; "i686"] then ret (Some "i386")
  else if Str.contains "armv7" machine then ret (Some "armv7")
  else warning ("Unsupported architecture " +:+ machine);; ret None.

(** The [runtime_architectures] property. *)
Definition runtime_architectures (s : LinuxSystem) : list string :=
  match arch s with
  | Some a => if String.eqb a "x86_64" then ["i386"; "x86_64"] else ["i386"]
  | None => ["i386"]
  end.

(** [get_requirements(self, include_optional=True)] *)
Definition get_requirements (include_optional : bool) (s : LinuxSystem) : list string :=
  let _requirements := required_components in
  if include_optional then
    let _requirements := _requirements ++ optional_components in
    if is_amd (host s) then _requirements ++ ["RADEON"] else _requirements
  else _requirements.

(** The [requirements] and [critical_requirements] properties. *)
Definition requirements (s : LinuxSystem) : list string := get_requirements true s.
Definition critical_requirements (s : LinuxSystem) : list string := get_requirements false s.

(** [get_glxinfo(self)] *)
Definition get_glxinfo : M (option GlxInfo) :=
  tool ← get "glxinfo";
  if negb (truthy tool) then ret None
  else
    h ← read host;
    let _glxinfo := new_GlxInfo h in
    match display _glxinfo with
    | None => warning "Invalid glxinfo received";; ret None
    | Some _ => ret (Some _glxinfo)
    end.

(** [get_lib_folders(self)] *)
Definition get_lib_folders (s : LinuxSystem) : list string :=
  let lib_folder_counter :=
    Counter.of_list
      (lib_list ← Dict.values (shared_libraries s);
       lib ← lib_list;
       [SharedLibrary.dirname lib]) in
  map fst (Counter.most_common lib_folder_counter).

(** [self.arch == a] *)
Definition arch_is (a : string) (s : LinuxSystem) : bool :=
  match arch s with
  | Some a' => String.eqb a' a
  | None => false
  end.

(** The first loop of [iter_lib_folders]: every folder is recorded in
    [exported_lib_folders] and yielded. *)
Fixpoint export_loop (folders : list string) (exported : gset string)
  (yielded : list string) : gset string * list string :=
  match folders with
  | [] => (exported, yielded)
  | lib_folder :: rest =>
      export_loop rest (exported ∪ {[lib_folder]}) (yielded ++ [lib_folder])
  end.

(** [if p not in exported_lib_folders: yield p], for the element [i] of
    [lib_paths]. *)
Definition yield_unless_exported (exported : gset string) (lib_paths : list string)
  (i : nat) : list string :=
  match lib_paths !! i with
  | Some p => if decide (p ∈ exported) then [] else [p]
  | None => []
  end.

(** The body of the second loop of [iter_lib_folders]: what one pair of
    [multiarch_lib_folders] yields.  The body does not add to
    [exported_lib_folders]. *)
Definition multiarch_yields (s : LinuxSystem) (exported : gset string)
  (pair : string * string) : list string :=
  let h := host s in
  let lib_paths :=
    if negb (arch_is "x86_64" s) then Some [pair.1]
    else if String.eqb (realpath h pair.1) (realpath h pair.2) then None
    else Some [pair.1; pair.2] in
  match lib_paths with
  | None => []
  | Some lib_paths =>
      if forallb (path_exists h) lib_paths then
        yield_unless_exported exported lib_paths 0
        ++ (if negb (Nat.eqb (length lib_paths) 1)
            then yield_unless_exported exported lib_paths 1
            else [])
      else []
  end.

(** [iter_lib_folders(self)]: the sequence of the values yielded. *)
Definition iter_lib_folders (s : LinuxSystem) : list string :=
  let '(exported_lib_folders, yielded) := export_loop (get_lib_folders s) ∅ [] in
  yielded ++ (lib_paths ← multiarch_lib_folders;
              multiarch_yields s exported_lib_folders lib_paths).

(** [get_ldconfig_libs(self)] *)
Definition get_ldconfig_libs : M (list string) :=
  ldconfig ← get "ldconfig";
  match ldconfig with
  | Some (String c p) =>
      h ← read host;
      let output := Str.split Str.nl (read_process_output h [String c p; "-p"]) in
      ret (map (Str.strip_chars (String Str.tab EmptyString))
             (filter (fun line => Str.startswith (String Str.tab EmptyString) line = true) output))
  | _ =>
      error "Could not detect ldconfig on this system";; ret []
  end.

(** The loop of [get_shared_libraries]; [shared_libraries] is the local
    [defaultdict(list)]. *)
Fixpoint get_shared_libraries_loop (lines : list string)
  (shared_libraries : list (string * list SharedLibrary))
  : M (list (string * list SharedLibrary)) :=
  match lines with
  | [] => ret shared_libraries
  | lib_line :: rest =>
      match SharedLibrary.new_from_ldconfig lib_line with
      | Err (ValueError _) =>
          error ("Invalid ldconfig line: " +:+ lib_line);;
          get_shared_libraries_loop rest shared_libraries
      | Err e => raise e
      | Ok lib =>
          archs ← read runtime_architectures;
          if negb (existsb (String.eqb (SharedLibrary.arch lib)) archs)
          then get_shared_libraries_loop rest shared_libraries
          else get_shared_libraries_loop rest
                 (Dict.append_default (name lib) lib shared_libraries)
      end
  end.

(** [get_shared_libraries(self)] *)
Definition get_shared_libraries : M (list (string * list SharedLibrary)) :=
  lines ← get_ldconfig_libs;
  get_shared_libraries_loop lines [].

(** [SYSTEM_COMPONENTS["LIBRARIES"][req]] *)
Definition static_libraries (req : string) : M (list string) :=
  match Dict.get req SYSTEM_COMPONENTS.LIBRARIES with
  | Some libs => ret libs
  | None => raise (KeyError req)
  end.

(** [self.shared_libraries[lib]]: the inventory is a [defaultdict]. *)
Definition shared_libraries_getitem (lib : string) : M (list SharedLibrary) :=
  fun s =>
    let '(v, d) := Dict.getitem_default lib (shared_libraries s) in
    (Ok v, set_shared_libraries d s).

(** [self._cache["LIBRARIES"][arch][req]]: a plain [dict] of
    [defaultdict(list)]. *)
Definition cache_libraries_getitem (arch req : string) : M (list string) :=
  fun s =>
    match cache_LIBRARIES s !! arch with
    | None => (Err (KeyError arch), s)
    | Some d =>
        match d !! req with
        | Some l => (Ok l, s)
        | None => (Ok [], set_cache_LIBRARIES (<[arch := <[req := []]> d]> (cache_LIBRARIES s)) s)
        end
    end.

(** [self._cache["LIBRARIES"][arch][req].append(lib)] *)
Definition cache_libraries_append (arch req lib : string) : M unit :=
  l ← cache_libraries_getitem arch req;
  modify (fun s =>
    set_cache_LIBRARIES
      (<[arch := <[req := l ++ [lib]]> (default ∅ (cache_LIBRARIES s !! arch))]>
         (cache_LIBRARIES s)) s).

(** [populate_libraries(self)] *)
Definition populate_libraries : M unit :=
  modify (set_cache_LIBRARIES ∅);;
  archs ← read runtime_architectures;
  for_each archs (fun arch =>
    modify (fun s => set_cache_LIBRARIES (<[arch := ∅]> (cache_LIBRARIES s)) s));;
  reqs ← read requirements;
  for_each reqs (fun req =>
    libs ← static_libraries req;
    for_each libs (fun lib =>
      shared_libs ← shared_libraries_getitem lib;
      for_each shared_libs (fun shared_lib =>
        cache_libraries_append (SharedLibrary.arch shared_lib) req lib))).

(** [get_missing_requirement_libs(self, req)].  Python leaves open the
    order in which [list] enumerates a set; [elements] stands for it. *)
Definition get_missing_requirement_libs (req : string) : M (list (list string)) :=
  libs ← static_libraries req;
  let required_libs : gset string := list_to_set libs in
  archs ← read runtime_architectures;
  comprehension archs (fun arch =>
    present ← cache_libraries_getitem arch req;
    ret (elements (required_libs ∖ list_to_set present))).

(** [get_missing_lib_arch(self, requirement)] *)
Fixpoint get_missing_lib_arch_loop (requirement : string) (index : nat)
  (archs : list string) (missing_arch : list string) : M (list string) :=
  match archs with
  | [] => ret missing_arch
  | arch :: rest =>
      missing ← get_missing_requirement_libs requirement;
      match missing !! index with
      | None => raise IndexError
      | Some [] => get_missing_lib_arch_loop requirement (S index) rest missing_arch
      | Some _ =>
          get_missing_lib_arch_loop requirement (S index) rest (missing_arch ++ [arch])
      end
  end.

Definition get_missing_lib_arch (requirement : string) : M (list string) :=
  archs ← read runtime_architectures;
  get_missing_lib_arch_loop requirement 0 archs [].

(** Attribute access: [AttributeError] when the attribute is absent. *)
Definition getattr {A} (o : option A) : M A :=
  match o with
  | Some a => ret a
  | None => raise AttributeError
  end.

(** [is_feature_supported(self, feature)]; the global [LINUX_SYSTEM] that
    the method reads is the object itself. *)
Definition is_feature_supported (feature : string) : M bool :=
  if String.eqb feature "ACO" then
    try_except_AttributeError
      (info ← (o ← read glxinfo; getattr o);
       renderer ← getattr (GLX_MESA_query_renderer info);
       mesa_version ← getattr (version renderer);
       ret (Str.ge mesa_version "19.3"))
      (ret false)
  else
    missing ← get_missing_requirement_libs feature;
    match missing !! 0 with
    | None => raise IndexError
    | Some [] => ret true
    | Some _ => ret false
    end.

(** [__init__(self)], without the sound fonts and the file limits, which
    none of the methods above read. *)
Definition __init__ : M unit :=
  find_commands;;
  a ← get_arch;
  modify (set_arch a);;
  libs ← get_shared_libraries;
  modify (set_shared_libraries libs);;
  populate_libraries;;
  info ← get_glxinfo;
  modify (set_glxinfo info).

(** The object before [__init__]: the class attribute [_cache] is empty. *)
Definition blank (h : Host) : LinuxSystem :=
  {| host := h; cache_COMMANDS := []; cache_OPTIONAL_COMMANDS := [];
     cache_TERMINALS := []; cache_LIBRARIES := ∅; arch := None;
     shared_libraries := []; glxinfo := None; logger := [] |}.

(** [LINUX_SYSTEM = LinuxSystem()] *)
Definition LINUX_SYSTEM (h : Host) : LinuxSystem := (__init__ (blank h)).2.

End LinuxSystem.

(** One step of a method: the bind of the monad, laid open. *)
Ltac unfold_bind := unfold mbind, LinuxSystem.M_bind, LinuxSystem.bind.

(** ** The Mesa version that [is_feature_supported] looks for *)

Definition mesa_version (s : LinuxSystem) : option string :=
  info ← glxinfo s; renderer ← GLX_MESA_query_renderer info; version renderer.

(** ** The inventory and the requirements, as the statements speak of them *)

(** The records of the inventory, in the order of its items. *)
Definition records (inventory : list (string * list SharedLibrary)) : list SharedLibrary :=
  lib_list ← Dict.values inventory; lib_list.

(** The libraries that are present for an architecture: the names of the
    records of the inventory that carry the tag of that architecture. *)
Definition present_libs (s : LinuxSystem) (a : string) : gset string :=
  list_to_set (name <$> filter (fun lib => SharedLibrary.arch lib = a) (records (shared_libraries s))).

(** The libraries that the static table declares for a requirement. *)
Definition declared_libs (req : string) : gset string :=
  list_to_set (default [] (Dict.get req SYSTEM_COMPONENTS.LIBRARIES)).

(** The list stored under a key, empty when the key is missing. *)
Definition stored {X} (k : string) (d : list (string * list X)) : list X :=
  default [] (Dict.get k d).

(** The lines of a listing that are kept, and the records logged for the
    others: the loop of [get_shared_libraries] without the state. *)
Fixpoint inventory_of (archs lines : list string)
  (acc : list (string * list SharedLibrary)) : list (string * list SharedLibrary) :=
  match lines with
  | [] => acc
  | lib_line :: rest =>
      match SharedLibrary.new_from_ldconfig lib_line with
      | Ok lib =>
          if existsb (String.eqb (SharedLibrary.arch lib)) archs
          then inventory_of archs rest (Dict.append_default (name lib) lib acc)
          else inventory_of archs rest acc
      | Err _ => inventory_of archs rest acc
      end
  end.

Fixpoint invalid_lines (lines : list string) : list LogRecord :=
  match lines with
  | [] => []
  | lib_line :: rest =>
      match SharedLibrary.new_from_ldconfig lib_line with
      | Ok _ => invalid_lines rest
      | Err _ =>
          {| lvl := ERROR; message := "Invalid ldconfig line: " +:+ lib_line |}
          :: invalid_lines rest
      end
  end.

Definition add_logs (rs : list LogRecord) (s : LinuxSystem) : LinuxSystem :=
  {| host := host s; cache_COMMANDS := cache_COMMANDS s;
     cache_OPTIONAL_COMMANDS := cache_OPTIONAL_COMMANDS s;
     cache_TERMINALS := cache_TERMINALS s; cache_LIBRARIES := cache_LIBRARIES s;
     arch := arch s; shared_libraries := shared_libraries s;
     glxinfo := glxinfo s; logger := logger s ++ rs |}.

(** The list that the [LIBRARIES] cache holds for an architecture and a
    requirement, empty when there is none. *)
Definition view (c : gmap string (gmap string (list string))) (a req : string)
  : list string :=
  default [] (d ← c !! a; d !! req).

(** What the loops of [populate_libraries] leave as they were in [s0]: the
    host, the architecture, what the inventory stores; the cache keeps an
    entry for each architecture of the machine. *)
Definition frame (s0 s : LinuxSystem) : Prop :=
  host s = host s0 /\ arch s = arch s0
  /\ NoDup (Dict.keys (shared_libraries s))
  /\ (forall k, stored k (shared_libraries s) = stored k (shared_libraries s0))
  /\ (forall a, a ∈ LinuxSystem.runtime_architectures s0 ->
                is_Some (cache_LIBRARIES s !! a)).

(** The lists of the cache are those of [f]. *)
Definition cache_is (f : string -> string -> list string) (s : LinuxSystem) : Prop :=
  forall a req, view (cache_LIBRARIES s) a req = f a req.

(** What [populate_libraries] appends, seen from the architecture [a] and
    the requirement [r]: for a record, for a library and for a requirement
    of its loops. *)
Definition of_record (req lib : string) (shared_lib : SharedLibrary) (a r : string)
  : list string :=
  if decide (SharedLibrary.arch shared_lib = a /\ req = r) then [lib] else [].

Definition of_library (inventory : list (string * list SharedLibrary))
  (req lib a r : string) : list string :=
  shared_lib ← stored lib inventory; of_record req lib shared_lib a r.

Definition of_requirement (inventory : list (string * list SharedLibrary))
  (req a r : string) : list string :=
  lib ← default [] (Dict.get req SYSTEM_COMPONENTS.LIBRARIES);
  of_library inventory req lib a r.

(** The inventory of a built object: one item for a name, the records of an
    item carry its name and an architecture of the machine. *)
Definition inventory_ok (archs : list string)
  (inventory : list (string * list SharedLibrary)) : Prop :=
  NoDup (Dict.keys inventory)
  /\ forall k lib, lib ∈ stored k inventory ->
                   name lib = k /\ SharedLibrary.arch lib ∈ archs.

(** The object once [populate_libraries] has run: the cache has an entry for
    each architecture of the machine and holds, for a requirement of the
    machine, the declared libraries that are present. *)
Definition populated (s : LinuxSystem) : Prop :=
  inventory_ok (LinuxSystem.runtime_architectures s) (shared_libraries s)
  /\ (forall a, a ∈ LinuxSystem.runtime_architectures s ->
                is_Some (cache_LIBRARIES s !! a))
  /\ (forall a req lib,
         a ∈ LinuxSystem.runtime_architectures s ->
         req ∈ LinuxSystem.requirements s ->
         lib ∈ declared_libs req ->
         lib ∈ view (cache_LIBRARIES s) a req <-> lib ∈ present_libs s a).

(** What the inventory and the requirement queries read of the object. *)
Definition core (s : LinuxSystem)
  : Host * option string * list (string * list SharedLibrary)
    * gmap string (gmap string (list string)) :=
  (host s, arch s, shared_libraries s, cache_LIBRARIES s).

(** A method that returns and leaves these parts as they are. *)
Definition preserves_core {A} (m : LinuxSystem.M A) : Prop :=
  forall s, exists a s', m s = (Ok a, s') /\ core s' = core s.

(** A method that returns, specified by what holds before and after. *)
Definition hoare {A} (P : LinuxSystem -> Prop) (m : LinuxSystem.M A)
  (Q : A -> LinuxSystem -> Prop) : Prop :=
  forall s, P s -> exists a s', m s = (Ok a, s') /\ Q a s'.

(** ** Hosts used as examples *)

Module Scenario.

Definition no_glxinfo : GlxInfo :=
  {| display := None; GLX_MESA_query_renderer := None |}.

(** A host where [ldconfig] is found on the path and prints [listing],
    where the directories [dirs] exist and no path is a symbolic link. *)
Definition make (machine listing : string) (dirs : list string) : Host :=
  {| machine := machine;
     which := fun c => if String.eqb c "ldconfig" then Some "/usr/sbin/ldconfig" else None;
     path_exists := fun p => existsb (String.eqb p) dirs;
     realpath := fun p => p;
     read_process_output := fun _ => listing;
     is_amd := false;
     new_GlxInfo := no_glxinfo |}.

Definition aarch64 : Host := make "aarch64" "" [].

(** The listing of three lines: libGL and libvulkan for x86-64 and a line
    that is not a record, between the header and the footer that
    [ldconfig] prints. *)
Definition line (text : string) : string :=
  String Str.tab text +:+ String Str.nl "".

Definition malformed : string := "libbroken.so.1 => /usr/lib/libbroken.so.1".

Definition three_lines : string :=
  "3 libs found in cache" +:+ String Str.nl ""
  +:+ line "libGL.so.1 (libc6,x86-64) => /usr/lib/x86_64-linux-gnu/libGL.so.1"
  +:+ line "libvulkan.so.1 (libc6,x86-64) => /usr/lib/x86_64-linux-gnu/libvulkan.so.1"
  +:+ line malformed
  +:+ "Cache generated by: ldconfig (GNU libc) stable release version 2.35".

Definition synthetic : Host := make "x86_64" three_lines [].

(** A 64-bit host whose only library is the 32-bit libvulkan. *)
Definition vulkan32 : Host :=
  make "x86_64" (line "libvulkan.so.1 (libc6) => /usr/lib32/libvulkan.so.1") [].

Definition libGL : SharedLibrary :=
  {| name := "libGL.so.1"; flags := ["libc6"; "x86-64"];
     path := "/usr/lib/x86_64-linux-gnu/libGL.so.1" |}.

Definition libvulkan : SharedLibrary :=
  {| name := "libvulkan.so.1"; flags := ["libc6"; "x86-64"];
     path := "/usr/lib/x86_64-linux-gnu/libvulkan.so.1" |}.

(** A 64-bit host whose [ldconfig] lists nothing and where [/lib],
    [/lib32] and [/lib64] are three directories. *)
Definition three_lib_dirs : Host := make "x86_64" "" ["/lib"; "/lib32"; "/lib64"].

(** A 64-bit host whose [ldconfig] lists nothing and where, of the
    conventional folders, only [/usr/lib] exists. *)
Definition only_usr_lib : Host := make "x86_64" "" ["/usr/lib"].

End Scenario.

(** ** Further [str] operations *)

Module StrMore.

(** [s.split(sep)[0]] for a separator that is not empty: the text before
    the first occurrence of [sep], all of [s] when there is none. *)
Fixpoint before_first (sep s : string) : string :=
  match s with
  | EmptyString => EmptyString
  | String c s' =>
      if Str.startswith sep s then EmptyString else String c (before_first sep s')
  end.



(** The number of occurrences of a character. *)
Fixpoint count_char (c : ascii) (s : string) : nat :=
  match s with
  | EmptyString => 0
  | String d s' => (if Str.ascii_eqb d c then 1 else 0) + count_char c s'
  end.

End StrMore.

(** ** Further methods of [class SharedLibrary] *)

Module SharedLibraryMore.

(** The [basename] property: [self.name.split(".so")[0]] *)
Definition basename (l : SharedLibrary) : string :=
  StrMore.before_first ".so" (name l).

(** [__str__(self)] *)
Definition __str__ (l : SharedLibrary) : string :=
  name l +:+ " (" +:+ SharedLibrary.arch l +:+ ")".

End SharedLibraryMore.

(** ** The readers of the text files of [/proc]

    The static methods take what [readlines()] returns: the lines of the
    file, each with the newline that ends it. *)

Module Proc.





(** [get_kernel_version()] *)
Definition get_kernel_version (kernel_info : list string) : result string :=
  match kernel_info !! 0 with
  | None => Err IndexError
  | Some info =>
      match Str.split " "%char info !! 2 with
      | None => Err IndexError
      | Some version => Ok version
      end
  end.

End Proc.

(** ** Further methods of [class LinuxSystem] and the functions of the module *)

(** What these methods ask of the modules that are not part of this file:
    whether an executable is found, and the answer of the Vulkan query. *)
Record Collaborators : Type := {
  can_find_executable : string -> bool;     (* system.can_find_executable *)
  vkquery_is_vulkan_supported : bool;       (* vkquery.is_vulkan_supported() *)
}.

(** The exception of [lutris.exceptions] that the module raises. *)
Inductive MisconfigurationError : Type :=
| Misconfiguration (msg : string).

Module Queries.

(** [get_terminals(self)] *)
Definition get_terminals : LinuxSystem.M (list string) :=
  LinuxSystem.read (fun s => Dict.values (cache_TERMINALS s)).

(** [{req: f(req) for req in reqs}] *)
Fixpoint dict_comprehension {V} (reqs : list string) (f : string -> LinuxSystem.M V)
  (acc : list (string * V)) : LinuxSystem.M (list (string * V)) :=
  match reqs with
  | [] => LinuxSystem.ret acc
  | req :: rest =>
      LinuxSystem.bind (f req) (fun v => dict_comprehension rest f (Dict.set req v acc))
  end.

(** [get_missing_libs(self)] *)
Definition get_missing_libs : LinuxSystem.M (list (string * list (list string))) :=
  reqs ← LinuxSystem.read LinuxSystem.requirements;
  dict_comprehension reqs LinuxSystem.get_missing_requirement_libs [].

(** [gamemode_available(self)] *)
Definition gamemode_available (x : Collaborators) : LinuxSystem.M bool :=
  if can_find_executable x "gamemoderun" then LinuxSystem.ret true
  else
    LinuxSystem.bind (LinuxSystem.is_feature_supported "GAMEMODE") (fun supported =>
      if supported then LinuxSystem.ret true else LinuxSystem.ret false).

(** [is_vulkan_supported(self)]: the Vulkan query is made only when no
    architecture misses a library. *)
Definition is_vulkan_supported (x : Collaborators) : LinuxSystem.M bool :=
  missing_arch ← LinuxSystem.get_missing_lib_arch "VULKAN";
  match missing_arch with
  | [] => LinuxSystem.ret (vkquery_is_vulkan_supported x)
  | _ => LinuxSystem.ret false
  end.

(** [get_terminal_apps()] *)
Definition get_terminal_apps : LinuxSystem.M (list string) := get_terminals.

(** [get_default_terminal()] *)
Definition get_default_terminal : LinuxSystem.M (option string) :=
  terms ← get_terminal_apps;
  match terms with
  | term :: _ => LinuxSystem.ret (Some term)
  | [] => LinuxSystem.error "Couldn't find a terminal emulator.";; LinuxSystem.ret None
  end.

(** [get_required_default_terminal()]: the [MisconfigurationError] that it
    raises is the left side of the sum. *)
Definition get_required_default_terminal
  : LinuxSystem.M (MisconfigurationError + string) :=
  term ← get_default_terminal;
  match term with
  | Some (String c p) => LinuxSystem.ret (inr (String c p))
  | _ =>
      LinuxSystem.ret (inl (Misconfiguration "No terminal emulator could be detected."))
  end.

End Queries.

(** ** What the statements about the built object speak of *)

(** The path that the command loop of [__init__] finds for a command:
    [shutil.which], then the [sbin] folders. *)
Definition discover (h : Host) (command : string) : option string :=
  match (if LinuxSystem.truthy (which h command) then which h command
         else LinuxSystem.get_sbin_path h command) with
  | Some (String c p) => Some (String c p)
  | _ => None
  end.

(** The dictionary that the loop leaves for a list of commands. *)
Definition found (h : Host) (commands : list string) (d : list (string * string))
  : list (string * string) :=
  fold_left (fun d command =>
               match discover h command with
               | Some p => Dict.set command p d
               | None => d
               end) commands d.

(** The three dictionaries of commands of the cache. *)
Definition caches (s : LinuxSystem)
  : list (string * string) * list (string * string) * list (string * string) :=
  (cache_COMMANDS s, cache_OPTIONAL_COMMANDS s, cache_TERMINALS s).

(** The architecture that [get_arch] returns for a machine string. *)
Definition arch_of_machine (machine : string) : option string :=
  if String.eqb machine "x86_64" then Some "x86_64"
  else if existsb (String.eqb machine) ["i386"; "i686"] then Some "i386"
  else if Str.contains "armv7" machine then Some "armv7"
  else None.

(** The lines that [get_ldconfig_libs] returns on a host. *)
Definition ldconfig_lines (h : Host) : list string :=
  match discover h "ldconfig" with
  | Some ldconfig =>
      map (Str.strip_chars (String Str.tab EmptyString))
        (filter (fun line => Str.startswith (String Str.tab EmptyString) line = true)
           (Str.split Str.nl (read_process_output h [ldconfig; "-p"])))
  | None => []
  end.

(** The records of the lines of a listing that parse. *)
Fixpoint parsed (lines : list string) : list SharedLibrary :=
  match lines with
  | [] => []
  | line :: rest =>
      match SharedLibrary.new_from_ldconfig line with
      | Ok lib => lib :: parsed rest
      | Err _ => parsed rest
      end
  end.





(** A method that leaves a part of the object as it is, whether it returns
    or raises. *)
Definition keeps {A X} (part : LinuxSystem -> X) (m : LinuxSystem.M A) : Prop :=
  forall s, part (m s).2 = part s.

(** A method that returns a value read off the object and only writes to
    the log. *)
Definition logs_only {A} (m : LinuxSystem.M A) (value : LinuxSystem -> A) : Prop :=
  forall s, exists rs, m s = (Ok (value s), add_logs rs s).

(** The order of [most_common]: the larger count first. *)
Definition by_count (a b : string * nat) : Prop := snd b <= snd a.

(** The number of records of the inventory that lie in a folder. *)
Definition uses (s : LinuxSystem) (folder : string) : nat :=
  length (filter (fun lib => SharedLibrary.dirname lib = folder)
            (records (shared_libraries s))).

(** The [GlxInfo] object that [get_glxinfo] returns on a host. *)
Definition probed_glxinfo (h : Host) : option GlxInfo :=
  match discover h "glxinfo" with
  | Some _ =>
      match display (new_GlxInfo h) with
      | Some _ => Some (new_GlxInfo h)
      | None => None
      end
  | None => None
  end.

(** The records of the listing of a host that carry the name [k] and an
    architecture of [archs], in the order of the listing. *)
Definition listed (archs : list string) (h : Host) (k : string) : list SharedLibrary :=
  filter (fun lib => name lib = k /\ SharedLibrary.arch lib ∈ archs)
    (parsed (ldconfig_lines h)).

(** The Mesa version that the built object reads through [glxinfo]. *)
Definition probed_mesa_version (h : Host) : option string :=
  info ← probed_glxinfo h; renderer ← GLX_MESA_query_renderer info; version renderer.

(** A 64-bit host where no command is installed and no path exists. *)
Definition bare_host : Host :=
  {| machine := "x86_64";
     which := fun _ => None;
     path_exists := fun _ => false;
     realpath := fun p => p;
     read_process_output := fun _ => "";
     is_amd := false;
     new_GlxInfo := Scenario.no_glxinfo |}.

(** What a caller can read of the object for an architecture and a
    requirement: all the attributes but the [LIBRARIES] cache, and the list
    that the cache holds there, empty when there is none. *)
Definition observes (s : LinuxSystem) (a r : string) :=
  (host s, caches s, arch s, shared_libraries s, glxinfo s, logger s,
   view (cache_LIBRARIES s) a r).

(** The list that [populate_libraries] builds for an architecture and a
    requirement, from the records that the inventory stores under a name:
    a declared library once for each of its records with the architecture,
    in the order of the declaration. *)
Definition cached (inventory : string -> list SharedLibrary) (reqs : list string)
  (a r : string) : list string :=
  if decide (r ∈ reqs) then
    lib ← default [] (Dict.get r SYSTEM_COMPONENTS.LIBRARIES);
    shared_lib ← inventory lib;
    if decide (SharedLibrary.arch shared_lib = a) then [lib] else []
  else [].

(** The records that the loops of [populate_libraries] visit, in the order
    of the visit: for each requirement, for each library declared for it,
    the records that the inventory stores under its name. *)
Definition visited (s : LinuxSystem) : list SharedLibrary :=
  req ← LinuxSystem.requirements s;
  lib ← default [] (Dict.get req SYSTEM_COMPONENTS.LIBRARIES);
  stored lib (shared_libraries s).

(** A loop over [records] that raises [KeyError] at the first record whose
    architecture is not in [archs], and returns with [I] when there is
    none. *)
Definition raises_first (archs : list string) (I : LinuxSystem -> Prop)
  (records : list SharedLibrary) (m : LinuxSystem.M unit) (s : LinuxSystem) : Prop :=
  match filter (fun shared_lib => SharedLibrary.arch shared_lib ∉ archs) records with
  | [] => exists s', m s = (Ok tt, s') /\ I s'
  | shared_lib :: _ => exists s', m s = (Err (KeyError (SharedLibrary.arch shared_lib)), s')
  end.

(** The state in the loops of [populate_libraries]: the cache has an entry
    for the architectures [archs] and for no other, the inventory stores
    what [inventory] stores. *)
Definition in_populate (archs : list string) (inventory : list (string * list SharedLibrary))
  (s : LinuxSystem) : Prop :=
  (forall a, is_Some (cache_LIBRARIES s !! a) <-> a ∈ archs)
  /\ (forall k, stored k (shared_libraries s) = stored k inventory).

(** An object whose inventory holds a 64-bit record of [libGL.so.1] while
    its architecture is unknown. *)
Definition foreign_record : LinuxSystem :=
  LinuxSystem.set_shared_libraries [("libGL.so.1", [Scenario.libGL])]
    (LinuxSystem.blank bare_host).

(** A 64-bit host where [shutil.which] finds nothing and [ldconfig] lies in
    [/usr/sbin]. *)
Definition sbin_host : Host :=
  {| machine := "x86_64";
     which := fun _ => None;
     path_exists := fun p => String.eqb p "/usr/sbin/ldconfig";
     realpath := fun p => p;
     read_process_output := fun _ => "";
     is_amd := false;
     new_GlxInfo := Scenario.no_glxinfo |}.

(** ** The drives

    A block device of the output of [lsblk -f --json], as the module reads
    it: the [fstype] is a string or [null]; [mountpoints] is a list of
    strings and [null]s, [mountpoint] a string or [null], [children] a list
    of devices; an absent key reads as the default that [device.get] is
    given, the empty list or [None]. *)
#[warnings="-register-all"]
Inductive Device : Type := mkDevice {
  fstype : option string;
  mountpoints : list (option string);
  mountpoint : option string;
  children : list Device;
}.

Module Drives.

(** [get_drives()]; [blockdevices] is the list that [json.loads] reads
    from an output that is not empty. *)
Definition get_drives (lsblk_output : string) (blockdevices : list Device) : list Device :=
  match lsblk_output with
  | EmptyString => []
  | _ => filter (fun drive => fstype drive <> Some "squashfs") blockdevices
  end.

(** [devices.pop()]: the last item and the items before it. *)
Fixpoint pop {A} (l : list A) : option (list A * A) :=
  match l with
  | [] => None
  | x :: l' =>
      match pop l' with
      | None => Some ([], x)
      | Some (init, y) => Some (x :: init, y)
      end
  end.

(** The test of the loop of [get_fs_type_for_path]. *)
Definition at_mount_point (mount_point : string) (device : Device) : bool :=
  bool_decide (Some mount_point ∈ mountpoints device)
  || bool_decide (Some mount_point = mountpoint device).

(** The [while devices] loop of [get_fs_type_for_path]: [None] when the
    fuel runs out, else what the method returns. *)
Fixpoint get_fs_type_for_path_loop (fuel : nat) (mount_point : string)
  (devices : list Device) : option (option string) :=
  match fuel with
  | 0 => None
  | S fuel' =>
      match pop devices with
      | None => Some None
      | Some (devices, device) =>
          let devices := devices ++ children device in
          if at_mount_point mount_point device then Some (fstype device)
          else get_fs_type_for_path_loop fuel' mount_point devices
      end
  end.

(** [get_fs_type_for_path(self, path)]; [mount_point] is what
    [system.find_mount_point(path)] returns. *)
Definition get_fs_type_for_path (fuel : nat) (mount_point lsblk_output : string)
  (blockdevices : list Device) : option (option string) :=
  get_fs_type_for_path_loop fuel mount_point (get_drives lsblk_output blockdevices).

(** The devices of a tree, children before their parent, and their
    number. *)
Fixpoint postorder (device : Device) : list Device :=
  match device with
  | mkDevice _ _ _ ch => concat (map postorder ch) ++ [device]
  end.

Fixpoint size (device : Device) : nat :=
  match device with
  | mkDevice _ _ _ ch => S (list_sum (map size ch))
  end.

Definition weight (devices : list Device) : nat := list_sum (map size devices).

(** A disk with a partition mounted at the root and a read-only image. *)
Definition root_partition : Device :=
  {| fstype := Some "ext4"; mountpoints := [Some "/"]; mountpoint := None;
     children := [] |}.

Definition disk : Device :=
  {| fstype := None; mountpoints := [None]; mountpoint := None;
     children := [root_partition] |}.

Definition image : Device :=
  {| fstype := Some "squashfs"; mountpoints := [Some "/snap/core"]; mountpoint := None;
     children := [] |}.

End Drives.

(** * Properties *)

(** ** The definitions on small inputs *)

Example parse_libGL :
  SharedLibrary.new_from_ldconfig
    "libGL.so.1 (libc6,x86-64, OS ABI: Linux 3.2.0) => /usr/lib/x86_64-linux-gnu/libGL.so.1"
  = Ok {| name := "libGL.so.1";
          flags := ["libc6"; "x86-64"; "OS ABI: Linux 3.2.0"];
          path := "/usr/lib/x86_64-linux-gnu/libGL.so.1" |}.
Proof. reflexivity. Qed.

(** The groups are as long as they can be: the first one runs up to the
    last opening parenthesis that lets the rest match. *)
Example parse_greedy :
  Regex.ldconfig_match "a (b (c) => /d) => /e" = Some ("a (b", "c) => /d", "/e").
Proof. reflexivity. Qed.

Example parse_newline :
  Regex.ldconfig_match ("a (b) => /c" +:+ String Str.nl "") = Some ("a", "b", "/c")
  /\ Regex.ldconfig_match ("a (b) => /c" +:+ String Str.nl "d") = None.
Proof. split; reflexivity. Qed.

Example split_strip :
  Str.split ","%char "a,,b," = ["a"; ""; "b"; ""]
  /\ Str.split ","%char "" = [""]
  /\ Str.strip (String Str.tab " x86-64  ") = "x86-64"
  /\ Str.replace "-" "_" "x86-64" = "x86_64"
  /\ Str.replace "ab" "c" "xababy" = "xccy".
Proof. repeat split; reflexivity. Qed.

Example dirname_examples :
  Str.dirname "/usr/lib/libGL.so.1" = "/usr/lib" /\ Str.dirname "/libx.so" = "/"
  /\ Str.dirname "libx.so" = "" /\ Str.dirname "/a//b" = "/a".
Proof. repeat split; reflexivity. Qed.

(** The most used folder comes first; folders used as often keep the order
    in which they were met. *)
Example most_common_stable :
  map fst (Counter.most_common (Counter.of_list ["/a"; "/b"; "/c"; "/b"; "/c"]))
  = ["/b"; "/c"; "/a"].
Proof. reflexivity. Qed.

Example ge_is_lexical :
  Str.ge "20.0.8" "19.3" = true /\ Str.ge "9.2" "19.3" = true
  /\ Str.ge "100.1" "19.3" = false /\ Str.ge "19.3" "19.3" = true.
Proof. repeat split; reflexivity. Qed.

(** ** Strings *)

Section str_lemmas.

Lemma app_cons c s t : String c s +:+ t = String c (s +:+ t).
Proof. reflexivity. Qed.

Lemma app_empty_l t : "" +:+ t = t.
Proof. reflexivity. Qed.

Lemma app_assoc' (a b c : string) : (a +:+ b) +:+ c = a +:+ (b +:+ c).
Proof.
  induction a as [|x a IH]; [reflexivity|].
  rewrite !app_cons. by rewrite IH.
Qed.

Lemma ascii_eqb_true a b : Str.ascii_eqb a b = true <-> a = b.
Proof. apply Ascii.eqb_eq. Qed.

Lemma ascii_eqb_refl a : Str.ascii_eqb a a = true.
Proof. by apply ascii_eqb_true. Qed.

Lemma startswith_spec p s :
  Str.startswith p s = true <-> exists r, s = p +:+ r.
Proof.
  revert s. induction p as [|a p IH]; intros s.
  - destruct s; simpl; split; eauto.
  - destruct s as [|b s]; simpl.
    + split; [done|]. intros [r Hr]. by rewrite app_cons in Hr.
    + rewrite andb_true_iff, ascii_eqb_true, IH. split.
      * intros [-> [r ->]]. by exists r.
      * intros [r Hr]. rewrite app_cons in Hr. injection Hr as -> ->. eauto.
Qed.

Lemma strip_prefix_spec p s r :
  Str.strip_prefix p s = Some r <-> s = p +:+ r.
Proof.
  revert s. induction p as [|a p IH]; intros s.
  - destruct s; simpl; rewrite app_empty_l; split; congruence.
  - destruct s as [|b s]; simpl.
    + rewrite app_cons. split; discriminate.
    + rewrite app_cons. destruct (Str.ascii_eqb a b) eqn:E.
      * apply ascii_eqb_true in E as ->. rewrite IH. split; congruence.
      * split; [discriminate|]. intros [= -> _].
        by rewrite ascii_eqb_refl in E.
Qed.

Lemma contains_spec n s :
  Str.contains n s = true <-> exists a b, s = a +:+ n +:+ b.
Proof.
  induction s as [|c s IH].
  - simpl. rewrite orb_false_r, startswith_spec. split.
    + intros [r ->]. by exists "", r.
    + intros [a [b H]]. destruct a; [by exists b|]. by rewrite app_cons in H.
  - change (Str.contains n (String c s))
      with (Str.startswith n (String c s) || Str.contains n s).
    rewrite orb_true_iff, startswith_spec, IH. split.
    + intros [[r ->]|[a [b ->]]]; [by exists "", r|by exists (String c a), b].
    + intros [a [b H]]. destruct a as [|x a].
      * left. by exists b.
      * right. rewrite app_cons in H. injection H as -> ->. by exists a, b.
Qed.

Lemma contains_cons n c s :
  Str.contains n (String c s) = false ->
  Str.startswith n (String c s) = false /\ Str.contains n s = false.
Proof.
  change (Str.contains n (String c s))
    with (Str.startswith n (String c s) || Str.contains n s).
  apply orb_false_iff.
Qed.

(** A text that lacks a part of the needle lacks the needle. *)
Lemma contains_infix x m y s :
  Str.contains m s = false -> Str.contains (x +:+ m +:+ y) s = false.
Proof.
  intros H. apply not_true_is_false. intros [a [b ->]]%contains_spec.
  assert (Str.contains m (a +:+ (x +:+ m +:+ y) +:+ b) = true) as E; [|congruence].
  apply contains_spec. exists (a +:+ x), (y +:+ b).
  by rewrite !app_assoc'.
Qed.

Lemma has_char_contains c s :
  Str.has_char c s = Str.contains (String c "") s.
Proof.
  induction s as [|d s IH]; [reflexivity|].
  change (Str.contains (String c "") (String d s))
    with (Str.startswith (String c "") (String d s) || Str.contains (String c "") s).
  simpl. rewrite IH. by destruct s; rewrite andb_true_r.
Qed.

End str_lemmas.

(** ** The pattern of [new_from_ldconfig] *)

Section regex_lemmas.

Lemma group2_eq s :
  Regex.group2 s =
  let here :=
    match Str.strip_prefix ") => " s with
    | Some rest => match Regex.group3 rest with
                   | Some g3 => Some ("", g3)
                   | None => None
                   end
    | None => None
    end in
  match s with
  | "" => here
  | String c s' =>
      match (if Regex.dot c then
               match Regex.group2 s' with
               | Some (g2, g3) => Some (String c g2, g3)
               | None => None
               end
             else None) with
      | Some r => Some r
      | None => here
      end
  end.
Proof. by destruct s. Qed.

Lemma group1_eq s :
  Regex.group1 s =
  let here :=
    match Str.strip_prefix " (" s with
    | Some rest => match Regex.group2 rest with
                   | Some (g2, g3) => Some ("", g2, g3)
                   | None => None
                   end
    | None => None
    end in
  match s with
  | "" => here
  | String c s' =>
      match (if Regex.dot c then
               match Regex.group1 s' with
               | Some (g1, g2, g3) => Some (String c g1, g2, g3)
               | None => None
               end
             else None) with
      | Some r => Some r
      | None => here
      end
  end.
Proof. by destruct s. Qed.

Lemma group3_all_dot s : Regex.all_dot s = true -> Regex.group3 s = Some s.
Proof.
  induction s as [|c s IH]; [done|]. simpl.
  intros [Hc Hs]%andb_true_iff. by rewrite Hc, IH.
Qed.

(** Group 3 is the rest of the line, up to a newline that ends it. *)
Lemma group3_sound s g :
  Regex.group3 s = Some g -> s = g \/ s = g +:+ String Str.nl "".
Proof.
  revert g. induction s as [|c s IH]; intros g; simpl.
  - intros [= <-]. by left.
  - destruct (Regex.dot c) eqn:Hc.
    + destruct (Regex.group3 s) as [g'|]; [|done]. intros [= <-].
      destruct (IH g' eq_refl) as [->| ->]; [by left|right].
      by rewrite app_cons.
    + destruct s; [|done]. intros [= <-]. right.
      unfold Regex.dot in Hc. apply negb_false_iff, ascii_eqb_true in Hc as ->.
      done.
Qed.

(** What a match of the tail of the pattern says about the text. *)
Lemma group2_sound s g2 g3 :
  Regex.group2 s = Some (g2, g3) ->
  exists rest, s = g2 +:+ ") => " +:+ rest /\ Regex.group3 rest = Some g3.
Proof.
  revert g2 g3. induction s as [|c s IH]; intros g2 g3; rewrite group2_eq; cbv zeta.
  - destruct (Str.strip_prefix ") => " "") as [rest|] eqn:E; [|done].
    apply strip_prefix_spec in E. destruct (Regex.group3 rest) eqn:E3; [|done].
    intros [= <- <-]. eauto.
  - destruct (Regex.dot c); [destruct (Regex.group2 s) as [[h2 h3]|] eqn:E2|].
    + intros [= <- <-]. destruct (IH _ _ eq_refl) as [rest [-> H3]].
      exists rest. by rewrite app_cons.
    + destruct (Str.strip_prefix ") => " (String c s)) as [rest|] eqn:E; [|done].
      apply strip_prefix_spec in E. destruct (Regex.group3 rest) eqn:E3; [|done].
      intros [= <- <-]. eauto.
    + destruct (Str.strip_prefix ") => " (String c s)) as [rest|] eqn:E; [|done].
      apply strip_prefix_spec in E. destruct (Regex.group3 rest) eqn:E3; [|done].
      intros [= <- <-]. eauto.
Qed.

Lemma group1_sound s g1 g2 g3 :
  Regex.group1 s = Some (g1, g2, g3) ->
  exists rest, s = g1 +:+ " (" +:+ g2 +:+ ") => " +:+ rest
               /\ Regex.group3 rest = Some g3.
Proof.
  revert g1 g2 g3. induction s as [|c s IH]; intros g1 g2 g3;
    rewrite group1_eq; cbv zeta.
  - destruct (Str.strip_prefix " (" "") as [rest|] eqn:E; [|done].
    by apply strip_prefix_spec in E.
  - assert (forall r,
      match Str.strip_prefix " (" (String c s) with
      | Some rest => match Regex.group2 rest with
                     | Some (g2, g3) => Some ("", g2, g3)
                     | None => None
                     end
      | None => None
      end = Some r -> r = (g1, g2, g3) ->
      exists rest, String c s = g1 +:+ " (" +:+ g2 +:+ ") => " +:+ rest
                   /\ Regex.group3 rest = Some g3) as Hhere.
    { intros r. destruct (Str.strip_prefix " (" (String c s)) as [rest|] eqn:E; [|done].
      apply strip_prefix_spec in E.
      destruct (Regex.group2 rest) as [[h2 h3]|] eqn:E2; [|done].
      intros [= <-] [= <- <- <-].
      destruct (group2_sound _ _ _ E2) as [rest' [-> H3]]. eauto. }
    destruct (Regex.dot c); [destruct (Regex.group1 s) as [[[h1 h2] h3]|] eqn:E1|].
    + intros [= <- <- <-]. destruct (IH _ _ _ eq_refl) as [rest [-> H3]].
      exists rest. by rewrite app_cons.
    + intros H. by eapply Hhere.
    + intros H. by eapply Hhere.
Qed.

Lemma group2_needs_arrow s :
  Str.contains ") => " s = false -> Regex.group2 s = None.
Proof.
  intros H. destruct (Regex.group2 s) as [[g2 g3]|] eqn:E; [|done].
  apply group2_sound in E as [rest [-> _]].
  assert (Str.contains ") => " (g2 +:+ ") => " +:+ rest) = true); [|congruence].
  apply contains_spec. eauto.
Qed.

Lemma group1_needs_arrow s :
  Str.contains ") => " s = false -> Regex.group1 s = None.
Proof.
  intros H. destruct (Regex.group1 s) as [[[g1 g2] g3]|] eqn:E; [|done].
  apply group1_sound in E as [rest [-> _]].
  assert (Str.contains ") => " (g1 +:+ " (" +:+ g2 +:+ ") => " +:+ rest) = true);
    [|congruence].
  apply contains_spec. exists (g1 +:+ " (" +:+ g2), rest. by rewrite !app_assoc'.
Qed.

Lemma group1_needs_paren s :
  Str.contains " (" s = false -> Regex.group1 s = None.
Proof.
  intros H. destruct (Regex.group1 s) as [[[g1 g2] g3]|] eqn:E; [|done].
  apply group1_sound in E as [rest [-> _]].
  assert (Str.contains " (" (g1 +:+ " (" +:+ g2 +:+ ") => " +:+ rest) = true);
    [|congruence].
  apply contains_spec. eauto.
Qed.

Lemma arrow_tail_contains P :
  Str.contains ") => " P = false -> Str.contains ") => " (" => " +:+ P) = false.
Proof.
  intros H. apply not_true_is_false. intros E.
  change (" => " +:+ P) with (String " " (String "=" (String ">" (String " " P)))) in E.
  do 4 (apply orb_true_iff in E as [E|E]; [discriminate E|]).
  change (Str.contains ") => " P = true) in E. congruence.
Qed.

(** The arrow inside the path is what could make group 2 longer. *)
Lemma group2_exact F P :
  Regex.all_dot F = true -> Regex.all_dot P = true ->
  Str.contains ") => " P = false ->
  Regex.group2 (F +:+ ") => " +:+ P) = Some (F, P).
Proof.
  intros HF HP Harrow. induction F as [|c F IH].
  - rewrite app_empty_l.
    change (") => " +:+ P) with (String ")" (" => " +:+ P)).
    rewrite group2_eq. cbv beta iota zeta.
    rewrite (group2_needs_arrow _ (arrow_tail_contains _ Harrow)).
    change (String ")" (" => " +:+ P)) with (") => " +:+ P).
    rewrite (proj2 (strip_prefix_spec _ _ _) eq_refl).
    rewrite group3_all_dot by done. by destruct (Regex.dot ")").
  - simpl in HF. apply andb_true_iff in HF as [Hc HF].
    rewrite app_cons, group2_eq. cbv beta iota zeta. by rewrite Hc, (IH HF).
Qed.

(** A parenthesis after a space inside the flags is what could make
    group 1 longer. *)
Lemma group1_flags_none F P :
  Str.contains " (" F = false -> Str.contains ") => " P = false ->
  Regex.group1 (F +:+ ") => " +:+ P) = None.
Proof.
  intros HF Harrow. induction F as [|c F IH].
  - rewrite app_empty_l.
    change (") => " +:+ P) with (String ")" (" => " +:+ P)).
    rewrite group1_eq. cbv beta iota zeta.
    rewrite (group1_needs_arrow _ (arrow_tail_contains _ Harrow)).
    by destruct (Regex.dot ")").
  - apply contains_cons in HF as [Hhere HF].
    rewrite app_cons, group1_eq. cbv beta iota zeta. rewrite (IH HF).
    assert (Str.strip_prefix " (" (String c (F +:+ ") => " +:+ P)) = None) as ->.
    { destruct (Str.strip_prefix " (" (String c (F +:+ ") => " +:+ P)))
        as [rest|] eqn:E; [|done].
      apply strip_prefix_spec in E.
      change (" (" +:+ rest) with (String " " (String "(" rest)) in E.
      injection E as -> E. destruct F as [|d F].
      - rewrite app_empty_l in E. discriminate E.
      - rewrite app_cons in E. injection E as -> _. discriminate Hhere. }
    by destruct (Regex.dot c).
Qed.

Lemma group1_exact N F P :
  Regex.all_dot N = true -> Regex.all_dot F = true -> Regex.all_dot P = true ->
  Str.contains " (" F = false -> Str.contains ") => " P = false ->
  Regex.group1 (N +:+ " (" +:+ F +:+ ") => " +:+ P) = Some (N, F, P).
Proof.
  intros HN HF HP Hparen Harrow. induction N as [|c N IH].
  - rewrite app_empty_l.
    change (" (" +:+ F +:+ ") => " +:+ P)
      with (String " " (String "(" (F +:+ ") => " +:+ P))).
    rewrite group1_eq. cbv beta iota zeta.
    rewrite (group1_eq (String "(" _)). cbv beta iota zeta.
    rewrite group1_flags_none by done.
    change (Regex.dot " ") with true. change (Regex.dot "(") with true.
    cbv beta iota.
    change (Str.strip_prefix " (" (String "(" (F +:+ ") => " +:+ P))) with (@None string).
    change (Str.strip_prefix " (" (String " " (String "(" (F +:+ ") => " +:+ P))))
      with (Some (F +:+ ") => " +:+ P)).
    cbv beta iota. by rewrite group2_exact.
  - simpl in HN. apply andb_true_iff in HN as [Hc HN].
    rewrite app_cons, group1_eq. cbv beta iota zeta. by rewrite Hc, (IH HN).
Qed.

End regex_lemmas.

(** ** Splitting and trimming the flags *)

Section flags_lemmas.

Lemma ascii_eqb_sym a b : Str.ascii_eqb a b = Str.ascii_eqb b a.
Proof.
  destruct (Str.ascii_eqb a b) eqn:E.
  - apply ascii_eqb_true in E as ->. by rewrite ascii_eqb_refl.
  - destruct (Str.ascii_eqb b a) eqn:E'; [|done].
    apply ascii_eqb_true in E' as ->. by rewrite ascii_eqb_refl in E.
Qed.

Lemma split_nonempty sep s : Str.split sep s <> [].
Proof.
  destruct s as [|c s]; [done|]. simpl.
  destruct (Str.ascii_eqb c sep); [done|]. by destruct (Str.split sep s).
Qed.

Lemma split_no_sep sep a : Str.has_char sep a = false -> Str.split sep a = [a].
Proof.
  induction a as [|c a IH]; [done|]. simpl.
  intros [Hc Ha]%orb_false_iff. rewrite ascii_eqb_sym in Hc.
  by rewrite Hc, (IH Ha).
Qed.

Lemma split_app sep a b :
  Str.has_char sep a = false ->
  Str.split sep (a +:+ String sep b) = a :: Str.split sep b.
Proof.
  induction a as [|c a IH].
  - intros _. rewrite app_empty_l. simpl. by rewrite ascii_eqb_refl.
  - rewrite app_cons. simpl. intros [Hc Ha]%orb_false_iff.
    rewrite ascii_eqb_sym in Hc. by rewrite Hc, (IH Ha).
Qed.

Lemma strip_leading_space t : Str.strip (String " " t) = Str.strip t.
Proof. reflexivity. Qed.

Lemma two_flags f1 f2 :
  Str.has_char "," f1 = false -> Str.has_char "," f2 = false ->
  map Str.strip (Str.split "," (f1 +:+ ", " +:+ f2)) = [Str.strip f1; Str.strip f2].
Proof.
  intros H1 H2. change (", " +:+ f2) with (String "," (String " " f2)).
  rewrite (split_app _ _ _ H1), split_no_sep.
  - simpl. by rewrite strip_leading_space.
  - simpl. by rewrite H2.
Qed.

Lemma in_flags_spec tag l :
  SharedLibrary.in_flags tag l = true <-> tag ∈ flags l.
Proof.
  unfold SharedLibrary.in_flags. rewrite existsb_exists. split.
  - intros [x [Hin ->%String.eqb_eq]]. by apply list_elem_of_In.
  - intros Hin. exists tag. split; [by apply list_elem_of_In|apply String.eqb_refl].
Qed.

End flags_lemmas.

(** ** C5 and C9: the record parser *)

(** C5. A line made of a name, a space, the flags in parentheses, the arrow
    and a path is parsed into the record with that name and that path, whose
    flags are the tokens between the commas with the white space trimmed;
    the parts are what they look like when no newline occurs, the flags hold
    no space followed by an opening parenthesis and the path holds no arrow
    that follows a closing parenthesis.  In particular two flags separated
    by a comma and a space give the two trimmed tokens.  A line without the
    arrow, without an opening or without a closing parenthesis is refused
    with a [ValueError].  Whatever the line, a record that is returned is
    made of the parts of the line around one opening parenthesis and one
    arrow of it. *)
Theorem new_from_ldconfig_spec :
  (forall N F P : string,
      Regex.all_dot N = true -> Regex.all_dot F = true -> Regex.all_dot P = true ->
      Str.contains " (" F = false -> Str.contains ") => " P = false ->
      SharedLibrary.new_from_ldconfig (N +:+ " (" +:+ F +:+ ") => " +:+ P)
      = Ok {| name := N; flags := map Str.strip (Str.split "," F); path := P |})
  /\ (forall N f1 f2 P : string,
      Regex.all_dot N = true -> Regex.all_dot (f1 +:+ ", " +:+ f2) = true ->
      Regex.all_dot P = true ->
      Str.contains " (" (f1 +:+ ", " +:+ f2) = false ->
      Str.contains ") => " P = false ->
      Str.has_char "," f1 = false -> Str.has_char "," f2 = false ->
      SharedLibrary.new_from_ldconfig
        (N +:+ " (" +:+ (f1 +:+ ", " +:+ f2) +:+ ") => " +:+ P)
      = Ok {| name := N; flags := [Str.strip f1; Str.strip f2]; path := P |})
  /\ (forall line : string,
      Str.contains "=>" line = false \/ Str.has_char "(" line = false
      \/ Str.has_char ")" line = false ->
      SharedLibrary.new_from_ldconfig line
      = Err (ValueError ("Received incorrect value for ldconfig line: " +:+ line)))
  /\ (forall (line : string) (lib : SharedLibrary),
      SharedLibrary.new_from_ldconfig line = Ok lib ->
      exists F : string,
        flags lib = map Str.strip (Str.split "," F)
        /\ (line = name lib +:+ " (" +:+ F +:+ ") => " +:+ path lib
            \/ line = name lib +:+ " (" +:+ F +:+ ") => " +:+ path lib
                      +:+ String Str.nl "")).
Proof.
  split; [|split; [|split]].
  - intros N F P HN HF HP Hparen Harrow.
    unfold SharedLibrary.new_from_ldconfig, Regex.ldconfig_match.
    by rewrite group1_exact.
  - intros N f1 f2 P HN HF HP Hparen Harrow H1 H2.
    unfold SharedLibrary.new_from_ldconfig, Regex.ldconfig_match.
    rewrite group1_exact by done. unfold SharedLibrary.init.
    by rewrite two_flags.
  - intros line H.
    unfold SharedLibrary.new_from_ldconfig, Regex.ldconfig_match.
    destruct H as [H|[H|H]].
    + rewrite group1_needs_arrow; [done|].
      by apply (contains_infix ") " "=>" " ").
    + rewrite group1_needs_paren; [done|].
      rewrite has_char_contains in H. by apply (contains_infix " " "(" "").
    + rewrite group1_needs_arrow; [done|].
      rewrite has_char_contains in H. by apply (contains_infix "" ")" " => ").
  - intros line lib. unfold SharedLibrary.new_from_ldconfig, Regex.ldconfig_match.
    destruct (Regex.group1 line) as [[[g1 g2] g3]|] eqn:E; [|done].
    intros [= <-]. apply group1_sound in E as (rest & -> & H3).
    exists g2. split; [done|]. simpl.
    by destruct (group3_sound _ _ H3) as [->| ->]; [left|right].
Qed.

Lemma new_from_ldconfig_spec_witness :
  SharedLibrary.new_from_ldconfig
    ("libGL.so.1" +:+ " (" +:+ "libc6,x86-64" +:+ ") => " +:+ "/usr/lib/libGL.so.1")
  = Ok {| name := "libGL.so.1"; flags := ["libc6"; "x86-64"];
          path := "/usr/lib/libGL.so.1" |}
  /\ SharedLibrary.new_from_ldconfig
       ("libc.so.6" +:+ " (" +:+ ("libc6" +:+ ", " +:+ "OS ABI: Linux 3.2.0")
        +:+ ") => " +:+ "/lib/libc.so.6")
     = Ok {| name := "libc.so.6"; flags := ["libc6"; "OS ABI: Linux 3.2.0"];
             path := "/lib/libc.so.6" |}
  /\ SharedLibrary.new_from_ldconfig "libGL.so.1 (libc6) /usr/lib/libGL.so.1"
     = Err (ValueError
              "Received incorrect value for ldconfig line: libGL.so.1 (libc6) /usr/lib/libGL.so.1").
Proof.
  split; [|split].
  - apply (proj1 new_from_ldconfig_spec); reflexivity.
  - apply (proj1 (proj2 new_from_ldconfig_spec)); reflexivity.
  - apply (proj1 (proj2 (proj2 new_from_ldconfig_spec))). left. reflexivity.
Defined.

(** C9. The architecture of a record is a function of its flags alone: the
    tag x86-64 among the flags gives x86_64, otherwise the tag x32 gives
    x32, otherwise i386; the flags libc6 and x86-64 give x86_64. *)
Theorem arch_classification :
  (forall l : SharedLibrary,
      SharedLibrary.arch l =
      if decide ("x86-64" ∈ flags l) then "x86_64"
      else if decide ("x32" ∈ flags l) then "x32"
      else "i386")
  /\ (forall n p : string,
      SharedLibrary.arch {| name := n; flags := ["libc6"; "x86-64"]; path := p |}
      = "x86_64").
Proof.
  split; [|done]. intros l.
  unfold SharedLibrary.arch, SharedLibrary.detected_arch, SharedLibrary.arch_loop.
  destruct (SharedLibrary.in_flags "x86-64" l) eqn:E64.
  - apply in_flags_spec in E64. by rewrite decide_True.
  - rewrite decide_False; [|by rewrite <- in_flags_spec, E64].
    destruct (SharedLibrary.in_flags "x32" l) eqn:E32.
    + apply in_flags_spec in E32. by rewrite decide_True.
    + by rewrite decide_False; [|by rewrite <- in_flags_spec, E32].
Qed.

(** ** C4: the architecture of the host *)

(** C4, as stated, fails on a machine that reports aarch64: no string is
    returned for it. *)
Lemma get_arch_unknown_counterexample :
  let s := LinuxSystem.blank Scenario.aarch64 in
  machine (host s) <> "x86_64" /\ machine (host s) <> "i386"
  /\ machine (host s) <> "i686" /\ Str.contains "armv7" (machine (host s)) = false
  /\ (LinuxSystem.get_arch s).1 <> Ok (Some "unknown").
Proof. repeat split; discriminate. Qed.

(** C4, amended. For a machine string that is not x86_64, i386 or i686 and
    does not contain armv7, [get_arch] does not raise: it logs the warning
    and returns [None], the absence of an architecture, which no comparison
    with an architecture name matches. *)
Theorem get_arch_unsupported (s : LinuxSystem) :
  machine (host s) <> "x86_64" -> machine (host s) <> "i386" ->
  machine (host s) <> "i686" -> Str.contains "armv7" (machine (host s)) = false ->
  LinuxSystem.get_arch s
  = (Ok None,
     LinuxSystem.add_log
       {| lvl := WARNING;
          message := "Unsupported architecture " +:+ machine (host s) |} s)
  /\ LinuxSystem.arch_is "x86_64" (LinuxSystem.set_arch None s) = false
  /\ LinuxSystem.runtime_architectures (LinuxSystem.set_arch None s) = ["i386"].
Proof.
  intros H64 H386 H686 Harm. split; [|done].
  unfold LinuxSystem.get_arch, LinuxSystem.read, mbind, LinuxSystem.M_bind, LinuxSystem.bind.
  apply String.eqb_neq in H64, H386, H686.
  simpl. by rewrite H64, H386, H686, Harm.
Qed.

Lemma get_arch_unsupported_witness :
  let s := LinuxSystem.blank Scenario.aarch64 in
  LinuxSystem.get_arch s
  = (Ok None,
     LinuxSystem.add_log
       {| lvl := WARNING; message := "Unsupported architecture aarch64" |} s)
  /\ LinuxSystem.arch_is "x86_64" (LinuxSystem.set_arch None s) = false
  /\ LinuxSystem.runtime_architectures (LinuxSystem.set_arch None s) = ["i386"].
Proof.
  apply (get_arch_unsupported (LinuxSystem.blank Scenario.aarch64));
    [discriminate|discriminate|discriminate|reflexivity].
Defined.

(** ** C8 and C10: the special case and the names outside the table *)

Lemma ge_leb a b : Str.ge a b = String.leb b a.
Proof.
  unfold Str.ge, String.leb. rewrite (String.compare_antisym b a).
  by destruct (String.compare a b).
Qed.

(** C8. [is_feature_supported] of ACO never raises and leaves the object as
    it is; it is true exactly when the Mesa version is there and 19.3 is
    below or equal to it in the order of strings, and false when the version
    is absent. *)
Theorem is_feature_supported_ACO (s : LinuxSystem) :
  LinuxSystem.is_feature_supported "ACO" s
  = (Ok match mesa_version s with
        | Some v => bool_decide ("19.3" ≤ v)%string
        | None => false
        end, s).
Proof.
  unfold LinuxSystem.is_feature_supported, mesa_version. simpl.
  unfold LinuxSystem.try_except_AttributeError, mbind, LinuxSystem.M_bind,
    LinuxSystem.bind, LinuxSystem.read, LinuxSystem.getattr, LinuxSystem.ret,
    LinuxSystem.raise.
  destruct (glxinfo s) as [info|]; [|done]. simpl.
  destruct (GLX_MESA_query_renderer info) as [renderer|]; [|done]. simpl.
  destruct (version renderer) as [v|]; [|done]. simpl.
  rewrite ge_leb. unfold String.le.
  by destruct (String.leb "19.3" v).
Qed.

Lemma dict_get_None {V} k (d : list (string * V)) :
  k ∉ Dict.keys d -> Dict.get k d = None.
Proof.
  induction d as [|[k' v] d IH]; [done|]. simpl.
  intros [Hne Hnin]%not_elem_of_cons.
  apply String.eqb_neq in Hne. by rewrite Hne, IH.
Qed.

(** C10. A name that is not a key of the static table of libraries makes
    [get_missing_requirement_libs] raise [KeyError], and so does
    [is_feature_supported] unless the name is ACO. *)
Theorem unknown_requirement_KeyError (req : string) (s : LinuxSystem) :
  req ∉ ["OPENGL"; "VULKAN"; "WINE"; "RADEON"; "GAMEMODE"; "GNUTLS"] ->
  LinuxSystem.get_missing_requirement_libs req s = (Err (KeyError req), s)
  /\ (req <> "ACO" ->
      LinuxSystem.is_feature_supported req s = (Err (KeyError req), s)).
Proof.
  intros Hreq.
  assert (LinuxSystem.get_missing_requirement_libs req s = (Err (KeyError req), s)) as E.
  { unfold LinuxSystem.get_missing_requirement_libs, LinuxSystem.static_libraries.
    by rewrite (dict_get_None req SYSTEM_COMPONENTS.LIBRARIES Hreq). }
  split; [done|]. intros HACO%String.eqb_neq.
  unfold LinuxSystem.is_feature_supported. rewrite HACO.
  unfold_bind. by rewrite E.
Qed.

Lemma unknown_requirement_KeyError_witness :
  let s := LinuxSystem.LINUX_SYSTEM Scenario.aarch64 in
  LinuxSystem.get_missing_requirement_libs "OPENAL" s = (Err (KeyError "OPENAL"), s)
  /\ ("OPENAL" <> "ACO" ->
      LinuxSystem.is_feature_supported "OPENAL" s = (Err (KeyError "OPENAL"), s)).
Proof.
  apply (unknown_requirement_KeyError "OPENAL").
  vm_compute. intros H. by repeat (apply elem_of_cons in H as [H|H]; [discriminate H|]);
    apply elem_of_nil in H.
Defined.

(** ** C2 and C3: the library folders *)

Section folders.

Lemma export_loop_eq folders exported yielded :
  LinuxSystem.export_loop folders exported yielded
  = (exported ∪ list_to_set folders, yielded ++ folders).
Proof.
  revert exported yielded. induction folders as [|f folders IH]; intros e y; simpl.
  - by rewrite (right_id_L ∅ (∪)), app_nil_r.
  - rewrite IH, <- (assoc_L (∪)). by rewrite <- app_assoc.
Qed.

Lemma iter_lib_folders_eq s :
  LinuxSystem.iter_lib_folders s
  = LinuxSystem.get_lib_folders s
    ++ (lib_paths ← LinuxSystem.multiarch_lib_folders;
        LinuxSystem.multiarch_yields s (list_to_set (LinuxSystem.get_lib_folders s)) lib_paths).
Proof.
  unfold LinuxSystem.iter_lib_folders. rewrite export_loop_eq.
  by rewrite (left_id_L ∅ (∪)).
Qed.

(** What a pair yields on a 64-bit host when both sides exist under
    different real paths. *)
Lemma multiarch_yields_both s exported a b :
  LinuxSystem.arch_is "x86_64" s = true ->
  realpath (host s) a <> realpath (host s) b ->
  path_exists (host s) a = true -> path_exists (host s) b = true ->
  LinuxSystem.multiarch_yields s exported (a, b)
  = (if decide (a ∈ exported) then [] else [a])
    ++ (if decide (b ∈ exported) then [] else [b]).
Proof.
  intros Harch Hreal%String.eqb_neq Ha Hb. unfold LinuxSystem.multiarch_yields.
  simpl. by rewrite Harch, Hreal; simpl; rewrite Ha, Hb.
Qed.

Lemma multiarch_yields_not_both s exported a b :
  LinuxSystem.arch_is "x86_64" s = true ->
  path_exists (host s) a = false \/ path_exists (host s) b = false ->
  LinuxSystem.multiarch_yields s exported (a, b) = [].
Proof.
  intros Harch H. unfold LinuxSystem.multiarch_yields. simpl. rewrite Harch. simpl.
  destruct (String.eqb _ _); [done|]. simpl.
  destruct H as [-> | ->]; [done|]. by rewrite andb_false_r.
Qed.

Lemma not_NoDup_twice {A} (l1 l2 l3 l4 : list A) x :
  ~ NoDup (l1 ++ (l2 ++ [x]) ++ (l3 ++ [x]) ++ l4).
Proof.
  intros H. apply NoDup_app in H as (_ & _ & H).
  apply NoDup_app in H as (_ & H & _).
  apply (H x).
  - apply elem_of_app. right. apply list_elem_of_here.
  - apply elem_of_app. left. apply elem_of_app. right. apply list_elem_of_here.
Qed.

End folders.

(** C2, where the code departs from it.  On a 64-bit host where [/lib],
    [/lib32] and [/lib64] exist, [/lib64] is the real path of neither of the
    other two and no library of the inventory lies in [/lib64], the pairs of
    [/lib] and of [/lib32] both yield [/lib64]: the second loop tests
    [exported_lib_folders] and never adds to it. *)
Theorem iter_lib_folders_repeats_lib64 (s : LinuxSystem) :
  LinuxSystem.arch_is "x86_64" s = true ->
  path_exists (host s) "/lib" = true -> path_exists (host s) "/lib32" = true ->
  path_exists (host s) "/lib64" = true ->
  realpath (host s) "/lib" <> realpath (host s) "/lib64" ->
  realpath (host s) "/lib32" <> realpath (host s) "/lib64" ->
  "/lib64" ∉ LinuxSystem.get_lib_folders s ->
  ~ NoDup (LinuxSystem.iter_lib_folders s).
Proof.
  intros Harch Hlib Hlib32 Hlib64 Hreal Hreal32 Hnew.
  rewrite iter_lib_folders_eq. unfold LinuxSystem.multiarch_lib_folders.
  rewrite !bind_cons.
  rewrite (multiarch_yields_both s _ "/lib" "/lib64") by done.
  rewrite (multiarch_yields_both s _ "/lib32" "/lib64") by done.
  rewrite (decide_False (P := "/lib64" ∈ _)) by (by rewrite elem_of_list_to_set).
  apply not_NoDup_twice.
Qed.

Lemma iter_lib_folders_repeats_lib64_witness :
  let s := LinuxSystem.LINUX_SYSTEM Scenario.three_lib_dirs in
  LinuxSystem.iter_lib_folders s = ["/lib"; "/lib64"; "/lib32"; "/lib64"]
  /\ ~ NoDup (LinuxSystem.iter_lib_folders s).
Proof.
  split; [by vm_compute|].
  apply (iter_lib_folders_repeats_lib64 (LinuxSystem.LINUX_SYSTEM Scenario.three_lib_dirs));
    try reflexivity; try discriminate.
  vm_compute. apply not_elem_of_nil.
Defined.

(** C3, as stated, fails on a 64-bit host where [/usr/lib] exists and
    [/usr/lib64] does not: the two paths differ, the side that exists was
    not yielded before, and it is not yielded. *)
Lemma iter_lib_folders_one_side_counterexample :
  let s := LinuxSystem.LINUX_SYSTEM Scenario.only_usr_lib in
  LinuxSystem.arch_is "x86_64" s = true
  /\ ("/usr/lib", "/usr/lib64") ∈ LinuxSystem.multiarch_lib_folders
  /\ realpath (host s) "/usr/lib" <> realpath (host s) "/usr/lib64"
  /\ path_exists (host s) "/usr/lib" = true
  /\ "/usr/lib" ∉ LinuxSystem.iter_lib_folders s.
Proof.
  split; [reflexivity|].
  split; [do 2 apply list_elem_of_further; apply list_elem_of_here|].
  split; [discriminate|].
  split; [reflexivity|]. vm_compute. apply not_elem_of_nil.
Qed.

(** C3, amended.  On a 64-bit host, for a pair of [multiarch_lib_folders]
    whose two paths have different real paths: when both sides exist, both
    sides occur in what [iter_lib_folders] yields, and the pair yields each
    side that is not a folder of the inventory; when a side does not exist,
    the pair yields nothing. *)
Theorem iter_lib_folders_pair (s : LinuxSystem) (a b : string) :
  LinuxSystem.arch_is "x86_64" s = true ->
  (a, b) ∈ LinuxSystem.multiarch_lib_folders ->
  realpath (host s) a <> realpath (host s) b ->
  (path_exists (host s) a = true -> path_exists (host s) b = true ->
   a ∈ LinuxSystem.iter_lib_folders s /\ b ∈ LinuxSystem.iter_lib_folders s
   /\ (a ∉ LinuxSystem.get_lib_folders s ->
       a ∈ LinuxSystem.multiarch_yields s (list_to_set (LinuxSystem.get_lib_folders s)) (a, b))
   /\ (b ∉ LinuxSystem.get_lib_folders s ->
       b ∈ LinuxSystem.multiarch_yields s (list_to_set (LinuxSystem.get_lib_folders s)) (a, b)))
  /\ (path_exists (host s) a = false \/ path_exists (host s) b = false ->
      forall exported, LinuxSystem.multiarch_yields s exported (a, b) = []).
Proof.
  intros Harch Hpair Hreal. split.
  - intros Ha Hb.
    pose proof (multiarch_yields_both s (list_to_set (LinuxSystem.get_lib_folders s))
                  a b Harch Hreal Ha Hb) as E.
    assert (forall x, x ∈ LinuxSystem.multiarch_yields s
                       (list_to_set (LinuxSystem.get_lib_folders s)) (a, b) ->
                      x ∈ LinuxSystem.iter_lib_folders s) as Hyield.
    { intros x Hx. rewrite iter_lib_folders_eq. apply elem_of_app. right.
      apply list_elem_of_bind. eauto. }
    assert (forall x, x ∈ LinuxSystem.get_lib_folders s ->
                      x ∈ LinuxSystem.iter_lib_folders s) as Hfolder.
    { intros x Hx. rewrite iter_lib_folders_eq. apply elem_of_app. by left. }
    rewrite E in Hyield |- *. split_and!.
    + destruct (decide (a ∈ LinuxSystem.get_lib_folders s)) as [H|H]; [by apply Hfolder|].
      apply Hyield. rewrite decide_False by (by rewrite elem_of_list_to_set).
      apply elem_of_app. left. apply list_elem_of_here.
    + destruct (decide (b ∈ LinuxSystem.get_lib_folders s)) as [H|H]; [by apply Hfolder|].
      apply Hyield. rewrite (decide_False (P := b ∈ _)) by (by rewrite elem_of_list_to_set).
      apply elem_of_app. right. apply list_elem_of_here.
    + intros H. rewrite decide_False by (by rewrite elem_of_list_to_set).
      apply elem_of_app. left. apply list_elem_of_here.
    + intros H. rewrite (decide_False (P := b ∈ _)) by (by rewrite elem_of_list_to_set).
      apply elem_of_app. right. apply list_elem_of_here.
  - intros H exported. by apply multiarch_yields_not_both.
Qed.

Lemma iter_lib_folders_pair_witness :
  let s := LinuxSystem.LINUX_SYSTEM Scenario.three_lib_dirs in
  (path_exists (host s) "/lib32" = true -> path_exists (host s) "/lib64" = true ->
   "/lib32" ∈ LinuxSystem.iter_lib_folders s /\ "/lib64" ∈ LinuxSystem.iter_lib_folders s
   /\ ("/lib32" ∉ LinuxSystem.get_lib_folders s ->
       "/lib32" ∈ LinuxSystem.multiarch_yields s
                    (list_to_set (LinuxSystem.get_lib_folders s)) ("/lib32", "/lib64"))
   /\ ("/lib64" ∉ LinuxSystem.get_lib_folders s ->
       "/lib64" ∈ LinuxSystem.multiarch_yields s
                    (list_to_set (LinuxSystem.get_lib_folders s)) ("/lib32", "/lib64")))
  /\ (path_exists (host s) "/lib32" = false \/ path_exists (host s) "/lib64" = false ->
      forall exported, LinuxSystem.multiarch_yields s exported ("/lib32", "/lib64") = []).
Proof.
  apply (iter_lib_folders_pair (LinuxSystem.LINUX_SYSTEM Scenario.three_lib_dirs)
           "/lib32" "/lib64"); [reflexivity| |discriminate].
  unfold LinuxSystem.multiarch_lib_folders. apply list_elem_of_further, list_elem_of_here.
Defined.

(** ** Dictionaries *)

Section dict_lemmas.
Context {V : Type}.
Implicit Types d : list (string * V).

Lemma get_set_eq k v d : Dict.get k (Dict.set k v d) = Some v.
Proof.
  induction d as [|[k' v'] d IH]; simpl.
  - by rewrite String.eqb_refl.
  - destruct (String.eqb k k') eqn:E; simpl; by rewrite E.
Qed.

Lemma get_set_ne k k' v d : k <> k' -> Dict.get k' (Dict.set k v d) = Dict.get k' d.
Proof.
  intros Hne. induction d as [|[k0 v0] d IH]; simpl.
  - apply not_eq_sym, String.eqb_neq in Hne. by rewrite Hne.
  - destruct (String.eqb k k0) eqn:E; simpl.
    + apply String.eqb_eq in E as <-.
      apply not_eq_sym, String.eqb_neq in Hne. by rewrite Hne.
    + by rewrite IH.
Qed.

Lemma get_Some_elem k v d : Dict.get k d = Some v -> (k, v) ∈ d.
Proof.
  induction d as [|[k' v'] d IH]; [done|]. simpl.
  destruct (String.eqb k k') eqn:E.
  - apply String.eqb_eq in E as ->. intros [= ->]. left.
  - intros H. right. auto.
Qed.

Lemma get_None_keys k d : Dict.get k d = None <-> k ∉ Dict.keys d.
Proof.
  induction d as [|[k' v'] d IH]; simpl.
  - split; [intros _; apply not_elem_of_nil|done].
  - rewrite not_elem_of_cons, <- IH. destruct (String.eqb k k') eqn:E.
    + apply String.eqb_eq in E. split; [done|]. by intros [? _].
    + apply String.eqb_neq in E. tauto.
Qed.

Lemma elem_get k v d : NoDup (Dict.keys d) -> (k, v) ∈ d -> Dict.get k d = Some v.
Proof.
  induction d as [|[k' v'] d IH]; simpl.
  - intros _ H. by apply elem_of_nil in H.
  - intros [Hk' Hd]%NoDup_cons [[= -> ->]|H]%elem_of_cons.
    + by rewrite String.eqb_refl.
    + destruct (String.eqb k k') eqn:E; [|auto].
      apply String.eqb_eq in E as ->. exfalso. apply Hk'.
      apply list_elem_of_fmap. by exists (k', v).
Qed.

Lemma keys_set k v d :
  Dict.keys (Dict.set k v d)
  = match Dict.get k d with
    | Some _ => Dict.keys d
    | None => Dict.keys d ++ [k]
    end.
Proof.
  induction d as [|[k' v'] d IH]; simpl; [done|].
  destruct (String.eqb k k') eqn:E; simpl; [done|].
  rewrite IH. by destruct (Dict.get k d).
Qed.

Lemma NoDup_keys_set k v d : NoDup (Dict.keys d) -> NoDup (Dict.keys (Dict.set k v d)).
Proof.
  intros H. rewrite keys_set. destruct (Dict.get k d) eqn:E; [done|].
  apply NoDup_app. split_and!; [done| |apply NoDup_singleton].
  intros x Hx ->%list_elem_of_singleton. by apply get_None_keys in E.
Qed.

End dict_lemmas.

Section stored_lemmas.
Context {X : Type}.
Implicit Types d : list (string * list X).

Lemma stored_append_eq k x d :
  stored k (Dict.append_default k x d) = stored k d ++ [x].
Proof.
  unfold stored, Dict.append_default, Dict.getitem_default.
  destruct (Dict.get k d) eqn:E; by rewrite get_set_eq.
Qed.

Lemma stored_append_ne k k' x d :
  k <> k' -> stored k' (Dict.append_default k x d) = stored k' d.
Proof.
  intros Hne. unfold stored, Dict.append_default, Dict.getitem_default.
  destruct (Dict.get k d) eqn:E; by rewrite !get_set_ne.
Qed.

Lemma NoDup_keys_append k x d :
  NoDup (Dict.keys d) -> NoDup (Dict.keys (Dict.append_default k x d)).
Proof.
  intros H. unfold Dict.append_default, Dict.getitem_default.
  destruct (Dict.get k d); eauto using NoDup_keys_set.
Qed.

(** Reading a key of a [defaultdict] can add the key but no element. *)
Lemma stored_getitem k k' d :
  stored k' (Dict.getitem_default k d).2 = stored k' d.
Proof.
  unfold stored, Dict.getitem_default.
  destruct (Dict.get k d) eqn:E; [done|]. simpl.
  destruct (decide (k = k')) as [<-|Hne].
  - by rewrite get_set_eq, E.
  - by rewrite get_set_ne.
Qed.

Lemma getitem_stored k d : (Dict.getitem_default k d).1 = stored k d.
Proof. unfold stored, Dict.getitem_default. by destruct (Dict.get k d). Qed.

Lemma NoDup_keys_getitem k d :
  NoDup (Dict.keys d) -> NoDup (Dict.keys (Dict.getitem_default k d).2).
Proof.
  intros H. unfold Dict.getitem_default.
  destruct (Dict.get k d); eauto using NoDup_keys_set.
Qed.

(** With distinct keys, the elements of the values are the elements
    stored under the keys. *)
Lemma elem_of_values_stored (x : X) d :
  NoDup (Dict.keys d) ->
  x ∈ (l ← Dict.values d; l) <-> exists k, x ∈ stored k d.
Proof.
  intros Hnodup. rewrite list_elem_of_bind. split.
  - intros [l [Hx Hl]]. apply list_elem_of_fmap in Hl as [[k l'] [-> Hkl]].
    exists k. unfold stored. by rewrite (elem_get _ _ _ Hnodup Hkl).
  - intros [k Hx]. unfold stored in Hx.
    destruct (Dict.get k d) as [l|] eqn:E; [|by apply elem_of_nil in Hx].
    exists l. split; [done|]. apply list_elem_of_fmap. exists (k, l).
    split; [done|]. by apply get_Some_elem.
Qed.

End stored_lemmas.

(** ** Building the inventory *)

Section inventory_lemmas.

Lemma add_logs_nil s : add_logs [] s = s.
Proof. destruct s. unfold add_logs. simpl. by rewrite app_nil_r. Qed.

Lemma add_logs_add_logs rs1 rs2 s :
  add_logs rs2 (add_logs rs1 s) = add_logs (rs1 ++ rs2) s.
Proof. unfold add_logs. simpl. by rewrite app_assoc. Qed.

Lemma new_from_ldconfig_Err line e :
  SharedLibrary.new_from_ldconfig line = Err e ->
  e = ValueError ("Received incorrect value for ldconfig line: " +:+ line).
Proof.
  unfold SharedLibrary.new_from_ldconfig.
  destruct (Regex.ldconfig_match line) as [[[g1 g2] g3]|]; congruence.
Qed.

(** The loop returns on every listing: it keeps the records of the lines
    that parse and logs the others. *)
Lemma get_shared_libraries_loop_eq lines acc s :
  LinuxSystem.get_shared_libraries_loop lines acc s
  = (Ok (inventory_of (LinuxSystem.runtime_architectures s) lines acc),
     add_logs (invalid_lines lines) s).
Proof.
  revert acc s. induction lines as [|line lines IH]; intros acc s; simpl.
  - by rewrite add_logs_nil.
  - destruct (SharedLibrary.new_from_ldconfig line) as [lib|e] eqn:E.
    + unfold mbind, LinuxSystem.M_bind, LinuxSystem.bind, LinuxSystem.read.
      destruct (existsb _ _); simpl; by rewrite IH.
    + rewrite (new_from_ldconfig_Err _ _ E).
      unfold mbind, LinuxSystem.M_bind, LinuxSystem.bind, LinuxSystem.error,
        LinuxSystem.modify.
      rewrite IH. f_equal.
      change (LinuxSystem.add_log ?r s) with (add_logs [r] s).
      by rewrite add_logs_add_logs.
Qed.

Lemma inventory_of_app archs l1 l2 acc :
  inventory_of archs (l1 ++ l2) acc = inventory_of archs l2 (inventory_of archs l1 acc).
Proof.
  revert acc. induction l1 as [|line l1 IH]; intros acc; simpl; [done|].
  destruct (SharedLibrary.new_from_ldconfig line); [|done].
  by destruct (existsb _ _).
Qed.

Lemma invalid_lines_app l1 l2 :
  invalid_lines (l1 ++ l2) = invalid_lines l1 ++ invalid_lines l2.
Proof.
  induction l1 as [|line l1 IH]; simpl; [done|].
  destruct (SharedLibrary.new_from_ldconfig line); [done|]. by rewrite IH.
Qed.

(** A line that does not parse changes nothing but the log. *)
Lemma loop_skips_malformed l1 bad l2 e s :
  SharedLibrary.new_from_ldconfig bad = Err e ->
  exists s',
    LinuxSystem.get_shared_libraries_loop (l1 ++ bad :: l2) [] s
    = (Ok (inventory_of (LinuxSystem.runtime_architectures s) (l1 ++ l2) []), s')
    /\ {| lvl := ERROR; message := "Invalid ldconfig line: " +:+ bad |} ∈ logger s'
    /\ (LinuxSystem.get_shared_libraries_loop (l1 ++ l2) [] s).1
       = Ok (inventory_of (LinuxSystem.runtime_architectures s) (l1 ++ l2) []).
Proof.
  intros Hbad. rewrite !get_shared_libraries_loop_eq. eexists. split_and!.
  - f_equal. f_equal. rewrite !inventory_of_app. simpl. by rewrite Hbad.
  - simpl. rewrite invalid_lines_app. simpl. rewrite Hbad.
    apply elem_of_app. right. apply elem_of_app. right. apply list_elem_of_here.
  - done.
Qed.

End inventory_lemmas.

(** ** Rules for the methods that return *)

Section hoare_rules.
Context {A B : Type}.

Lemma hoare_conseq (P P' : LinuxSystem -> Prop) (Q Q' : A -> LinuxSystem -> Prop) m :
  (forall s, P' s -> P s) -> (forall a s, Q a s -> Q' a s) ->
  hoare P m Q -> hoare P' m Q'.
Proof.
  intros HP HQ H s Hs. destruct (H s (HP s Hs)) as (a & s' & E & Ha). eauto.
Qed.

Lemma hoare_ret (a : A) (Q : A -> LinuxSystem -> Prop) :
  hoare (Q a) (LinuxSystem.ret a) Q.
Proof. intros s Hs. by exists a, s. Qed.

Lemma hoare_bind (P : LinuxSystem -> Prop) (R : A -> LinuxSystem -> Prop)
  (Q : B -> LinuxSystem -> Prop) (m : LinuxSystem.M A) (k : A -> LinuxSystem.M B) :
  hoare P m R -> (forall a, hoare (R a) (k a) Q) -> hoare P (m ≫= k) Q.
Proof.
  intros Hm Hk s Hs. destruct (Hm s Hs) as (a & s' & E & Ha).
  destruct (Hk a s' Ha) as (b & s'' & E' & Hb). exists b, s''. split; [|done].
  unfold_bind. by rewrite E.
Qed.

Lemma hoare_read (f : LinuxSystem -> A) (Q : A -> LinuxSystem -> Prop) :
  hoare (fun s => Q (f s) s) (LinuxSystem.read f) Q.
Proof. intros s Hs. by exists (f s), s. Qed.

Lemma hoare_modify (f : LinuxSystem -> LinuxSystem) (Q : unit -> LinuxSystem -> Prop) :
  hoare (fun s => Q tt (f s)) (LinuxSystem.modify f) Q.
Proof. intros s Hs. by exists tt, (f s). Qed.

Lemma hoare_modify' (f : LinuxSystem -> LinuxSystem) (P : LinuxSystem -> Prop)
  (Q : unit -> LinuxSystem -> Prop) :
  (forall s, P s -> Q tt (f s)) -> hoare P (LinuxSystem.modify f) Q.
Proof. intros H s Hs. exists tt, (f s). split; [done|]. by apply H. Qed.

(** A loop keeps an invariant that follows the elements done so far. *)
Lemma hoare_for_each_from (I : list A -> LinuxSystem -> Prop) body done rest :
  (forall done' x rest', done ++ rest = done' ++ x :: rest' ->
     hoare (I done') (body x) (fun _ => I (done' ++ [x]))) ->
  hoare (I done) (LinuxSystem.for_each rest body) (fun _ => I (done ++ rest)).
Proof.
  revert done. induction rest as [|x rest IH]; intros done Hbody; simpl.
  - rewrite app_nil_r. intros s Hs. by exists tt, s.
  - intros s Hs. destruct (Hbody done x rest eq_refl s Hs) as ([] & s' & E & Hs').
    destruct (IH (done ++ [x])) with (s := s') as ([] & s'' & E' & Hs'').
    + intros done' y rest' Heq. apply (Hbody done' y rest').
      by rewrite <- Heq, <- app_assoc.
    + done.
    + exists tt, s''. split.
      * unfold_bind. by rewrite E.
      * by rewrite <- app_assoc in Hs''.
Qed.

Lemma hoare_for_each (I : list A -> LinuxSystem -> Prop) body l :
  (forall done x rest, l = done ++ x :: rest ->
     hoare (I done) (body x) (fun _ => I (done ++ [x]))) ->
  hoare (I []) (LinuxSystem.for_each l body) (fun _ => I l).
Proof. intros H. by apply (hoare_for_each_from I body [] l). Qed.

(** A comprehension whose elements do not depend on the state that the
    invariant leaves open. *)
Lemma hoare_comprehension (I : LinuxSystem -> Prop) (f : A -> LinuxSystem.M B)
  (g : A -> B) l :
  (forall x, x ∈ l -> hoare I (f x) (fun y s => y = g x /\ I s)) ->
  hoare I (LinuxSystem.comprehension l f) (fun ys s => ys = map g l /\ I s).
Proof.
  induction l as [|x l IH]; intros Hf; simpl.
  - intros s Hs. by exists [], s.
  - intros s Hs.
    destruct (Hf x (list_elem_of_here _ _) s Hs) as (y & s' & E & -> & Hs').
    destruct IH with (s := s') as (ys & s'' & E' & -> & Hs'').
    + intros z Hz. apply Hf. by apply list_elem_of_further.
    + done.
    + exists (g x :: map g l), s''. split; [|done].
      unfold_bind.
      by rewrite E, E'.
Qed.

End hoare_rules.

(** ** The [LIBRARIES] cache *)

Section cache_lemmas.
Implicit Types c : gmap string (gmap string (list string)).

Lemma view_update c a d req l a' r' :
  c !! a = Some d ->
  view (<[a := <[req := l]> d]> c) a' r'
  = if decide (a = a' /\ req = r') then l else view c a' r'.
Proof.
  intros Hd. unfold view. destruct (decide (a = a')) as [<-|Ha].
  - rewrite lookup_insert_eq, Hd. simpl.
    destruct (decide (req = r')) as [<-|Hr].
    + rewrite lookup_insert_eq. by rewrite decide_True.
    + rewrite lookup_insert_ne by done. rewrite decide_False; [done|tauto].
  - rewrite lookup_insert_ne by done. rewrite decide_False; [done|tauto].
Qed.

Lemma is_Some_update c a d a' :
  is_Some (c !! a') -> is_Some (<[a := d]> c !! a').
Proof.
  intros H. destruct (decide (a = a')) as [<-|Ha].
  - rewrite lookup_insert_eq. eauto.
  - by rewrite lookup_insert_ne.
Qed.

Lemma set_cache_same s : LinuxSystem.set_cache_LIBRARIES (cache_LIBRARIES s) s = s.
Proof. by destruct s. Qed.

(** Reading the cache returns what it holds and can only add an empty
    list. *)
Lemma cache_libraries_getitem_run a req s :
  is_Some (cache_LIBRARIES s !! a) ->
  exists c',
    LinuxSystem.cache_libraries_getitem a req s
    = (Ok (view (cache_LIBRARIES s) a req), LinuxSystem.set_cache_LIBRARIES c' s)
    /\ (forall a' r', view c' a' r' = view (cache_LIBRARIES s) a' r')
    /\ (forall a', is_Some (cache_LIBRARIES s !! a') -> is_Some (c' !! a')).
Proof.
  intros [d Hd]. unfold LinuxSystem.cache_libraries_getitem. rewrite Hd.
  destruct (d !! req) as [l|] eqn:E.
  - exists (cache_LIBRARIES s). rewrite set_cache_same. split_and!; [|done..].
    unfold view. by rewrite Hd; simpl; rewrite E.
  - eexists. split_and!.
    + f_equal. unfold view. by rewrite Hd; simpl; rewrite E.
    + intros a' r'. rewrite (view_update _ _ _ _ _ _ _ Hd).
      destruct (decide (a = a' /\ req = r')) as [[<- <-]|]; [|done].
      unfold view. by rewrite Hd; simpl; rewrite E.
    + intros a'. apply is_Some_update.
Qed.

(** Appending to the cache adds the library at the end of one list. *)
Lemma cache_libraries_append_run a req lib s :
  is_Some (cache_LIBRARIES s !! a) ->
  exists c',
    LinuxSystem.cache_libraries_append a req lib s
    = (Ok tt, LinuxSystem.set_cache_LIBRARIES c' s)
    /\ (forall a' r', view c' a' r'
                     = view (cache_LIBRARIES s) a' r'
                       ++ if decide (a = a' /\ req = r') then [lib] else [])
    /\ (forall a', is_Some (cache_LIBRARIES s !! a') -> is_Some (c' !! a')).
Proof.
  intros Hd. destruct (cache_libraries_getitem_run a req s Hd) as (c1 & E & Hview & Hdom).
  unfold LinuxSystem.cache_libraries_append, mbind, LinuxSystem.M_bind,
    LinuxSystem.bind, LinuxSystem.modify.
  rewrite E. simpl. destruct (Hdom a Hd) as [d1 Hd1]. rewrite Hd1. simpl.
  eexists. split_and!; [done| |].
  - intros a' r'. rewrite (view_update _ _ _ _ _ _ _ Hd1), Hview.
    destruct (decide (a = a' /\ req = r')) as [[<- <-]|]; [done|].
    by rewrite app_nil_r.
  - intros a' H. by apply is_Some_update, Hdom.
Qed.

End cache_lemmas.

(** ** The inventory of a built object *)

Section inventory_ok_lemmas.

Lemma inventory_ok_append archs lib inventory :
  SharedLibrary.arch lib ∈ archs -> inventory_ok archs inventory ->
  inventory_ok archs (Dict.append_default (name lib) lib inventory).
Proof.
  intros Harch [Hkeys Hrec]. split; [by apply NoDup_keys_append|].
  intros k lib'. destruct (decide (name lib = k)) as [<-|Hne].
  - rewrite stored_append_eq. intros [H| ->%list_elem_of_singleton]%elem_of_app; auto.
  - rewrite stored_append_ne by done. auto.
Qed.

Lemma inventory_of_ok archs lines acc :
  inventory_ok archs acc -> inventory_ok archs (inventory_of archs lines acc).
Proof.
  revert acc. induction lines as [|line lines IH]; intros acc Hacc; simpl; [done|].
  destruct (SharedLibrary.new_from_ldconfig line) as [lib|]; [|auto].
  destruct (existsb _ _) eqn:E; [|auto].
  apply IH, inventory_ok_append; [|done].
  apply existsb_exists in E as [a [Hin ->%String.eqb_eq]].
  by apply list_elem_of_In.
Qed.

Lemma inventory_ok_nil archs : inventory_ok archs [].
Proof.
  split; [apply NoDup_nil_2|]. intros k lib H. by apply elem_of_nil in H.
Qed.

(** In such an inventory the records with a name are the records stored
    under it. *)
Lemma present_libs_stored s a lib :
  inventory_ok (LinuxSystem.runtime_architectures s) (shared_libraries s) ->
  lib ∈ present_libs s a
  <-> exists shared_lib, shared_lib ∈ stored lib (shared_libraries s)
                         /\ SharedLibrary.arch shared_lib = a.
Proof.
  intros [Hkeys Hrec]. unfold present_libs, records.
  rewrite elem_of_list_to_set, list_elem_of_fmap. split.
  - intros (sl & -> & [Harch Hin]%list_elem_of_filter).
    apply (elem_of_values_stored _ _ Hkeys) in Hin as [k Hk].
    destruct (Hrec _ _ Hk) as [<- _]. eauto.
  - intros (sl & Hin & Harch). exists sl.
    destruct (Hrec _ _ Hin) as [Hname _]. split; [done|].
    apply list_elem_of_filter. split; [done|].
    apply (elem_of_values_stored _ _ Hkeys). eauto.
Qed.

End inventory_ok_lemmas.

(** ** [populate_libraries] *)

Section populate.
Variable s0 : LinuxSystem.
Hypothesis inventory_s0 :
  inventory_ok (LinuxSystem.runtime_architectures s0) (shared_libraries s0).

Lemma frame_set_cache c s :
  frame s0 s ->
  (forall a, is_Some (cache_LIBRARIES s !! a) -> is_Some (c !! a)) ->
  frame s0 (LinuxSystem.set_cache_LIBRARIES c s).
Proof. intros (? & ? & ? & ? & Hdom) Hc. split_and!; auto. Qed.

(** A loop whose body appends [g x] appends them in the order of the
    list. *)
Lemma loop_accumulates {X} f (g : X -> string -> string -> list string)
  (body : X -> LinuxSystem.M unit) (l : list X) :
  (forall x f', x ∈ l ->
     hoare (fun s => frame s0 s /\ cache_is f' s) (body x)
       (fun _ s => frame s0 s /\ cache_is (fun a r => f' a r ++ g x a r) s)) ->
  hoare (fun s => frame s0 s /\ cache_is f s) (LinuxSystem.for_each l body)
    (fun _ s => frame s0 s /\ cache_is (fun a r => f a r ++ (x ← l; g x a r)) s).
Proof.
  intros Hbody.
  eapply hoare_conseq;
    [| |apply (hoare_for_each
                (fun done s => frame s0 s
                   /\ cache_is (fun a r => f a r ++ (x ← done; g x a r)) s))].
  - intros s [Hframe Hcache]. split; [done|]. intros a r.
    rewrite Hcache. simpl. by rewrite app_nil_r.
  - intros [] s H. exact H.
  - intros done x rest Hl. eapply hoare_conseq; [| |apply (Hbody x)].
    + intros s H. exact H.
    + intros [] s [Hframe Hcache]. split; [done|]. intros a r.
      rewrite Hcache, bind_app, <- app_assoc. simpl. by rewrite app_nil_r.
    + rewrite Hl. apply elem_of_app. right. apply list_elem_of_here.
Qed.

Lemma append_triple f shared_lib req lib :
  SharedLibrary.arch shared_lib ∈ LinuxSystem.runtime_architectures s0 ->
  hoare (fun s => frame s0 s /\ cache_is f s)
    (LinuxSystem.cache_libraries_append (SharedLibrary.arch shared_lib) req lib)
    (fun _ s => frame s0 s
                /\ cache_is (fun a r => f a r ++ of_record req lib shared_lib a r) s).
Proof.
  intros Harch s [Hframe Hcache].
  destruct (cache_libraries_append_run (SharedLibrary.arch shared_lib) req lib s)
    as (c' & E & Hview & Hdom).
  { by apply Hframe. }
  exists tt, (LinuxSystem.set_cache_LIBRARIES c' s). split; [done|]. split.
  - by apply frame_set_cache.
  - intros a r. simpl. by rewrite Hview, Hcache.
Qed.

Lemma shared_libraries_getitem_triple lib (P : LinuxSystem -> Prop) :
  (forall s d, P s -> P (LinuxSystem.set_shared_libraries d s)) ->
  hoare (fun s => frame s0 s /\ P s) (LinuxSystem.shared_libraries_getitem lib)
    (fun v s => v = stored lib (shared_libraries s0) /\ frame s0 s /\ P s).
Proof.
  intros HP s [(Hhost & Harch & Hkeys & Hstored & Hdom) Hs].
  unfold LinuxSystem.shared_libraries_getitem.
  pose proof (getitem_stored lib (shared_libraries s)) as E1.
  pose proof (fun k => stored_getitem lib k (shared_libraries s)) as E2.
  pose proof (NoDup_keys_getitem lib (shared_libraries s) Hkeys) as E3.
  destruct (Dict.getitem_default lib (shared_libraries s)) as [v d]. simpl in *.
  exists v, (LinuxSystem.set_shared_libraries d s). split; [done|].
  split; [by rewrite E1, Hstored|]. split; [|by apply HP].
  split_and!; [done..| |done].
  intros k. simpl. by rewrite <- Hstored, <- (E2 k).
Qed.

Lemma library_triple f req lib :
  hoare (fun s => frame s0 s /\ cache_is f s)
    (shared_libs ← LinuxSystem.shared_libraries_getitem lib;
     LinuxSystem.for_each shared_libs (fun shared_lib =>
       LinuxSystem.cache_libraries_append (SharedLibrary.arch shared_lib) req lib))
    (fun _ s => frame s0 s
                /\ cache_is (fun a r => f a r ++ of_library (shared_libraries s0) req lib a r) s).
Proof.
  eapply hoare_bind.
  - apply (shared_libraries_getitem_triple lib (cache_is f)). by intros s d H.
  - intros v s [-> H]. revert s H. apply loop_accumulates.
    intros shared_lib f' Hin. apply append_triple.
    by apply (proj2 inventory_s0 lib).
Qed.

Lemma requirement_triple f req :
  req ∈ Dict.keys SYSTEM_COMPONENTS.LIBRARIES ->
  hoare (fun s => frame s0 s /\ cache_is f s)
    (libs ← LinuxSystem.static_libraries req;
     LinuxSystem.for_each libs (fun lib =>
       shared_libs ← LinuxSystem.shared_libraries_getitem lib;
       LinuxSystem.for_each shared_libs (fun shared_lib =>
         LinuxSystem.cache_libraries_append (SharedLibrary.arch shared_lib) req lib)))
    (fun _ s => frame s0 s
                /\ cache_is (fun a r => f a r ++ of_requirement (shared_libraries s0) req a r) s).
Proof.
  intros Hreq. unfold of_requirement, LinuxSystem.static_libraries.
  destruct (Dict.get req SYSTEM_COMPONENTS.LIBRARIES) as [libs|] eqn:E.
  - intros s H.
    destruct (loop_accumulates f (of_library (shared_libraries s0) req)
                (fun lib =>
                   shared_libs ← LinuxSystem.shared_libraries_getitem lib;
                   LinuxSystem.for_each shared_libs (fun shared_lib =>
                     LinuxSystem.cache_libraries_append
                       (SharedLibrary.arch shared_lib) req lib))
                libs (fun lib f' _ => library_triple f' req lib) s H)
      as (u & s' & E' & H').
    exists u, s'. split; [exact E'|exact H'].
  - by apply get_None_keys in E.
Qed.

Lemma view_empty a r : view ∅ a r = [].
Proof. unfold view. by rewrite lookup_empty. Qed.

Lemma view_reset c a a' r :
  view c a' r = [] -> view (<[a := ∅]> c) a' r = [].
Proof.
  intros H. unfold view. destruct (decide (a = a')) as [<-|Hne].
  - rewrite lookup_insert_eq. simpl. by rewrite lookup_empty.
  - by rewrite lookup_insert_ne.
Qed.

(** The loop that gives each architecture an empty [defaultdict]. *)
Lemma reset_loop archs s :
  (forall a r, view (cache_LIBRARIES s) a r = []) ->
  exists c,
    LinuxSystem.for_each archs (fun arch =>
      LinuxSystem.modify (fun s =>
        LinuxSystem.set_cache_LIBRARIES (<[arch := ∅]> (cache_LIBRARIES s)) s)) s
    = (Ok tt, LinuxSystem.set_cache_LIBRARIES c s)
    /\ (forall a r, view c a r = [])
    /\ (forall a, a ∈ archs \/ is_Some (cache_LIBRARIES s !! a) -> is_Some (c !! a)).
Proof.
  revert s. induction archs as [|arch archs IH]; intros s Hs.
  - exists (cache_LIBRARIES s). rewrite set_cache_same. split_and!; [done..|].
    intros a [H|H]; [by apply elem_of_nil in H|done].
  - destruct (IH (LinuxSystem.set_cache_LIBRARIES (<[arch := ∅]> (cache_LIBRARIES s)) s))
      as (c & E & Hview & Hdom).
    { intros a r. simpl. by apply view_reset. }
    exists c. split_and!; [exact E|done|].
    intros a [[->|H]%elem_of_cons|H]; apply Hdom; simpl.
    + right. rewrite lookup_insert_eq. eauto.
    + by left.
    + right. by apply is_Some_update.
Qed.

(** [populate_libraries] returns, keeps the inventory and leaves in the
    cache what its loops append. *)
Lemma populate_libraries_run :
  exists s',
    LinuxSystem.populate_libraries s0 = (Ok tt, s')
    /\ frame s0 s'
    /\ cache_is (fun a r => req ← LinuxSystem.requirements s0;
                             of_requirement (shared_libraries s0) req a r) s'.
Proof.
  destruct (reset_loop (LinuxSystem.runtime_architectures s0)
              (LinuxSystem.set_cache_LIBRARIES ∅ s0)) as (c & E & Hview & Hdom).
  { intros a r. apply view_empty. }
  destruct (loop_accumulates (fun _ _ => []) (of_requirement (shared_libraries s0))
              (fun req =>
                 libs ← LinuxSystem.static_libraries req;
                 LinuxSystem.for_each libs (fun lib =>
                   shared_libs ← LinuxSystem.shared_libraries_getitem lib;
                   LinuxSystem.for_each shared_libs (fun shared_lib =>
                     LinuxSystem.cache_libraries_append
                       (SharedLibrary.arch shared_lib) req lib)))
              (LinuxSystem.requirements s0)) with (s := LinuxSystem.set_cache_LIBRARIES c s0)
    as ([] & s' & E' & Hframe & Hcache).
  - intros req f' Hreq. apply requirement_triple.
    unfold LinuxSystem.requirements, LinuxSystem.get_requirements in Hreq.
    destruct (is_amd (host s0));
      repeat (apply elem_of_cons in Hreq as [->|Hreq];
              [apply list_elem_of_In; simpl; tauto|]);
      by apply elem_of_nil in Hreq.
  - split; [|done]. destruct inventory_s0 as [Hkeys _].
    split_and!; [done..|]. intros a Ha. apply Hdom. by left.
  - exists s'. split_and!; [|done|done].
    unfold LinuxSystem.populate_libraries, mbind, LinuxSystem.M_bind,
      LinuxSystem.bind, LinuxSystem.modify, LinuxSystem.read.
    change (LinuxSystem.runtime_architectures (LinuxSystem.set_cache_LIBRARIES ∅ s0))
      with (LinuxSystem.runtime_architectures s0).
    unfold mbind, LinuxSystem.M_bind, LinuxSystem.bind, LinuxSystem.modify in E.
    rewrite E. exact E'.
Qed.

End populate.

(** ** The methods that only look up commands and write to the log *)

Section preserves_core_lemmas.

Lemma preserves_ret {A} (a : A) : preserves_core (LinuxSystem.ret a).
Proof. intros s. by exists a, s. Qed.

Lemma preserves_read {A} (f : LinuxSystem -> A) : preserves_core (LinuxSystem.read f).
Proof. intros s. by exists (f s), s. Qed.

Lemma preserves_modify f :
  (forall s, core (f s) = core s) -> preserves_core (LinuxSystem.modify f).
Proof. intros H s. exists tt, (f s). by split. Qed.

Lemma preserves_warning msg : preserves_core (LinuxSystem.warning msg).
Proof. by apply preserves_modify. Qed.

Lemma preserves_error msg : preserves_core (LinuxSystem.error msg).
Proof. by apply preserves_modify. Qed.

Lemma preserves_bind {A B} (m : LinuxSystem.M A) (k : A -> LinuxSystem.M B) :
  preserves_core m -> (forall a, preserves_core (k a)) -> preserves_core (m ≫= k).
Proof.
  intros Hm Hk s. destruct (Hm s) as (a & s1 & E1 & H1).
  destruct (Hk a s1) as (b & s2 & E2 & H2). exists b, s2. split.
  - unfold_bind. by rewrite E1.
  - by rewrite H2.
Qed.

Lemma preserves_for_each {A} (l : list A) body :
  (forall x, preserves_core (body x)) -> preserves_core (LinuxSystem.for_each l body).
Proof.
  intros Hbody. induction l as [|x l IH]; simpl.
  - apply preserves_ret.
  - apply preserves_bind; [apply Hbody|by intros _].
Qed.

Lemma preserves_find_command key command :
  preserves_core (LinuxSystem.find_command key command).
Proof.
  unfold LinuxSystem.find_command. apply preserves_bind; [apply preserves_read|].
  intros h. destruct (if LinuxSystem.truthy _ then _ else _) as [[|c p]|].
  - destruct (String.eqb key "COMMANDS"); [apply preserves_warning|apply preserves_ret].
  - by apply preserves_modify.
  - destruct (String.eqb key "COMMANDS"); [apply preserves_warning|apply preserves_ret].
Qed.

Lemma preserves_find_commands : preserves_core LinuxSystem.find_commands.
Proof.
  apply preserves_for_each. intros key. apply preserves_bind.
  - by apply preserves_modify.
  - intros _. apply preserves_for_each, preserves_find_command.
Qed.

Lemma preserves_get_arch : preserves_core LinuxSystem.get_arch.
Proof.
  unfold LinuxSystem.get_arch. apply preserves_bind; [apply preserves_read|].
  intros h. repeat (destruct (_ : bool); [apply preserves_ret|]).
  apply preserves_bind; [apply preserves_warning|]. intros _. apply preserves_ret.
Qed.

Lemma preserves_get_ldconfig_libs : preserves_core LinuxSystem.get_ldconfig_libs.
Proof.
  unfold LinuxSystem.get_ldconfig_libs.
  apply preserves_bind; [apply preserves_read|].
  intros [[|c p]|].
  - apply preserves_bind; [apply preserves_error|]. intros _. apply preserves_ret.
  - apply preserves_bind; [apply preserves_read|]. intros h. apply preserves_ret.
  - apply preserves_bind; [apply preserves_error|]. intros _. apply preserves_ret.
Qed.

Lemma preserves_get_glxinfo : preserves_core LinuxSystem.get_glxinfo.
Proof.
  unfold LinuxSystem.get_glxinfo. apply preserves_bind; [apply preserves_read|].
  intros tool. destruct (negb _); [apply preserves_ret|].
  apply preserves_bind; [apply preserves_read|]. intros h.
  destruct (display _); [apply preserves_ret|].
  apply preserves_bind; [apply preserves_warning|]. intros _. apply preserves_ret.
Qed.

(** Such a method keeps what depends on these parts only. *)
Lemma preserves_hoare {A} (m : LinuxSystem.M A) (P : LinuxSystem -> Prop) :
  preserves_core m -> (forall s s', core s' = core s -> P s -> P s') ->
  hoare P m (fun _ => P).
Proof.
  intros Hm HP s Hs. destruct (Hm s) as (a & s' & E & Hcore). eauto.
Qed.

End preserves_core_lemmas.

(** ** The object that [__init__] builds *)

Section built.

Lemma runtime_architectures_core s s' :
  core s' = core s ->
  LinuxSystem.runtime_architectures s' = LinuxSystem.runtime_architectures s.
Proof. unfold core, LinuxSystem.runtime_architectures. by intros [= _ -> _ _]. Qed.

Lemma requirements_core s s' :
  core s' = core s -> LinuxSystem.requirements s' = LinuxSystem.requirements s.
Proof.
  unfold core, LinuxSystem.requirements, LinuxSystem.get_requirements.
  by intros [= -> _ _ _].
Qed.

Lemma populated_core s s' : core s' = core s -> populated s -> populated s'.
Proof.
  intros Hcore. pose proof (runtime_architectures_core _ _ Hcore) as Harchs.
  pose proof (requirements_core _ _ Hcore) as Hreqs.
  unfold populated, present_libs. rewrite Harchs, Hreqs.
  unfold core in Hcore. injection Hcore as _ _ -> ->. done.
Qed.

Lemma elem_of_of_record x req lib shared_lib a r :
  x ∈ of_record req lib shared_lib a r
  <-> SharedLibrary.arch shared_lib = a /\ req = r /\ x = lib.
Proof.
  unfold of_record. destruct (decide _) as [[? ?]|Hn].
  - rewrite list_elem_of_singleton. tauto.
  - split; [by intros ?%elem_of_nil|]. intros (? & ? & _). tauto.
Qed.

Lemma populated_after s0 s' :
  inventory_ok (LinuxSystem.runtime_architectures s0) (shared_libraries s0) ->
  frame s0 s' ->
  cache_is (fun a r => req ← LinuxSystem.requirements s0;
                       of_requirement (shared_libraries s0) req a r) s' ->
  populated s'.
Proof.
  intros [Hkeys0 Hrec0] (Hhost & Harch & Hkeys & Hstored & Hdom) Hcache.
  assert (LinuxSystem.runtime_architectures s' = LinuxSystem.runtime_architectures s0)
    as Harchs by (unfold LinuxSystem.runtime_architectures; by rewrite Harch).
  assert (LinuxSystem.requirements s' = LinuxSystem.requirements s0) as Hreqs
    by (unfold LinuxSystem.requirements, LinuxSystem.get_requirements; by rewrite Hhost).
  assert (inventory_ok (LinuxSystem.runtime_architectures s') (shared_libraries s'))
    as Hok.
  { split; [done|]. intros k lib. rewrite Hstored, Harchs. apply Hrec0. }
  split; [done|]. split; [by rewrite Harchs|].
  intros a req lib Ha Hreq Hlib.
  rewrite (present_libs_stored s' a lib Hok), Hstored, Hcache, list_elem_of_bind.
  unfold of_requirement, of_library. split.
  - intros (req' & (lib' & (sl & Hx & Hsl)%list_elem_of_bind & Hlib')%list_elem_of_bind & _).
    apply elem_of_of_record in Hx as (Ha' & _ & ->). eauto.
  - intros (sl & Hsl & Ha'). exists req. split; [|by rewrite <- Hreqs].
    apply list_elem_of_bind. exists lib. split.
    + apply list_elem_of_bind. exists sl. split; [|done].
      by apply elem_of_of_record.
    + by apply elem_of_list_to_set in Hlib.
Qed.

Lemma get_shared_libraries_triple h :
  hoare (fun s => host s = h) LinuxSystem.get_shared_libraries
    (fun libs s => host s = h
                   /\ inventory_ok (LinuxSystem.runtime_architectures s) libs).
Proof.
  intros s Hs. unfold LinuxSystem.get_shared_libraries.
  destruct (preserves_get_ldconfig_libs s) as (lines & s1 & E & Hcore).
  unfold_bind. rewrite E.
  rewrite get_shared_libraries_loop_eq. eexists _, _. split; [done|].
  unfold core in Hcore. injection Hcore as Hhost _ _ _. split.
  - simpl. congruence.
  - apply inventory_of_ok, inventory_ok_nil.
Qed.

Lemma populate_libraries_triple h :
  hoare (fun s => host s = h
                  /\ inventory_ok (LinuxSystem.runtime_architectures s) (shared_libraries s))
    LinuxSystem.populate_libraries
    (fun _ s => populated s /\ host s = h).
Proof.
  intros s [Hhost Hok].
  destruct (populate_libraries_run s Hok) as (s' & E & Hframe & Hcache).
  exists tt, s'. split; [done|]. split; [by eapply populated_after|].
  destruct Hframe as [-> _]. done.
Qed.

Lemma init_triple h :
  hoare (fun s => host s = h) LinuxSystem.__init__ (fun _ s => populated s /\ host s = h).
Proof.
  assert (forall s s', core s' = core s -> host s = h -> host s' = h) as Hhost.
  { unfold core. intros s s' [= -> _ _ _]. done. }
  unfold LinuxSystem.__init__.
  eapply hoare_bind; [apply (preserves_hoare _ _ preserves_find_commands Hhost)|].
  intros []. simpl.
  eapply hoare_bind; [apply (preserves_hoare _ _ preserves_get_arch Hhost)|].
  intros a. simpl.
  eapply hoare_bind; [apply (hoare_modify' _ _ (fun _ s => host s = h)); by intros s Hs|].
  intros []. simpl.
  eapply hoare_bind; [apply get_shared_libraries_triple|].
  intros libs. simpl.
  eapply hoare_bind.
  { apply (hoare_modify' _ _ (fun _ s =>
             host s = h /\ inventory_ok (LinuxSystem.runtime_architectures s)
                             (shared_libraries s))).
    by intros s Hs. }
  intros []. simpl.
  eapply hoare_bind; [apply populate_libraries_triple|].
  intros []. simpl.
  eapply hoare_bind.
  { apply (preserves_hoare _ (fun s => populated s /\ host s = h) preserves_get_glxinfo).
    intros s s' Hcore [Hpop Hh]. split; [by eapply populated_core|by eapply Hhost]. }
  intros info. simpl.
  apply hoare_modify'. intros s [Hpop Hh]. split; [|done].
  by eapply populated_core.
Qed.

Lemma LINUX_SYSTEM_built h :
  LinuxSystem.__init__ (LinuxSystem.blank h) = (Ok tt, LinuxSystem.LINUX_SYSTEM h)
  /\ populated (LinuxSystem.LINUX_SYSTEM h)
  /\ host (LinuxSystem.LINUX_SYSTEM h) = h.
Proof.
  destruct (init_triple h (LinuxSystem.blank h) eq_refl) as ([] & s' & E & Hpop & Hh).
  unfold LinuxSystem.LINUX_SYSTEM. by rewrite E.
Qed.

End built.

(** ** The report of the missing libraries *)

Section missing.

Lemma requirements_declared s req :
  req ∈ LinuxSystem.requirements s ->
  req <> "ACO"
  /\ exists libs, Dict.get req SYSTEM_COMPONENTS.LIBRARIES = Some libs.
Proof.
  unfold LinuxSystem.requirements, LinuxSystem.get_requirements. intros Hreq.
  destruct (is_amd (host s));
    repeat (apply elem_of_cons in Hreq as [->|Hreq]; [split; [done|by eexists]|]);
    by apply elem_of_nil in Hreq.
Qed.

(** On a populated object the report is the declared set minus the
    present set, for each architecture; the query leaves the object
    populated, with the same inventory. *)
Lemma get_missing_requirement_libs_run s req :
  populated s -> req ∈ LinuxSystem.requirements s ->
  exists s',
    LinuxSystem.get_missing_requirement_libs req s
    = (Ok (map (fun a => elements (declared_libs req ∖ present_libs s a))
             (LinuxSystem.runtime_architectures s)), s')
    /\ populated s' /\ host s' = host s /\ arch s' = arch s
    /\ shared_libraries s' = shared_libraries s.
Proof.
  intros Hpop Hreq. destruct (requirements_declared s req Hreq) as [_ [libs Hlibs]].
  unfold LinuxSystem.get_missing_requirement_libs, LinuxSystem.static_libraries.
  rewrite Hlibs.
  pose (I := fun s' => populated s' /\ host s' = host s /\ arch s' = arch s
                       /\ shared_libraries s' = shared_libraries s).
  destruct (hoare_comprehension I
              (fun arch =>
                 present ← LinuxSystem.cache_libraries_getitem arch req;
                 LinuxSystem.ret (elements ((list_to_set libs : gset string)
                                            ∖ list_to_set present)))
              (fun a => elements (declared_libs req ∖ present_libs s a))
              (LinuxSystem.runtime_architectures s)) with (s := s)
    as (ys & s' & E & -> & HI).
  - intros a Ha s1 (Hpop1 & Hhost1 & Harch1 & Hshared1).
    assert (LinuxSystem.runtime_architectures s1 = LinuxSystem.runtime_architectures s)
      as Harchs by (unfold LinuxSystem.runtime_architectures; by rewrite Harch1).
    assert (LinuxSystem.requirements s1 = LinuxSystem.requirements s) as Hreqs
      by (unfold LinuxSystem.requirements, LinuxSystem.get_requirements; by rewrite Hhost1).
    assert (forall a', present_libs s1 a' = present_libs s a') as Hpresent
      by (intros a'; unfold present_libs; by rewrite Hshared1).
    destruct Hpop1 as (Hok1 & Hdom1 & Hcache1).
    destruct (cache_libraries_getitem_run a req s1) as (c' & E & Hview & Hdom).
    { apply Hdom1. by rewrite Harchs. }
    eexists _, _. split.
    { unfold_bind. rewrite E. done. }
    split.
    + f_equal. unfold declared_libs. rewrite Hlibs. simpl.
      apply set_eq. intros lib. rewrite !elem_of_difference.
      assert (lib ∈ (list_to_set libs : gset string) ->
              lib ∈ (list_to_set (view (cache_LIBRARIES s1) a req) : gset string)
              <-> lib ∈ present_libs s a) as Hiff.
      { intros Hlib. rewrite elem_of_list_to_set, <- Hpresent.
        apply Hcache1; [by rewrite Harchs|by rewrite Hreqs|].
        unfold declared_libs. by rewrite Hlibs. }
      split; intros [Hlib Hn]; (split; [done|]); by rewrite <- (Hiff Hlib) in *.
    + split_and!; [|done..]. split_and!.
      * done.
      * intros a' Ha'. by apply Hdom, Hdom1.
      * intros a' req' lib Ha' Hreq' Hlib. simpl. rewrite Hview.
        rewrite <- (Hcache1 a' req' lib Ha' Hreq' Hlib). done.
  - by unfold I.
  - exists s'. split; [|exact HI].
    unfold mbind, LinuxSystem.M_bind, LinuxSystem.bind, LinuxSystem.read, LinuxSystem.ret.
    exact E.
Qed.

End missing.

(** ** C7, C1 and C6: what the built object reports *)

(** C7. On the object built on any host, for a requirement of the host,
    [get_missing_requirement_libs] returns, for the architectures of the
    machine in their order, the libraries declared for the requirement minus
    the libraries present for the architecture; asked again, it returns the
    same report. *)
Theorem get_missing_requirement_libs_spec (h : Host) (req : string) :
  let s := LinuxSystem.LINUX_SYSTEM h in
  req ∈ LinuxSystem.requirements s ->
  exists s' s'',
    LinuxSystem.get_missing_requirement_libs req s
    = (Ok (map (fun a => elements (declared_libs req ∖ present_libs s a))
             (LinuxSystem.runtime_architectures s)), s')
    /\ LinuxSystem.get_missing_requirement_libs req s'
       = (Ok (map (fun a => elements (declared_libs req ∖ present_libs s a))
                (LinuxSystem.runtime_architectures s)), s'').
Proof.
  intros s Hreq. destruct (LINUX_SYSTEM_built h) as (_ & Hpop & _).
  destruct (get_missing_requirement_libs_run s req Hpop Hreq)
    as (s' & E & Hpop' & Hhost & Harch & Hshared).
  destruct (get_missing_requirement_libs_run s' req Hpop') as (s'' & E' & _).
  { unfold LinuxSystem.requirements, LinuxSystem.get_requirements in *.
    by rewrite Hhost. }
  exists s', s''. split; [done|]. rewrite E'. f_equal. f_equal.
  unfold LinuxSystem.runtime_architectures, present_libs.
  by rewrite Harch, Hshared.
Qed.

Lemma get_missing_requirement_libs_spec_witness :
  let s := LinuxSystem.LINUX_SYSTEM Scenario.synthetic in
  exists s' s'',
    LinuxSystem.get_missing_requirement_libs "OPENGL" s
    = (Ok (map (fun a => elements (declared_libs "OPENGL" ∖ present_libs s a))
             (LinuxSystem.runtime_architectures s)), s')
    /\ LinuxSystem.get_missing_requirement_libs "OPENGL" s'
       = (Ok (map (fun a => elements (declared_libs "OPENGL" ∖ present_libs s a))
                (LinuxSystem.runtime_architectures s)), s'').
Proof.
  apply (get_missing_requirement_libs_spec Scenario.synthetic "OPENGL").
  vm_compute. apply list_elem_of_here.
Defined.

(** C1, as stated, fails on the 64-bit host of the listing of three lines:
    VULKAN is a requirement with the single library libvulkan.so.1, the
    inventory has a record of that name tagged x86_64, and the feature is
    not supported. *)
Lemma is_feature_supported_counterexample :
  let s := LinuxSystem.LINUX_SYSTEM Scenario.synthetic in
  arch s = Some "x86_64"
  /\ "VULKAN" ∈ LinuxSystem.requirements s
  /\ Dict.get "VULKAN" SYSTEM_COMPONENTS.LIBRARIES = Some ["libvulkan.so.1"]
  /\ Scenario.libvulkan ∈ records (shared_libraries s)
  /\ SharedLibrary.arch Scenario.libvulkan = "x86_64"
  /\ (LinuxSystem.is_feature_supported "VULKAN" s).1 = Ok false.
Proof.
  split; [reflexivity|].
  split; [vm_compute; apply list_elem_of_further, list_elem_of_here|].
  split; [reflexivity|].
  split; [vm_compute; apply list_elem_of_further, list_elem_of_here|].
  split; [reflexivity|]. by vm_compute.
Qed.

(** C1, amended. On the object built on any host, for a requirement of the
    host, [is_feature_supported] is true exactly when the first list of the
    report of missing libraries is empty.  The first architecture of the
    machine is i386 on every host, so the feature is supported exactly when
    each declared library has a record tagged i386 in the inventory,
    whatever records are tagged x86_64. *)
Theorem is_feature_supported_first_architecture (h : Host) (req : string) :
  let s := LinuxSystem.LINUX_SYSTEM h in
  req ∈ LinuxSystem.requirements s ->
  exists missing s',
    LinuxSystem.get_missing_requirement_libs req s = (Ok missing, s')
    /\ LinuxSystem.is_feature_supported req s
       = (Ok (bool_decide (missing !! 0 = Some [])), s')
    /\ LinuxSystem.runtime_architectures s !! 0 = Some "i386"
    /\ missing !! 0 = Some (elements (declared_libs req ∖ present_libs s "i386"))
    /\ (missing !! 0 = Some [] <->
        forall lib, lib ∈ declared_libs req ->
          exists shared_lib, shared_lib ∈ records (shared_libraries s)
                             /\ name shared_lib = lib
                             /\ SharedLibrary.arch shared_lib = "i386").
Proof.
  intros s Hreq. destruct (LINUX_SYSTEM_built h) as (_ & Hpop & _).
  destruct (get_missing_requirement_libs_run s req Hpop Hreq) as (s' & E & _).
  destruct (requirements_declared s req Hreq) as [HACO%String.eqb_neq _].
  assert (exists rest, LinuxSystem.runtime_architectures s = "i386" :: rest) as [rest Harchs].
  { unfold LinuxSystem.runtime_architectures. destruct (arch s) as [a|]; [|by eexists].
    destruct (String.eqb a "x86_64"); by eexists. }
  rewrite Harchs in E. simpl in E. eexists _, s'. split; [exact E|].
  split_and!.
  - unfold LinuxSystem.is_feature_supported. rewrite HACO.
    unfold_bind. rewrite E. simpl.
    by destruct (elements _).
  - by rewrite Harchs.
  - done.
  - simpl. split.
    + intros [= Hempty] lib Hlib. apply elements_empty_inv in Hempty.
      destruct (decide (lib ∈ present_libs s "i386")) as [Hin|Hnin].
      * unfold present_libs in Hin.
        apply elem_of_list_to_set, list_elem_of_fmap in Hin
          as (shared_lib & -> & [Harch Hin]%list_elem_of_filter). eauto.
      * exfalso. apply (not_elem_of_empty (C := gset string) lib).
        rewrite <- Hempty. by apply elem_of_difference.
    + intros Hall. f_equal. apply elements_empty_iff, set_equiv. intros lib.
      rewrite elem_of_difference. split; [|by intros ?%not_elem_of_empty].
      intros [Hlib Hnin]. exfalso. apply Hnin.
      destruct (Hall lib Hlib) as (shared_lib & Hin & <- & Harch).
      unfold present_libs. apply elem_of_list_to_set, list_elem_of_fmap.
      exists shared_lib. split; [done|]. by apply list_elem_of_filter.
Qed.

Lemma is_feature_supported_first_architecture_witness :
  let s := LinuxSystem.LINUX_SYSTEM Scenario.vulkan32 in
  LinuxSystem.runtime_architectures s = ["i386"; "x86_64"]
  /\ (LinuxSystem.is_feature_supported "VULKAN" s).1 = Ok true
  /\ exists missing s',
    LinuxSystem.get_missing_requirement_libs "VULKAN" s = (Ok missing, s')
    /\ LinuxSystem.is_feature_supported "VULKAN" s
       = (Ok (bool_decide (missing !! 0 = Some [])), s')
    /\ LinuxSystem.runtime_architectures s !! 0 = Some "i386"
    /\ missing !! 0 = Some (elements (declared_libs "VULKAN" ∖ present_libs s "i386"))
    /\ (missing !! 0 = Some [] <->
        forall lib, lib ∈ declared_libs "VULKAN" ->
          exists shared_lib, shared_lib ∈ records (shared_libraries s)
                             /\ name shared_lib = lib
                             /\ SharedLibrary.arch shared_lib = "i386").
Proof.
  split; [reflexivity|]. split; [by vm_compute|].
  apply (is_feature_supported_first_architecture Scenario.vulkan32 "VULKAN").
  vm_compute. apply list_elem_of_further, list_elem_of_here.
Defined.

(** C6. A line that does not parse is logged and skipped wherever it stands
    in the listing: the loop returns the inventory of the other lines.  On
    the 64-bit host of the listing of three lines, whose architectures are
    i386 and x86_64, the object is built, the inventory holds the two
    records and nothing else, the line is in the log, and the report for
    VULKAN is libvulkan.so.1 missing for i386 and nothing missing for
    x86_64. *)
Theorem malformed_line_is_skipped :
  (forall (l1 l2 : list string) (bad : string) (e : exn) (s : LinuxSystem),
      SharedLibrary.new_from_ldconfig bad = Err e ->
      exists s',
        LinuxSystem.get_shared_libraries_loop (l1 ++ bad :: l2) [] s
        = (Ok (inventory_of (LinuxSystem.runtime_architectures s) (l1 ++ l2) []), s')
        /\ {| lvl := ERROR; message := "Invalid ldconfig line: " +:+ bad |} ∈ logger s'
        /\ (LinuxSystem.get_shared_libraries_loop (l1 ++ l2) [] s).1
           = Ok (inventory_of (LinuxSystem.runtime_architectures s) (l1 ++ l2) []))
  /\ let s := LinuxSystem.LINUX_SYSTEM Scenario.synthetic in
     LinuxSystem.__init__ (LinuxSystem.blank Scenario.synthetic) = (Ok tt, s)
     /\ LinuxSystem.runtime_architectures s = ["i386"; "x86_64"]
     /\ (LinuxSystem.get_shared_libraries s).1
        = Ok [("libGL.so.1", [Scenario.libGL]); ("libvulkan.so.1", [Scenario.libvulkan])]
     /\ records (shared_libraries s) = [Scenario.libGL; Scenario.libvulkan]
     /\ {| lvl := ERROR;
           message := "Invalid ldconfig line: " +:+ Scenario.malformed |} ∈ logger s
     /\ (LinuxSystem.get_missing_requirement_libs "VULKAN" s).1
        = Ok [["libvulkan.so.1"]; []].
Proof.
  split.
  - intros l1 l2 bad e s Hbad. by eapply loop_skips_malformed.
  - split_and!; [by vm_compute..| |by vm_compute].
    vm_compute. do 8 apply list_elem_of_further. apply list_elem_of_here.
Qed.

Lemma malformed_line_is_skipped_witness :
  let s := LinuxSystem.blank Scenario.synthetic in
  exists s',
    LinuxSystem.get_shared_libraries_loop
      (["libGL.so.1 (libc6,x86-64) => /usr/lib/libGL.so.1"]
       ++ Scenario.malformed :: ["libm.so.6 (libc6) => /lib/libm.so.6"]) [] s
    = (Ok (inventory_of (LinuxSystem.runtime_architectures s)
             (["libGL.so.1 (libc6,x86-64) => /usr/lib/libGL.so.1"]
              ++ ["libm.so.6 (libc6) => /lib/libm.so.6"]) []), s')
    /\ {| lvl := ERROR;
          message := "Invalid ldconfig line: " +:+ Scenario.malformed |} ∈ logger s'
    /\ (LinuxSystem.get_shared_libraries_loop
          (["libGL.so.1 (libc6,x86-64) => /usr/lib/libGL.so.1"]
           ++ ["libm.so.6 (libc6) => /lib/libm.so.6"]) [] s).1
       = Ok (inventory_of (LinuxSystem.runtime_architectures s)
               (["libGL.so.1 (libc6,x86-64) => /usr/lib/libGL.so.1"]
                ++ ["libm.so.6 (libc6) => /lib/libm.so.6"]) []).
Proof.
  apply (proj1 malformed_line_is_skipped _ _ Scenario.malformed
           (ValueError ("Received incorrect value for ldconfig line: " +:+ Scenario.malformed))).
  reflexivity.
Defined.

(** * Further properties of the module *)

(** ** Strings: prefixes, trimming and splitting *)

Section more_str_lemmas.

Lemma before_first_prefix sep s : exists rest, s = StrMore.before_first sep s +:+ rest
  /\ (rest = "" \/ Str.startswith sep rest = true).
Proof.
  induction s as [|c s IH].
  - exists "". split; [done|by left].
  - simpl StrMore.before_first. destruct (Str.startswith sep (String c s)) eqn:E.
    + exists (String c s). split; [done|by right].
    + destruct IH as (rest & Hs & Hrest). exists rest. split; [|done].
      rewrite app_cons. by f_equal.
Qed.

Lemma before_first_no_sep sep s :
  sep <> "" -> Str.contains sep (StrMore.before_first sep s) = false.
Proof.
  intros Hsep. induction s as [|c s IH].
  - simpl. destruct sep; [done|reflexivity].
  - simpl StrMore.before_first. destruct (Str.startswith sep (String c s)) eqn:E.
    + destruct sep; [done|reflexivity].
    + change (Str.contains sep (String c (StrMore.before_first sep s)))
        with (Str.startswith sep (String c (StrMore.before_first sep s))
              || Str.contains sep (StrMore.before_first sep s)).
      rewrite IH, orb_false_r. apply not_true_is_false. intros H.
      apply startswith_spec in H as [r Hr].
      destruct (before_first_prefix sep s) as (rest & Hs & _).
      assert (Str.startswith sep (String c s) = true) as H'; [|congruence].
      apply startswith_spec. exists (r +:+ rest).
      rewrite <- app_assoc', <- Hr, app_cons. by f_equal.
Qed.

Lemma before_first_id sep s :
  Str.contains sep s = false -> StrMore.before_first sep s = s.
Proof.
  induction s as [|c s IH]; [done|]. intros [H1 H2]%contains_cons.
  simpl StrMore.before_first. rewrite H1. f_equal. by apply IH.
Qed.


Lemma rstrip_cons drop c s :
  Str.rstrip drop (String c s)
  = match Str.rstrip drop s with
    | EmptyString => if drop c then EmptyString else String c EmptyString
    | r => String c r
    end.
Proof. reflexivity. Qed.

Lemma has_char_here c s : Str.has_char c (String c s) = true.
Proof. simpl. by rewrite ascii_eqb_refl. Qed.

Lemma has_char_further c d s : Str.has_char c s = true -> Str.has_char c (String d s) = true.
Proof. simpl. intros ->. apply orb_true_r. Qed.

Lemma rstrip_all drop b :
  (forall c, Str.has_char c b = true -> drop c = true) -> Str.rstrip drop b = "".
Proof.
  induction b as [|c b IH]; intros Hb; [done|]. rewrite rstrip_cons.
  rewrite IH by (intros d Hd; by apply Hb, has_char_further).
  by rewrite (Hb c (has_char_here c b)).
Qed.

Lemma rstrip_app_all drop m b :
  (forall c, Str.has_char c b = true -> drop c = true) ->
  Str.rstrip drop (m +:+ b) = Str.rstrip drop m.
Proof.
  intros Hb. induction m as [|c m IH].
  - rewrite app_empty_l. by apply rstrip_all.
  - by rewrite app_cons, !rstrip_cons, IH.
Qed.

Lemma lstrip_length drop m : String.length (Str.lstrip drop m) <= String.length m.
Proof.
  induction m as [|x m IH]; simpl; [lia|]. destruct (drop x); simpl; lia.
Qed.


End more_str_lemmas.

Section trim_lemmas.

Lemma lstrip_fixed drop t :
  Str.lstrip drop t = t -> t = "" \/ exists c t', t = String c t' /\ drop c = false.
Proof.
  destruct t as [|c t']; [by left|]. simpl. destruct (drop c) eqn:Hc; [|eauto].
  intros H. pose proof (lstrip_length drop t') as Hlen. rewrite H in Hlen.
  simpl in Hlen. lia.
Qed.

Lemma lstrip_idem drop s : Str.lstrip drop (Str.lstrip drop s) = Str.lstrip drop s.
Proof.
  induction s as [|c s IH]; [done|]. simpl. destruct (drop c) eqn:Hc; [done|].
  simpl. by rewrite Hc.
Qed.

Lemma rstrip_idem drop s : Str.rstrip drop (Str.rstrip drop s) = Str.rstrip drop s.
Proof.
  induction s as [|c s IH]; [done|]. rewrite rstrip_cons.
  destruct (Str.rstrip drop s) as [|d r] eqn:E.
  - destruct (drop c) eqn:Hc; [done|]. rewrite rstrip_cons. simpl. by rewrite Hc.
  - rewrite rstrip_cons. by rewrite IH.
Qed.

Lemma lstrip_rstrip drop t :
  Str.lstrip drop t = t -> Str.lstrip drop (Str.rstrip drop t) = Str.rstrip drop t.
Proof.
  intros [->|(c & t' & -> & Hc)]%lstrip_fixed; [done|]. rewrite rstrip_cons.
  destruct (Str.rstrip drop t'); rewrite ?Hc; simpl; by rewrite Hc.
Qed.

Lemma strip_by_idem drop s : Str.strip_by drop (Str.strip_by drop s) = Str.strip_by drop s.
Proof.
  unfold Str.strip_by. rewrite lstrip_rstrip by apply lstrip_idem.
  apply rstrip_idem.
Qed.

Lemma has_char_lstrip c drop s :
  Str.has_char c (Str.lstrip drop s) = true -> Str.has_char c s = true.
Proof.
  induction s as [|d s IH]; [done|]. simpl. destruct (drop d); [|done].
  intros H. by rewrite (IH H), orb_true_r.
Qed.

Lemma has_char_rstrip c drop s :
  Str.has_char c (Str.rstrip drop s) = true -> Str.has_char c s = true.
Proof.
  induction s as [|d s IH]; [done|]. rewrite rstrip_cons.
  destruct (Str.rstrip drop s) as [|x r] eqn:E.
  - destruct (drop d); [done|]. simpl. rewrite orb_false_r. intros ->. done.
  - change (Str.has_char c (String d (String x r)))
      with (Str.ascii_eqb c d || Str.has_char c (String x r)).
    change (Str.has_char c (String d s)) with (Str.ascii_eqb c d || Str.has_char c s).
    intros [->|H]%orb_true_iff; [done|]. by rewrite (IH H), orb_true_r.
Qed.

Lemma has_char_strip_by c drop s :
  Str.has_char c s = false -> Str.has_char c (Str.strip_by drop s) = false.
Proof.
  intros H. apply not_true_is_false. intros H'.
  apply has_char_rstrip, has_char_lstrip in H'. congruence.
Qed.

Lemma split_no_sep_inside sep s x :
  x ∈ Str.split sep s -> Str.has_char sep x = false.
Proof.
  revert x. induction s as [|c s IH]; intros x; simpl.
  - by intros ->%list_elem_of_singleton.
  - destruct (Str.ascii_eqb c sep) eqn:E.
    + intros [->|H]%elem_of_cons; [done|by apply IH].
    + pose proof (split_nonempty sep s) as Hne.
      destruct (Str.split sep s) as [|h t]; [done|].
      intros [->|H]%elem_of_cons.
      * simpl. rewrite ascii_eqb_sym, E. apply IH, list_elem_of_here.
      * by apply IH, list_elem_of_further.
Qed.

End trim_lemmas.

Section path_lemmas.

Lemma upto_last_slash_cons c t :
  Str.upto_last_slash t <> "" -> Str.upto_last_slash (String c t) = String c (Str.upto_last_slash t).
Proof. simpl. by destruct (Str.upto_last_slash t). Qed.

Lemma has_char_cons c d s :
  Str.has_char c (String d s) = Str.ascii_eqb c d || Str.has_char c s.
Proof. reflexivity. Qed.

Lemma upto_last_slash_none f : Str.has_char "/" f = false -> Str.upto_last_slash f = "".
Proof.
  induction f as [|c f IH]; [done|]. rewrite has_char_cons.
  intros [Hc Hf]%orb_false_iff. rewrite ascii_eqb_sym in Hc.
  change (Str.upto_last_slash (String c f))
    with (match Str.upto_last_slash f with
          | EmptyString => if Str.ascii_eqb c "/" then String "/"%char EmptyString else EmptyString
          | r => String c r
          end).
  by rewrite (IH Hf), Hc.
Qed.

Lemma upto_last_slash_app d f :
  Str.has_char "/" f = false -> Str.upto_last_slash (d +:+ "/" +:+ f) = d +:+ "/".
Proof.
  intros Hf. induction d as [|c d IH].
  - rewrite !app_empty_l. change ("/" +:+ f) with (String "/" f). simpl.
    by rewrite (upto_last_slash_none f Hf).
  - rewrite !(app_cons c d). rewrite upto_last_slash_cons.
    + by rewrite IH.
    + rewrite IH. by destruct d.
Qed.

Lemma all_slashes_app d e : Str.all_slashes (d +:+ e) = Str.all_slashes d && Str.all_slashes e.
Proof.
  induction d as [|c d IH]; [done|]. rewrite app_cons. simpl.
  by rewrite IH, andb_assoc.
Qed.

Lemma last_not_slash d :
  d <> "" -> Str.endswith_char "/" d = false ->
  Str.all_slashes d = false /\ Str.rstrip (fun c => Str.ascii_eqb c "/") d = d.
Proof.
  induction d as [|c d IH]; [done|]. intros _ Hend.
  destruct d as [|x d'].
  - change (Str.ascii_eqb "/" c = false) in Hend. rewrite ascii_eqb_sym in Hend.
    split.
    + change (Str.ascii_eqb c "/" && true = false). by rewrite Hend.
    + rewrite rstrip_cons.
      change (Str.rstrip (fun c0 => Str.ascii_eqb c0 "/") "") with "".
      cbv beta iota. by rewrite Hend.
  - change (Str.endswith_char "/" (String c (String x d')))
      with (Str.endswith_char "/" (String x d')) in Hend.
    destruct (IH ltac:(done) Hend) as [Hall Hstrip]. split.
    + change (Str.all_slashes (String c (String x d')))
        with (Str.ascii_eqb c "/" && Str.all_slashes (String x d')).
      by rewrite Hall, andb_false_r.
    + by rewrite rstrip_cons, Hstrip.
Qed.

Lemma path_join_plain d f :
  d <> "" -> Str.endswith_char "/" d = false -> Str.has_char "/" f = false ->
  LinuxSystem.path_join d f = d +:+ "/" +:+ f.
Proof.
  intros Hd Hend Hf. unfold LinuxSystem.path_join. rewrite Hend.
  assert (Str.startswith "/" f = false) as ->.
  { destruct f as [|c f]; [done|]. simpl in *.
    apply orb_false_iff in Hf as [-> _]. done. }
  apply String.eqb_neq in Hd. by rewrite Hd.
Qed.

Lemma dirname_join d f :
  d <> "" -> Str.endswith_char "/" d = false -> Str.has_char "/" f = false ->
  Str.dirname (d +:+ "/" +:+ f) = d.
Proof.
  intros Hd Hend Hf. unfold Str.dirname. rewrite upto_last_slash_app by done.
  destruct (last_not_slash d Hd Hend) as [Hall Hstrip].
  rewrite all_slashes_app, Hall. simpl.
  rewrite rstrip_app_all; [done|].
  intros c. simpl. rewrite orb_false_r, ascii_eqb_sym. done.
Qed.

End path_lemmas.

(** ** X1 to X3: names, flags and folders of a record *)

(** X1. The [basename] of a record holds no [.so]; the name is the
    [basename] followed by nothing or by a text that starts with [.so]; a
    name without [.so] is its own [basename]. *)
Theorem basename_spec (l : SharedLibrary) :
  Str.contains ".so" (SharedLibraryMore.basename l) = false
  /\ (exists rest, name l = SharedLibraryMore.basename l +:+ rest
                   /\ (rest = "" \/ Str.startswith ".so" rest = true))
  /\ (Str.contains ".so" (name l) = false -> SharedLibraryMore.basename l = name l).
Proof.
  unfold SharedLibraryMore.basename. split_and!.
  - by apply before_first_no_sep.
  - apply before_first_prefix.
  - apply before_first_id.
Qed.

Lemma basename_spec_witness :
  SharedLibraryMore.basename Scenario.libGL = "libGL"
  /\ (Str.contains ".so" (name {| name := "ld-linux"; flags := []; path := "" |}) = false ->
      SharedLibraryMore.basename {| name := "ld-linux"; flags := []; path := "" |}
      = "ld-linux").
Proof.
  split; [reflexivity|].
  apply (proj2 (proj2 (basename_spec {| name := "ld-linux"; flags := []; path := "" |}))).
Defined.

(** X2. A record that [new_from_ldconfig] returns has at least one flag,
    and each of its flags holds no comma and has no white space at its
    ends. *)
Theorem parsed_flags_trimmed (line : string) (lib : SharedLibrary) :
  SharedLibrary.new_from_ldconfig line = Ok lib ->
  flags lib <> []
  /\ forall flag, flag ∈ flags lib ->
        Str.strip flag = flag /\ Str.has_char "," flag = false.
Proof.
  unfold SharedLibrary.new_from_ldconfig.
  destruct (Regex.ldconfig_match line) as [[[g1 g2] g3]|]; [|done].
  intros [= <-]. simpl. split.
  - pose proof (split_nonempty "," g2). by destruct (Str.split "," g2).
  - intros flag (raw & -> & Hraw)%list_elem_of_fmap. split.
    + apply strip_by_idem.
    + apply has_char_strip_by. by eapply split_no_sep_inside.
Qed.

Lemma parsed_flags_trimmed_witness :
  flags Scenario.libGL <> []
  /\ forall flag, flag ∈ flags Scenario.libGL ->
        Str.strip flag = flag /\ Str.has_char "," flag = false.
Proof.
  apply (parsed_flags_trimmed
           "libGL.so.1 (libc6, x86-64 ) => /usr/lib/x86_64-linux-gnu/libGL.so.1").
  reflexivity.
Defined.

(** X3. A record whose path is a folder, a slash and a file name lies in
    that folder: [dirname] undoes [os.path.join] when the folder is not
    empty and does not end with a slash and the file name holds no slash. *)
Theorem dirname_of_joined_path (n : string) (fl : list string) (d f : string) :
  d <> "" -> Str.endswith_char "/" d = false -> Str.has_char "/" f = false ->
  LinuxSystem.path_join d f = d +:+ "/" +:+ f
  /\ SharedLibrary.dirname {| name := n; flags := fl; path := LinuxSystem.path_join d f |} = d.
Proof.
  intros Hd Hend Hf. rewrite path_join_plain by done. split; [done|].
  unfold SharedLibrary.dirname. simpl. by apply dirname_join.
Qed.

Lemma dirname_of_joined_path_witness :
  LinuxSystem.path_join "/usr/lib32" "libvulkan.so.1" = "/usr/lib32" +:+ "/" +:+ "libvulkan.so.1"
  /\ SharedLibrary.dirname
       {| name := "libvulkan.so.1"; flags := ["libc6"];
          path := LinuxSystem.path_join "/usr/lib32" "libvulkan.so.1" |} = "/usr/lib32".
Proof.
  apply (dirname_of_joined_path "libvulkan.so.1" ["libc6"] "/usr/lib32" "libvulkan.so.1");
    [discriminate|reflexivity|reflexivity].
Defined.

(** ** The readers of [/proc] *)

Section proc_lemmas.











Lemma split_length sep s :
  length (Str.split sep s) = S (StrMore.count_char sep s).
Proof.
  induction s as [|c s IH]; [done|]. simpl.
  destruct (Str.ascii_eqb c sep); simpl; [by rewrite IH|].
  pose proof (split_nonempty sep s). destruct (Str.split sep s); [done|].
  simpl in *. lia.
Qed.

End proc_lemmas.





(** X6. [get_kernel_version] returns the third of the fields that single
    spaces separate in the first line of [/proc/version], which holds no
    space; it raises [IndexError] when there is no line or when the first
    line has fewer than two spaces. *)
Theorem get_kernel_version_spec :
  Proc.get_kernel_version [] = Err IndexError
  /\ (forall (info : string) (more : list string),
      StrMore.count_char " " info < 2 ->
      Proc.get_kernel_version (info :: more) = Err IndexError)
  /\ (forall (info : string) (more : list string),
      2 <= StrMore.count_char " " info ->
      exists v, Proc.get_kernel_version (info :: more) = Ok v
                /\ Str.has_char " " v = false)
  /\ (forall (a b v rest : string) (more : list string),
      Str.has_char " " a = false -> Str.has_char " " b = false ->
      Str.has_char " " v = false ->
      Proc.get_kernel_version
        ((a +:+ String " " (b +:+ String " " (v +:+ String " " rest))) :: more) = Ok v).
Proof.
  split_and!; [done| | |].
  - intros info more Hcount. unfold Proc.get_kernel_version. simpl.
    rewrite (lookup_ge_None_2 (Str.split " " info) 2); [done|].
    rewrite split_length. lia.
  - intros info more Hcount. unfold Proc.get_kernel_version. simpl.
    destruct (lookup_lt_is_Some_2 (Str.split " " info) 2) as [v Hv].
    { rewrite split_length. lia. }
    rewrite Hv. exists v. split; [done|].
    eapply split_no_sep_inside, list_elem_of_lookup_2, Hv.
  - intros a b v rest more Ha Hb Hv. unfold Proc.get_kernel_version. simpl.
    by rewrite !split_app.
Qed.

Lemma get_kernel_version_spec_witness :
  Proc.get_kernel_version ["Linux version"] = Err IndexError
  /\ Proc.get_kernel_version
       [("Linux" +:+ String " " ("version" +:+ String " "
           ("6.8.0-45-generic" +:+ String " " "(buildd@lcy02) #45-Ubuntu SMP")))]
     = Ok "6.8.0-45-generic".
Proof.
  split.
  - apply (proj1 (proj2 get_kernel_version_spec)). simpl. lia.
  - apply (proj2 (proj2 (proj2 get_kernel_version_spec))); reflexivity.
Defined.

(** ** The folders of the inventory *)

Section counter_lemmas.

Lemma incr_get c x y :
  default 0 (Dict.get x (Counter.incr c y))
  = default 0 (Dict.get x c) + (if decide (y = x) then 1 else 0).
Proof.
  unfold Counter.incr. destruct (decide (y = x)) as [->|Hne].
  - rewrite get_set_eq. simpl. lia.
  - rewrite get_set_ne by done. lia.
Qed.

Lemma of_list_get l acc x :
  default 0 (Dict.get x (fold_left Counter.incr l acc))
  = default 0 (Dict.get x acc) + length (filter (fun y => y = x) l).
Proof.
  revert acc. induction l as [|y l IH]; intros acc; simpl; [lia|].
  rewrite IH, incr_get, filter_cons. destruct (decide (y = x)); simpl; lia.
Qed.

Lemma of_list_keys l acc x :
  x ∈ Dict.keys (fold_left Counter.incr l acc) <-> x ∈ Dict.keys acc \/ x ∈ l.
Proof.
  revert acc. induction l as [|y l IH]; intros acc; simpl.
  - split; [by left|]. intros [H|H]; [done|by apply elem_of_nil in H].
  - rewrite IH. unfold Counter.incr. rewrite keys_set, elem_of_cons.
    destruct (Dict.get y acc) eqn:E.
    + split; [tauto|]. intros [H|[->|H]]; [tauto| |tauto].
      left. destruct (decide (y ∈ Dict.keys acc)) as [H|H]; [done|].
      apply get_None_keys in H. congruence.
    + rewrite elem_of_app, list_elem_of_singleton. tauto.
Qed.

Lemma of_list_NoDup l acc :
  NoDup (Dict.keys acc) -> NoDup (Dict.keys (fold_left Counter.incr l acc)).
Proof.
  revert acc. induction l as [|y l IH]; intros acc H; simpl; [done|].
  apply IH. by apply NoDup_keys_set.
Qed.

Lemma insert_desc_perm x l : Counter.insert_desc x l ≡ₚ x :: l.
Proof.
  induction l as [|y l IH]; simpl; [done|].
  destruct (Nat.ltb (snd x) (snd y)); [|done].
  rewrite IH. apply Permutation_swap.
Qed.

Lemma most_common_perm c : Counter.most_common c ≡ₚ c.
Proof.
  induction c as [|x c IH]; simpl; [done|].
  unfold Counter.most_common in *. simpl. by rewrite insert_desc_perm, IH.
Qed.

Lemma insert_desc_sorted x l :
  StronglySorted by_count l -> StronglySorted by_count (Counter.insert_desc x l).
Proof.
  induction l as [|y l IH]; intros Hl; simpl.
  - apply StronglySorted_cons. split; [done|constructor].
  - apply StronglySorted_cons in Hl as [Hy Hl].
    destruct (Nat.ltb (snd x) (snd y)) eqn:E.
    + apply Nat.ltb_lt in E. apply StronglySorted_cons. split; [|by apply IH].
      rewrite insert_desc_perm. constructor; [unfold by_count; lia|done].
    + apply Nat.ltb_ge in E. apply StronglySorted_cons. split.
      * constructor; [done|]. eapply Forall_impl; [exact Hy|].
        intros z Hz. unfold by_count in *. lia.
      * by apply StronglySorted_cons.
Qed.

Lemma most_common_sorted c : StronglySorted by_count (Counter.most_common c).
Proof.
  induction c as [|x c IH]; [constructor|].
  unfold Counter.most_common in *. simpl. by apply insert_desc_sorted.
Qed.

End counter_lemmas.

Section folder_lemmas.

Lemma bind_singleton_fmap {A B} (f : A -> B) (l : list A) :
  (x ← l; [f x]) = f <$> l.
Proof. induction l as [|x l IH]; [done|]. rewrite bind_cons, IH. done. Qed.

Lemma dirnames_records s :
  (lib_list ← Dict.values (shared_libraries s); lib ← lib_list; [SharedLibrary.dirname lib])
  = SharedLibrary.dirname <$> records (shared_libraries s).
Proof.
  unfold records. induction (Dict.values (shared_libraries s)) as [|l ls IH]; [done|].
  rewrite !bind_cons, fmap_app, IH. by rewrite bind_singleton_fmap.
Qed.

Lemma count_fmap {A} (f : A -> string) (l : list A) x :
  length (filter (fun y => y = x) (f <$> l)) = length (filter (fun a => f a = x) l).
Proof.
  induction l as [|a l IH]; [done|]. rewrite fmap_cons, !filter_cons.
  destruct (decide (f a = x)); simpl; by rewrite IH.
Qed.

Lemma sorted_fst (g : string -> nat) (l : list (string * nat)) :
  StronglySorted by_count l -> (forall p, p ∈ l -> snd p = g (fst p)) ->
  StronglySorted (fun a b => g b <= g a) (map fst l).
Proof.
  induction l as [|p l IH]; intros Hl Hg; [constructor|].
  apply StronglySorted_cons in Hl as [Hp Hl]. simpl.
  apply StronglySorted_cons. split.
  - apply Forall_forall. intros y (q & -> & Hq)%list_elem_of_fmap.
    rewrite Forall_forall in Hp. specialize (Hp q Hq). unfold by_count in Hp.
    rewrite <- (Hg p), <- (Hg q); [done|by apply list_elem_of_further|apply list_elem_of_here].
  - apply IH; [done|]. intros q Hq. by apply Hg, list_elem_of_further.
Qed.

(** The counter of the folders counts the records of each folder. *)
Lemma counter_uses s p :
  p ∈ Counter.of_list (SharedLibrary.dirname <$> records (shared_libraries s)) ->
  snd p = uses s (fst p).
Proof.
  intros Hp. destruct p as [folder n]. simpl.
  apply elem_get in Hp; [|by apply of_list_NoDup, NoDup_nil_2].
  pose proof (of_list_get (SharedLibrary.dirname <$> records (shared_libraries s))
                [] folder) as H.
  unfold Counter.of_list in Hp. rewrite Hp in H. simpl in H.
  by rewrite H, count_fmap.
Qed.

Lemma elem_unless (exported : gset string) a x :
  x ∈ (if decide (a ∈ exported) then [] else [a]) <-> x = a /\ x ∉ exported.
Proof.
  destruct (decide (a ∈ exported)) as [H|H].
  - split; [by intros ?%elem_of_nil|]. by intros [-> ?].
  - rewrite list_elem_of_singleton. split; [by intros ->|by intros [-> _]].
Qed.

Lemma multiarch_yields_same s exported a b :
  LinuxSystem.arch_is "x86_64" s = true ->
  realpath (host s) a = realpath (host s) b ->
  LinuxSystem.multiarch_yields s exported (a, b) = [].
Proof.
  intros Harch Hreal. unfold LinuxSystem.multiarch_yields. simpl.
  rewrite Harch, Hreal. simpl. by rewrite String.eqb_refl.
Qed.

Lemma multiarch_yields_first s exported a b :
  LinuxSystem.arch_is "x86_64" s = false ->
  LinuxSystem.multiarch_yields s exported (a, b)
  = if path_exists (host s) a then (if decide (a ∈ exported) then [] else [a]) else [].
Proof.
  intros Harch. unfold LinuxSystem.multiarch_yields, LinuxSystem.yield_unless_exported.
  simpl. rewrite Harch. simpl. rewrite andb_true_r, app_nil_r. done.
Qed.

(** What a pair of the table yields, for any set of folders seen. *)
Lemma multiarch_yields_elem s exported a b x :
  x ∈ LinuxSystem.multiarch_yields s exported (a, b)
  <-> (x ∉ exported)
      /\ if LinuxSystem.arch_is "x86_64" s
         then (x = a \/ x = b) /\ realpath (host s) a <> realpath (host s) b
              /\ path_exists (host s) a = true /\ path_exists (host s) b = true
         else x = a /\ path_exists (host s) a = true.
Proof.
  destruct (LinuxSystem.arch_is "x86_64" s) eqn:Harch.
  - destruct (decide (realpath (host s) a = realpath (host s) b)) as [Heq|Hne].
    { rewrite multiarch_yields_same by done.
      split; [by intros ?%elem_of_nil|]. by intros (_ & _ & ? & _). }
    destruct (path_exists (host s) a) eqn:Ha; [destruct (path_exists (host s) b) eqn:Hb|].
    + rewrite multiarch_yields_both by done.
      rewrite elem_of_app, !elem_unless. split.
      * intros [[-> H]|[-> H]]; split_and!; auto.
      * intros (H & [->| ->] & _); auto.
    + rewrite (multiarch_yields_not_both s exported a b Harch (or_intror Hb)).
      split; [by intros ?%elem_of_nil|by intros (_ & _ & _ & _ & ?)].
    + rewrite (multiarch_yields_not_both s exported a b Harch (or_introl Ha)).
      split; [by intros ?%elem_of_nil|by intros (_ & _ & _ & ? & _)].
  - rewrite multiarch_yields_first by done.
    destruct (path_exists (host s) a) eqn:Ha.
    + rewrite elem_unless. split; [by intros [-> ?]|by intros (? & -> & _)].
    + split; [by intros ?%elem_of_nil|by intros (_ & _ & ?)].
Qed.

Lemma count_absent (l : list string) x :
  x ∉ l -> length (filter (fun y => y = x) l) = 0.
Proof.
  induction l as [|z l IH]; [done|]. intros [Hne Hl]%not_elem_of_cons.
  rewrite filter_cons, decide_False by done. by apply IH.
Qed.

Lemma count_once (l : list string) x :
  NoDup l -> x ∈ l -> length (filter (fun y => y = x) l) = 1.
Proof.
  induction 1 as [|z l Hz Hl IH]; [by intros ?%elem_of_nil|].
  rewrite filter_cons. destruct (decide (z = x)) as [->|Hne].
  - intros _. simpl. by rewrite count_absent.
  - intros [->|Hx]%elem_of_cons; [done|]. by apply IH.
Qed.

Lemma get_lib_folders_perm s :
  LinuxSystem.get_lib_folders s
  ≡ₚ Dict.keys (Counter.of_list (SharedLibrary.dirname <$> records (shared_libraries s))).
Proof.
  unfold LinuxSystem.get_lib_folders. rewrite dirnames_records.
  unfold Dict.keys. apply fmap_Permutation, most_common_perm.
Qed.

Lemma get_lib_folders_NoDup s : NoDup (LinuxSystem.get_lib_folders s).
Proof. rewrite get_lib_folders_perm. by apply of_list_NoDup, NoDup_nil_2. Qed.

End folder_lemmas.

(** X7. [get_lib_folders] lists each folder once; its folders are the
    folders in which a record of the inventory lies; and a folder comes
    before the folders that hold no more records than it. *)
Theorem get_lib_folders_spec (s : LinuxSystem) :
  NoDup (LinuxSystem.get_lib_folders s)
  /\ (forall folder,
        folder ∈ LinuxSystem.get_lib_folders s
        <-> exists lib, lib ∈ records (shared_libraries s)
                        /\ SharedLibrary.dirname lib = folder)
  /\ StronglySorted (fun a b => uses s b <= uses s a) (LinuxSystem.get_lib_folders s).
Proof.
  split_and!.
  - apply get_lib_folders_NoDup.
  - intros folder. rewrite get_lib_folders_perm. unfold Counter.of_list.
    rewrite of_list_keys, list_elem_of_fmap. split.
    + intros [H|(lib & -> & Hlib)]; [by apply elem_of_nil in H|eauto].
    + intros (lib & Hlib & <-). right. eauto.
  - unfold LinuxSystem.get_lib_folders. rewrite dirnames_records.
    apply sorted_fst; [apply most_common_sorted|].
    intros p Hp. apply counter_uses. by rewrite <- (most_common_perm _).
Qed.

(** X8. What [iter_lib_folders] yields: the folders of the inventory first,
    then paths of the table of pairs that are not folders of the inventory.
    On a 64-bit host such a path is a side of a pair whose sides both exist
    under different real paths; on another host it is the first side of a
    pair and exists.  A folder of the inventory is yielded once. *)
Theorem iter_lib_folders_members (s : LinuxSystem) (x : string) :
  (x ∈ LinuxSystem.iter_lib_folders s
   <-> x ∈ LinuxSystem.get_lib_folders s
       \/ ((x ∉ LinuxSystem.get_lib_folders s)
           /\ exists a b,
               (a, b) ∈ LinuxSystem.multiarch_lib_folders
               /\ if LinuxSystem.arch_is "x86_64" s
                  then (x = a \/ x = b) /\ realpath (host s) a <> realpath (host s) b
                       /\ path_exists (host s) a = true /\ path_exists (host s) b = true
                  else x = a /\ path_exists (host s) a = true))
  /\ (x ∈ LinuxSystem.get_lib_folders s ->
      length (filter (fun y => y = x) (LinuxSystem.iter_lib_folders s)) = 1).
Proof.
  rewrite iter_lib_folders_eq.
  assert (forall y,
    y ∈ (lib_paths ← LinuxSystem.multiarch_lib_folders;
         LinuxSystem.multiarch_yields s (list_to_set (LinuxSystem.get_lib_folders s)) lib_paths)
    <-> ((y ∉ LinuxSystem.get_lib_folders s)
         /\ exists a b,
             (a, b) ∈ LinuxSystem.multiarch_lib_folders
             /\ if LinuxSystem.arch_is "x86_64" s
                then (y = a \/ y = b) /\ realpath (host s) a <> realpath (host s) b
                     /\ path_exists (host s) a = true /\ path_exists (host s) b = true
                else y = a /\ path_exists (host s) a = true)) as Htail.
  { intros y. rewrite list_elem_of_bind. split.
    - intros ([a b] & [Hy Hcond]%multiarch_yields_elem & Hin).
      rewrite elem_of_list_to_set in Hy. eauto 10.
    - intros (Hy & a & b & Hin & Hcond). exists (a, b). split; [|done].
      apply multiarch_yields_elem. by rewrite elem_of_list_to_set. }
  split.
  - by rewrite elem_of_app, Htail.
  - intros Hx. rewrite filter_app, length_app.
    rewrite (count_once _ _ (get_lib_folders_NoDup s) Hx), count_absent; [done|].
    rewrite Htail. by intros [? _].
Qed.

Lemma iter_lib_folders_members_witness :
  let s := LinuxSystem.LINUX_SYSTEM Scenario.synthetic in
  "/usr/lib/x86_64-linux-gnu" ∈ LinuxSystem.get_lib_folders s
  /\ length (filter (fun y => y = "/usr/lib/x86_64-linux-gnu")
               (LinuxSystem.iter_lib_folders s)) = 1.
Proof.
  assert ("/usr/lib/x86_64-linux-gnu"
          ∈ LinuxSystem.get_lib_folders (LinuxSystem.LINUX_SYSTEM Scenario.synthetic)) as H.
  { vm_compute. apply list_elem_of_here. }
  split; [exact H|].
  exact (proj2 (iter_lib_folders_members (LinuxSystem.LINUX_SYSTEM Scenario.synthetic)
                  "/usr/lib/x86_64-linux-gnu") H).
Defined.

(** ** What the methods leave as it is *)

Section keeps_lemmas.
Context {X : Type} (part : LinuxSystem -> X).

Lemma keeps_ret {A} (a : A) : keeps part (LinuxSystem.ret a).
Proof. by intros s. Qed.

Lemma keeps_raise {A} e : keeps part (LinuxSystem.raise (A := A) e).
Proof. by intros s. Qed.

Lemma keeps_read {A} (f : LinuxSystem -> A) : keeps part (LinuxSystem.read f).
Proof. by intros s. Qed.

Lemma keeps_modify f : (forall s, part (f s) = part s) -> keeps part (LinuxSystem.modify f).
Proof. intros H s. apply H. Qed.

Lemma keeps_bind {A B} (m : LinuxSystem.M A) (k : A -> LinuxSystem.M B) :
  keeps part m -> (forall a, keeps part (k a)) -> keeps part (m ≫= k).
Proof.
  intros Hm Hk s. unfold_bind. specialize (Hm s).
  destruct (m s) as [[a|e] s']; simpl in *; [|done]. by rewrite Hk.
Qed.

Lemma keeps_for_each {A} (l : list A) body :
  (forall x, keeps part (body x)) -> keeps part (LinuxSystem.for_each l body).
Proof.
  intros Hbody. induction l as [|x l IH]; simpl; [apply keeps_ret|].
  apply keeps_bind; [apply Hbody|by intros _].
Qed.

Lemma keeps_comprehension {A B} (l : list A) (f : A -> LinuxSystem.M B) :
  (forall x, keeps part (f x)) -> keeps part (LinuxSystem.comprehension l f).
Proof.
  intros Hf. induction l as [|x l IH]; simpl; [apply keeps_ret|].
  apply keeps_bind; [apply Hf|]. intros y.
  apply keeps_bind; [apply IH|]. intros ys. apply keeps_ret.
Qed.

Lemma keeps_try_except {A} (body handler : LinuxSystem.M A) :
  keeps part body -> keeps part handler ->
  keeps part (LinuxSystem.try_except_AttributeError body handler).
Proof.
  intros Hb Hh s. unfold LinuxSystem.try_except_AttributeError. specialize (Hb s).
  destruct (body s) as [[a|[]] s']; simpl in *; try done. by rewrite Hh.
Qed.

Lemma keeps_static_libraries req : keeps part (LinuxSystem.static_libraries req).
Proof.
  unfold LinuxSystem.static_libraries.
  destruct (Dict.get req _); [apply keeps_ret|apply keeps_raise].
Qed.

Lemma keeps_getattr {A} (o : option A) : keeps part (LinuxSystem.getattr o).
Proof. destruct o; [apply keeps_ret|apply keeps_raise]. Qed.

End keeps_lemmas.

(** The queries change the object only where they read the [LIBRARIES]
    cache. *)
Section keeps_queries.
Context {X : Type} (part : LinuxSystem -> X).
Hypothesis part_getitem :
  forall a req, keeps part (LinuxSystem.cache_libraries_getitem a req).

Lemma keeps_get_missing_requirement_libs req :
  keeps part (LinuxSystem.get_missing_requirement_libs req).
Proof.
  apply keeps_bind; [apply keeps_static_libraries|]. intros libs.
  apply keeps_bind; [apply keeps_read|]. intros archs.
  apply keeps_comprehension. intros a.
  apply keeps_bind; [apply part_getitem|]. intros l. apply keeps_ret.
Qed.

Lemma keeps_is_feature_supported feature :
  keeps part (LinuxSystem.is_feature_supported feature).
Proof.
  unfold LinuxSystem.is_feature_supported. destruct (String.eqb feature "ACO").
  - apply keeps_try_except; [|apply keeps_ret].
    apply keeps_bind.
    { apply keeps_bind; [apply keeps_read|]. intros o. apply keeps_getattr. }
    intros info. apply keeps_bind; [apply keeps_getattr|]. intros r.
    apply keeps_bind; [apply keeps_getattr|]. intros v. apply keeps_ret.
  - apply keeps_bind; [apply keeps_get_missing_requirement_libs|]. intros missing.
    destruct (missing !! 0) as [[|]|]; apply keeps_ret || apply keeps_raise.
Qed.

Lemma keeps_get_missing_lib_arch req : keeps part (LinuxSystem.get_missing_lib_arch req).
Proof.
  apply keeps_bind; [apply keeps_read|]. intros archs.
  generalize 0 (@nil string). induction archs as [|a archs IH]; intros i acc; simpl.
  - apply keeps_ret.
  - apply keeps_bind; [apply keeps_get_missing_requirement_libs|]. intros missing.
    destruct (missing !! i) as [[|]|]; [apply IH..|apply keeps_raise].
Qed.

Lemma keeps_dict_comprehension {V} reqs (f : string -> LinuxSystem.M V) acc :
  (forall req, keeps part (f req)) -> keeps part (Queries.dict_comprehension reqs f acc).
Proof.
  intros Hf. revert acc. induction reqs as [|req reqs IH]; intros acc; simpl.
  - apply keeps_ret.
  - apply (keeps_bind part (f req)); [apply Hf|]. intros v. apply IH.
Qed.

Lemma keeps_get_missing_libs : keeps part Queries.get_missing_libs.
Proof.
  apply keeps_bind; [apply keeps_read|]. intros reqs.
  apply keeps_dict_comprehension, keeps_get_missing_requirement_libs.
Qed.

Lemma keeps_gamemode_available x : keeps part (Queries.gamemode_available x).
Proof.
  unfold Queries.gamemode_available.
  destruct (can_find_executable x "gamemoderun"); [apply keeps_ret|].
  apply (keeps_bind part (LinuxSystem.is_feature_supported "GAMEMODE"));
    [apply keeps_is_feature_supported|].
  intros []; apply keeps_ret.
Qed.

Lemma keeps_is_vulkan_supported x : keeps part (Queries.is_vulkan_supported x).
Proof.
  apply keeps_bind; [apply keeps_get_missing_lib_arch|].
  intros [|a l]; apply keeps_ret.
Qed.

End keeps_queries.

(** [populate_libraries] writes to the [LIBRARIES] cache and to the
    inventory only. *)
Section keeps_populate.
Context {X : Type} (part : LinuxSystem -> X).
Hypothesis part_cache : forall c s, part (LinuxSystem.set_cache_LIBRARIES c s) = part s.
Hypothesis part_shared : forall d s, part (LinuxSystem.set_shared_libraries d s) = part s.

Lemma keeps_cache_libraries_getitem a req :
  keeps part (LinuxSystem.cache_libraries_getitem a req).
Proof.
  intros s. unfold LinuxSystem.cache_libraries_getitem.
  destruct (cache_LIBRARIES s !! a) as [d|]; [|done].
  destruct (d !! req); [done|]. apply part_cache.
Qed.

Lemma keeps_cache_libraries_append a req lib :
  keeps part (LinuxSystem.cache_libraries_append a req lib).
Proof.
  apply keeps_bind; [apply keeps_cache_libraries_getitem|].
  intros l. apply keeps_modify. intros s. apply part_cache.
Qed.

Lemma keeps_shared_libraries_getitem lib :
  keeps part (LinuxSystem.shared_libraries_getitem lib).
Proof.
  intros s. unfold LinuxSystem.shared_libraries_getitem.
  destruct (Dict.getitem_default lib (shared_libraries s)). apply part_shared.
Qed.

Lemma keeps_populate_libraries : keeps part LinuxSystem.populate_libraries.
Proof.
  apply keeps_bind; [apply keeps_modify; intros s; apply part_cache|]. intros _.
  apply keeps_bind; [apply keeps_read|]. intros archs.
  apply keeps_bind.
  { apply keeps_for_each. intros a. apply keeps_modify. intros s. apply part_cache. }
  intros _. apply keeps_bind; [apply keeps_read|]. intros reqs.
  apply keeps_for_each. intros req.
  apply keeps_bind; [apply keeps_static_libraries|]. intros libs.
  apply keeps_for_each. intros lib.
  apply keeps_bind; [apply keeps_shared_libraries_getitem|]. intros sls.
  apply keeps_for_each. intros sl. apply keeps_cache_libraries_append.
Qed.

End keeps_populate.

Section observes_lemmas.

Lemma observes_getitem a r a' req :
  keeps (fun s => observes s a r) (LinuxSystem.cache_libraries_getitem a' req).
Proof.
  intros s. unfold LinuxSystem.cache_libraries_getitem.
  destruct (cache_LIBRARIES s !! a') as [d|] eqn:Ed; [|done].
  destruct (d !! req) as [l|] eqn:El; [done|].
  unfold observes. cbn [snd cache_LIBRARIES LinuxSystem.set_cache_LIBRARIES].
  rewrite (view_update _ _ _ _ _ _ _ Ed).
  destruct (decide (a' = a /\ req = r)) as [[<- <-]|]; [|done].
  unfold view. rewrite Ed. simpl. by rewrite El.
Qed.

End observes_lemmas.

(** ** The methods that only write to the log *)

Section logs_only_lemmas.

Lemma add_log_add_logs r s : LinuxSystem.add_log r s = add_logs [r] s.
Proof. reflexivity. Qed.

Lemma get_arch_logs :
  logs_only LinuxSystem.get_arch (fun s => arch_of_machine (machine (host s))).
Proof.
  intros s. unfold LinuxSystem.get_arch, arch_of_machine. unfold_bind.
  unfold LinuxSystem.read, LinuxSystem.ret, LinuxSystem.warning, LinuxSystem.modify.
  destruct (String.eqb (machine (host s)) "x86_64").
  { exists []. by rewrite add_logs_nil. }
  destruct (existsb _ _).
  { exists []. by rewrite add_logs_nil. }
  destruct (Str.contains "armv7" _).
  { exists []. by rewrite add_logs_nil. }
  eexists [_]. done.
Qed.

Lemma get_ldconfig_libs_logs :
  logs_only LinuxSystem.get_ldconfig_libs
    (fun s => match Dict.get "ldconfig" (cache_COMMANDS s) with
              | Some (String c p) =>
                  map (Str.strip_chars (String Str.tab EmptyString))
                    (filter (fun line => Str.startswith (String Str.tab EmptyString) line = true)
                       (Str.split Str.nl (read_process_output (host s) [String c p; "-p"])))
              | _ => []
              end).
Proof.
  intros s. unfold LinuxSystem.get_ldconfig_libs, LinuxSystem.get. unfold_bind.
  unfold LinuxSystem.read, LinuxSystem.ret, LinuxSystem.error, LinuxSystem.modify.
  destruct (Dict.get "ldconfig" (cache_COMMANDS s)) as [[|c p]|].
  - eexists [_]. done.
  - exists []. by rewrite add_logs_nil.
  - eexists [_]. done.
Qed.

Lemma get_shared_libraries_logs :
  logs_only LinuxSystem.get_shared_libraries
    (fun s => inventory_of (LinuxSystem.runtime_architectures s)
                (match Dict.get "ldconfig" (cache_COMMANDS s) with
                 | Some (String c p) =>
                     map (Str.strip_chars (String Str.tab EmptyString))
                       (filter (fun line => Str.startswith (String Str.tab EmptyString) line = true)
                          (Str.split Str.nl (read_process_output (host s) [String c p; "-p"])))
                 | _ => []
                 end) []).
Proof.
  intros s. unfold LinuxSystem.get_shared_libraries. unfold_bind.
  destruct (get_ldconfig_libs_logs s) as [rs ->].
  rewrite get_shared_libraries_loop_eq, add_logs_add_logs. by eexists.
Qed.

Lemma get_glxinfo_logs :
  logs_only LinuxSystem.get_glxinfo
    (fun s => if LinuxSystem.truthy (Dict.get "glxinfo" (cache_COMMANDS s))
              then match display (new_GlxInfo (host s)) with
                   | Some _ => Some (new_GlxInfo (host s))
                   | None => None
                   end
              else None).
Proof.
  intros s. unfold LinuxSystem.get_glxinfo, LinuxSystem.get. unfold_bind.
  unfold LinuxSystem.read, LinuxSystem.ret, LinuxSystem.warning, LinuxSystem.modify.
  destruct (LinuxSystem.truthy _); simpl.
  - destruct (display _).
    + exists []. by rewrite add_logs_nil.
    + eexists [_]. done.
  - exists []. by rewrite add_logs_nil.
Qed.

End logs_only_lemmas.

(** ** The commands that [__init__] finds *)

Section commands_lemmas.

Lemma discover_nonempty h command p : discover h command = Some p -> p <> "".
Proof.
  unfold discover. destruct (if LinuxSystem.truthy _ then _ else _) as [[|c q]|];
    [done| |done]. by intros [= <-].
Qed.

Lemma found_cons h command l d :
  found h (command :: l) d
  = found h l match discover h command with
              | Some p => Dict.set command p d
              | None => d
              end.
Proof. reflexivity. Qed.

(** A command is in the dictionary when it is in the list and found. *)
Lemma found_get h l d command :
  Dict.get command (found h l d)
  = if decide (command ∈ l)
    then match discover h command with
         | Some p => Some p
         | None => Dict.get command d
         end
    else Dict.get command d.
Proof.
  revert d. induction l as [|x l IH]; intros d; [done|].
  rewrite found_cons, IH.
  destruct (decide (command = x)) as [->|Hne].
  - rewrite (decide_True (P := x ∈ x :: l)) by apply list_elem_of_here.
    destruct (discover h x) as [p|] eqn:E; [|by destruct (decide _)].
    rewrite get_set_eq. by destruct (decide _).
  - assert (Dict.get command match discover h x with
                             | Some p => Dict.set x p d
                             | None => d
                             end = Dict.get command d) as ->.
    { destruct (discover h x); [by apply get_set_ne|done]. }
    destruct (decide (command ∈ l)) as [H|H].
    + by rewrite decide_True by (by apply list_elem_of_further).
    + rewrite decide_False; [done|]. by intros [?|?]%elem_of_cons.
Qed.

(** With distinct commands the dictionary holds the commands found, in the
    order of the list. *)
Lemma found_distinct h l d :
  NoDup l -> (forall command, command ∈ l -> command ∉ Dict.keys d) ->
  found h l d
  = d ++ omap (fun command => pair command <$> discover h command) l.
Proof.
  revert d. induction l as [|x l IH]; intros d Hl Hd.
  - simpl. by rewrite app_nil_r.
  - apply NoDup_cons in Hl as [Hx Hl]. rewrite found_cons. simpl.
    destruct (discover h x) as [p|] eqn:E; simpl.
    + assert (Dict.set x p d = d ++ [(x, p)]) as Hset.
      { assert (x ∉ Dict.keys d) as Hxd by apply Hd, list_elem_of_here.
        clear -Hxd. induction d as [|[k v] d IH]; [done|]. simpl in *.
        apply not_elem_of_cons in Hxd as [Hne Hxd]. apply String.eqb_neq in Hne.
        by rewrite Hne, IH. }
      rewrite IH; [|done|].
      * by rewrite Hset, <- app_assoc.
      * intros c Hc. rewrite Hset. unfold Dict.keys. rewrite map_app. simpl.
        intros [H|H%list_elem_of_singleton]%elem_of_app.
        -- by apply (Hd c); [apply list_elem_of_further|].
        -- by subst.
    + apply IH; [done|]. intros c Hc. by apply Hd, list_elem_of_further.
Qed.

Lemma find_command_run key command s :
  key ∈ ["COMMANDS"; "OPTIONAL_COMMANDS"; "TERMINALS"] ->
  exists rs,
    LinuxSystem.find_command key command s
    = (Ok tt,
       LinuxSystem.set_commands key
         match discover (host s) command with
         | Some p => Dict.set command p (LinuxSystem.get_commands key s)
         | None => LinuxSystem.get_commands key s
         end (add_logs rs s)).
Proof.
  intros Hkey. unfold LinuxSystem.find_command, discover. unfold_bind.
  unfold LinuxSystem.read, LinuxSystem.modify, LinuxSystem.warning, LinuxSystem.ret.
  destruct s as [h cc co ct cl a sl g lg]. simpl.
  destruct (if LinuxSystem.truthy (which h command) then which h command
            else LinuxSystem.get_sbin_path h command) as [[|c p]|];
    repeat (apply elem_of_cons in Hkey as [->|Hkey]);
    try (by apply elem_of_nil in Hkey); simpl;
    first [ by (exists []; unfold add_logs, LinuxSystem.set_commands; simpl;
                rewrite app_nil_r)
          | by (eexists [_]; unfold add_logs, LinuxSystem.set_commands,
                  LinuxSystem.add_log; simpl) ].
Qed.

Lemma find_loop_run key l s :
  key ∈ ["COMMANDS"; "OPTIONAL_COMMANDS"; "TERMINALS"] ->
  exists rs,
    LinuxSystem.for_each l (LinuxSystem.find_command key) s
    = (Ok tt,
       LinuxSystem.set_commands key (found (host s) l (LinuxSystem.get_commands key s))
         (add_logs rs s)).
Proof.
  intros Hkey. revert s. induction l as [|command l IH]; intros s.
  - exists []. simpl. unfold LinuxSystem.ret. f_equal.
    destruct s as [h cc co ct cl a sl g lg].
    repeat (apply elem_of_cons in Hkey as [->|Hkey]);
      try (by apply elem_of_nil in Hkey);
      unfold add_logs, LinuxSystem.set_commands; simpl; by rewrite app_nil_r.
  - simpl LinuxSystem.for_each. unfold_bind.
    destruct (find_command_run key command s Hkey) as [rs1 ->].
    destruct (IH (LinuxSystem.set_commands key
                    match discover (host s) command with
                    | Some p => Dict.set command p (LinuxSystem.get_commands key s)
                    | None => LinuxSystem.get_commands key s
                    end (add_logs rs1 s))) as [rs2 ->].
    exists (rs1 ++ rs2). f_equal. rewrite found_cons.
    destruct s as [h cc co ct cl a sl g lg].
    repeat (apply elem_of_cons in Hkey as [->|Hkey]);
      try (by apply elem_of_nil in Hkey);
      unfold add_logs, LinuxSystem.set_commands; simpl; by rewrite app_assoc.
Qed.

Lemma get_commands_set_commands key d s :
  key ∈ ["COMMANDS"; "OPTIONAL_COMMANDS"; "TERMINALS"] ->
  LinuxSystem.get_commands key (LinuxSystem.set_commands key d s) = d.
Proof.
  intros Hkey.
  repeat (apply elem_of_cons in Hkey as [->|Hkey]);
    try (by apply elem_of_nil in Hkey); reflexivity.
Qed.

Lemma set_commands_twice key d d' rs s :
  LinuxSystem.set_commands key d (add_logs rs (LinuxSystem.set_commands key d' s))
  = LinuxSystem.set_commands key d (add_logs rs s).
Proof.
  destruct s as [h cc co ct cl a sl g lg].
  unfold LinuxSystem.set_commands, add_logs. simpl.
  by destruct (String.eqb key "COMMANDS"), (String.eqb key "OPTIONAL_COMMANDS"),
    (String.eqb key "TERMINALS").
Qed.

Lemma find_key_run key s :
  key ∈ ["COMMANDS"; "OPTIONAL_COMMANDS"; "TERMINALS"] ->
  exists rs,
    (LinuxSystem.modify (LinuxSystem.set_commands key []);;
     LinuxSystem.for_each (LinuxSystem.components key) (LinuxSystem.find_command key)) s
    = (Ok tt,
       LinuxSystem.set_commands key (found (host s) (LinuxSystem.components key) [])
         (add_logs rs s)).
Proof.
  intros Hkey. unfold_bind. unfold LinuxSystem.modify.
  destruct (find_loop_run key (LinuxSystem.components key)
              (LinuxSystem.set_commands key [] s) Hkey) as [rs ->].
  exists rs. rewrite (get_commands_set_commands key [] s Hkey).
  change (host (LinuxSystem.set_commands key [] s)) with (host s).
  by rewrite set_commands_twice.
Qed.

Lemma for_each_three {A} (f : A -> LinuxSystem.M unit) a b c s s1 s2 s3 :
  f a s = (Ok tt, s1) -> f b s1 = (Ok tt, s2) -> f c s2 = (Ok tt, s3) ->
  LinuxSystem.for_each [a; b; c] f s = (Ok tt, s3).
Proof.
  intros E1 E2 E3. simpl. unfold_bind. by rewrite E1, E2, E3.
Qed.

(** [find_commands] returns with the three dictionaries of the commands
    found and leaves the rest of the object but the log. *)
Lemma find_commands_run s :
  exists s',
    LinuxSystem.find_commands s = (Ok tt, s')
    /\ caches s' = (found (host s) SYSTEM_COMPONENTS.COMMANDS [],
                    found (host s) SYSTEM_COMPONENTS.OPTIONAL_COMMANDS [],
                    found (host s) SYSTEM_COMPONENTS.TERMINALS [])
    /\ host s' = host s /\ core s' = core s /\ glxinfo s' = glxinfo s.
Proof.
  destruct (find_key_run "COMMANDS" s) as [rs1 E1]; [apply list_elem_of_here|].
  change (LinuxSystem.components "COMMANDS") with SYSTEM_COMPONENTS.COMMANDS in E1.
  revert E1. generalize (found (host s) SYSTEM_COMPONENTS.COMMANDS []).
  intros d1 E1.
  set (s1 := LinuxSystem.set_commands "COMMANDS" d1 (add_logs rs1 s)) in E1.
  destruct (find_key_run "OPTIONAL_COMMANDS" s1) as [rs2 E2];
    [apply list_elem_of_further, list_elem_of_here|].
  change (LinuxSystem.components "OPTIONAL_COMMANDS")
    with SYSTEM_COMPONENTS.OPTIONAL_COMMANDS in E2.
  change (host s1) with (host s) in E2.
  revert E2. generalize (found (host s) SYSTEM_COMPONENTS.OPTIONAL_COMMANDS []).
  intros d2 E2.
  set (s2 := LinuxSystem.set_commands "OPTIONAL_COMMANDS" d2 (add_logs rs2 s1)) in E2.
  destruct (find_key_run "TERMINALS" s2) as [rs3 E3];
    [do 2 apply list_elem_of_further; apply list_elem_of_here|].
  change (LinuxSystem.components "TERMINALS") with SYSTEM_COMPONENTS.TERMINALS in E3.
  change (host s2) with (host s) in E3.
  revert E3. generalize (found (host s) SYSTEM_COMPONENTS.TERMINALS []).
  intros d3 E3.
  exists (LinuxSystem.set_commands "TERMINALS" d3 (add_logs rs3 s2)).
  split.
  - exact (for_each_three
             (fun key =>
                LinuxSystem.modify (LinuxSystem.set_commands key []);;
                LinuxSystem.for_each (LinuxSystem.components key)
                  (LinuxSystem.find_command key))
             "COMMANDS" "OPTIONAL_COMMANDS" "TERMINALS" _ _ _ _ E1 E2 E3).
  - subst s2 s1. by destruct s.
Qed.

End commands_lemmas.

(** ** The object that [__init__] builds *)

Section init_lemmas.

Lemma get_found_COMMANDS h command :
  command ∈ SYSTEM_COMPONENTS.COMMANDS ->
  Dict.get command (found h SYSTEM_COMPONENTS.COMMANDS []) = discover h command.
Proof.
  intros Hin. rewrite found_get, decide_True by done. by destruct (discover h command).
Qed.

Lemma truthy_discover h command :
  LinuxSystem.truthy (discover h command)
  = match discover h command with Some _ => true | None => false end.
Proof.
  destruct (discover h command) as [p|] eqn:E; [|done].
  apply discover_nonempty in E. by destruct p.
Qed.

Lemma ldconfig_lines_eq h :
  match discover h "ldconfig" with
  | Some (String c p) =>
      map (Str.strip_chars (String Str.tab EmptyString))
        (filter (fun line => Str.startswith (String Str.tab EmptyString) line = true)
           (Str.split Str.nl (read_process_output h [String c p; "-p"])))
  | _ => []
  end = ldconfig_lines h.
Proof.
  unfold ldconfig_lines. destruct (discover h "ldconfig") as [p|] eqn:E; [|done].
  apply discover_nonempty in E. by destruct p.
Qed.

Lemma requirements_same_host s s' :
  host s' = host s -> LinuxSystem.requirements s' = LinuxSystem.requirements s.
Proof.
  intros H. unfold LinuxSystem.requirements, LinuxSystem.get_requirements. by rewrite H.
Qed.

Lemma of_requirement_stored (i1 i2 : list (string * list SharedLibrary)) req a r :
  (forall k, stored k i1 = stored k i2) ->
  of_requirement i1 req a r = of_requirement i2 req a r.
Proof.
  intros H. unfold of_requirement. apply list_bind_ext; [|done]. intros lib.
  unfold of_library. by rewrite H.
Qed.

(** [__init__] returns on every object, and what it leaves is read off the
    host. *)
Lemma init_run s :
  exists s',
    LinuxSystem.__init__ s = (Ok tt, s')
    /\ host s' = host s
    /\ caches s' = (found (host s) SYSTEM_COMPONENTS.COMMANDS [],
                    found (host s) SYSTEM_COMPONENTS.OPTIONAL_COMMANDS [],
                    found (host s) SYSTEM_COMPONENTS.TERMINALS [])
    /\ arch s' = arch_of_machine (machine (host s))
    /\ (forall k, stored k (shared_libraries s')
                  = stored k (inventory_of (LinuxSystem.runtime_architectures s')
                                (ldconfig_lines (host s)) []))
    /\ glxinfo s' = probed_glxinfo (host s)
    /\ populated s'
    /\ cache_is (fun a r => req ← LinuxSystem.requirements s';
                            of_requirement (shared_libraries s') req a r) s'.
Proof.
  destruct (find_commands_run s) as (s1 & E1 & Hc1 & Hh1 & Hcore1 & Hg1).
  destruct (get_arch_logs s1) as [rs2 E2]. rewrite Hh1 in E2.
  set (s2 := LinuxSystem.set_arch (arch_of_machine (machine (host s))) (add_logs rs2 s1)).
  assert (host s2 = host s) as Hh2 by done.
  assert (caches s2 = caches s1) as Hc2 by done.
  destruct (get_shared_libraries_logs s2) as [rs3 E3].
  destruct (get_shared_libraries_triple (host s2) s2 eq_refl)
    as (libs & s3' & E3' & _ & Hok).
  assert (cache_COMMANDS s2 = found (host s) SYSTEM_COMPONENTS.COMMANDS []) as Hcc.
  { change (cache_COMMANDS s2) with (caches s1).1.1. by rewrite Hc1. }
  rewrite Hcc, get_found_COMMANDS, Hh2, ldconfig_lines_eq in E3
    by (do 8 apply list_elem_of_further; apply list_elem_of_here).
  remember (inventory_of (LinuxSystem.runtime_architectures s2)
              (ldconfig_lines (host s)) []) as L eqn:Hlibs.
  assert (libs = L /\ s3' = add_logs rs3 s2) as [-> ->] by (split; congruence).
  clear E3'.
  set (s3 := LinuxSystem.set_shared_libraries L (add_logs rs3 s2)).
  assert (inventory_ok (LinuxSystem.runtime_architectures s3) (shared_libraries s3))
    as Hok3 by exact Hok.
  destruct (populate_libraries_run s3 Hok3) as (s4 & E4 & Hframe & Hcache).
  pose proof (populated_after s3 s4 Hok3 Hframe Hcache) as Hpop4.
  pose proof (keeps_populate_libraries caches (fun _ _ => eq_refl) (fun _ _ => eq_refl) s3)
    as Hc4.
  rewrite E4 in Hc4. simpl in Hc4.
  destruct Hframe as (Hh4 & Ha4 & _ & Hst4 & _).
  destruct (get_glxinfo_logs s4) as [rs5 E5].
  assert (cache_COMMANDS s4 = found (host s) SYSTEM_COMPONENTS.COMMANDS []) as Hcc4.
  { change (cache_COMMANDS s4) with (caches s4).1.1. rewrite Hc4.
    change (caches s3) with (caches s1). by rewrite Hc1. }
  rewrite Hcc4, get_found_COMMANDS, truthy_discover, Hh4 in E5
    by (do 2 apply list_elem_of_further; apply list_elem_of_here).
  change (host s3) with (host s2) in E5. rewrite Hh2 in E5.
  exists (LinuxSystem.set_glxinfo (probed_glxinfo (host s)) (add_logs rs5 s4)).
  split.
  { unfold LinuxSystem.__init__. unfold_bind. rewrite E1, E2.
    unfold LinuxSystem.modify at 1. fold s2. rewrite E3.
    unfold LinuxSystem.modify at 1. fold s3. rewrite E4, E5.
    unfold LinuxSystem.modify, probed_glxinfo.
    by destruct (discover (host s) "glxinfo"). }
  split; [change (host s4 = host s); rewrite Hh4; exact Hh2|].
  split.
  { change (caches (LinuxSystem.set_glxinfo _ _)) with (caches s4).
    rewrite Hc4. change (caches s3) with (caches s1). done. }
  split; [exact Ha4|].
  split.
  { intros k.
    change (shared_libraries (LinuxSystem.set_glxinfo _ _)) with (shared_libraries s4).
    rewrite Hst4.
    change (shared_libraries s3) with L. rewrite Hlibs.
    f_equal. f_equal. unfold LinuxSystem.runtime_architectures.
    change (arch (LinuxSystem.set_glxinfo _ _)) with (arch s4). by rewrite Ha4. }
  split; [done|].
  split; [eapply populated_core; [|exact Hpop4]; done|].
  intros a r.
  change (view (cache_LIBRARIES s4) a r
          = req ← LinuxSystem.requirements s4;
            of_requirement (shared_libraries s4) req a r).
  rewrite (Hcache a r), (requirements_same_host s3 s4 Hh4).
  apply list_bind_ext; [|done]. intros req. by apply of_requirement_stored.
Qed.

Lemma built_facts h :
  host (LinuxSystem.LINUX_SYSTEM h) = h
  /\ caches (LinuxSystem.LINUX_SYSTEM h)
     = (found h SYSTEM_COMPONENTS.COMMANDS [],
        found h SYSTEM_COMPONENTS.OPTIONAL_COMMANDS [],
        found h SYSTEM_COMPONENTS.TERMINALS [])
  /\ arch (LinuxSystem.LINUX_SYSTEM h) = arch_of_machine (machine h)
  /\ (forall k, stored k (shared_libraries (LinuxSystem.LINUX_SYSTEM h))
                = stored k (inventory_of
                              (LinuxSystem.runtime_architectures (LinuxSystem.LINUX_SYSTEM h))
                              (ldconfig_lines h) []))
  /\ glxinfo (LinuxSystem.LINUX_SYSTEM h) = probed_glxinfo h
  /\ populated (LinuxSystem.LINUX_SYSTEM h)
  /\ cache_is (fun a r => req ← LinuxSystem.requirements (LinuxSystem.LINUX_SYSTEM h);
                          of_requirement (shared_libraries (LinuxSystem.LINUX_SYSTEM h))
                            req a r)
       (LinuxSystem.LINUX_SYSTEM h).
Proof.
  destruct (init_run (LinuxSystem.blank h)) as (s' & E & H).
  unfold LinuxSystem.LINUX_SYSTEM. rewrite E. exact H.
Qed.

End init_lemmas.

(** ** What the built object holds *)

Section built_lemmas.

Lemma existsb_eqb_elem_of (x : string) (l : list string) :
  existsb (String.eqb x) l = true <-> x ∈ l.
Proof.
  rewrite existsb_exists. split.
  - intros [y [Hin ->%String.eqb_eq]]. by apply list_elem_of_In.
  - intros Hin. exists x. split; [by apply list_elem_of_In|apply String.eqb_refl].
Qed.

(** What the loop of [get_shared_libraries] stores under a name. *)
Lemma stored_inventory_of archs lines acc k :
  stored k (inventory_of archs lines acc)
  = stored k acc
    ++ filter (fun lib => name lib = k /\ SharedLibrary.arch lib ∈ archs) (parsed lines).
Proof.
  revert acc. induction lines as [|line lines IH]; intros acc; simpl.
  - by rewrite app_nil_r.
  - destruct (SharedLibrary.new_from_ldconfig line) as [lib|e]; [|apply IH].
    rewrite filter_cons.
    destruct (existsb _ _) eqn:E.
    + apply existsb_eqb_elem_of in E. rewrite IH.
      destruct (decide (name lib = k)) as [<-|Hne].
      * rewrite stored_append_eq, decide_True by done. by rewrite <- app_assoc.
      * rewrite stored_append_ne by done.
        by rewrite decide_False by (by intros [? _]).
    + rewrite IH, decide_False; [done|]. intros [_ Hin].
      apply existsb_eqb_elem_of in Hin. congruence.
Qed.

Lemma architectures_of_machine machine :
  match arch_of_machine machine with
  | Some a => if String.eqb a "x86_64" then ["i386"; "x86_64"] else ["i386"]
  | None => ["i386"]
  end = if String.eqb machine "x86_64" then ["i386"; "x86_64"] else ["i386"].
Proof.
  unfold arch_of_machine. destruct (String.eqb machine "x86_64"); [done|].
  destruct (existsb _ _); [done|]. by destruct (Str.contains _ _).
Qed.

Lemma built_architectures h :
  LinuxSystem.runtime_architectures (LinuxSystem.LINUX_SYSTEM h)
  = if String.eqb (machine h) "x86_64" then ["i386"; "x86_64"] else ["i386"].
Proof.
  destruct (built_facts h) as (_ & _ & Harch & _).
  unfold LinuxSystem.runtime_architectures. rewrite Harch.
  apply architectures_of_machine.
Qed.

Lemma NoDup_TERMINALS : NoDup SYSTEM_COMPONENTS.TERMINALS.
Proof. apply (bool_decide_unpack _). by vm_compute. Qed.

Lemma values_found h l :
  Dict.values (omap (fun command => pair command <$> discover h command) l)
  = omap (discover h) l.
Proof.
  unfold Dict.values. induction l as [|x l IH]; [done|]. csimpl.
  destruct (discover h x); csimpl; [by f_equal|done].
Qed.

Lemma built_terminals h :
  Dict.values (cache_TERMINALS (LinuxSystem.LINUX_SYSTEM h))
  = omap (discover h) SYSTEM_COMPONENTS.TERMINALS.
Proof.
  destruct (built_facts h) as (_ & Hcaches & _).
  change (cache_TERMINALS (LinuxSystem.LINUX_SYSTEM h))
    with (caches (LinuxSystem.LINUX_SYSTEM h)).2.
  rewrite Hcaches. cbn [snd].
  rewrite found_distinct; [apply values_found|apply NoDup_TERMINALS|].
  intros c _ H. by apply elem_of_nil in H.
Qed.

Lemma get_terminals_built_eq h :
  Queries.get_terminals (LinuxSystem.LINUX_SYSTEM h)
  = (Ok (omap (discover h) SYSTEM_COMPONENTS.TERMINALS), LinuxSystem.LINUX_SYSTEM h).
Proof.
  unfold Queries.get_terminals, LinuxSystem.read. by rewrite built_terminals.
Qed.

Lemma omap_discover_nonempty h (l : list string) p :
  p ∈ omap (discover h) l -> p <> "".
Proof.
  intros (c & _ & Hc)%list_elem_of_omap. by eapply discover_nonempty.
Qed.

End built_lemmas.

(** X9. The runtime architectures of the built object follow from the
    machine name alone: [i386] and [x86_64] on an [x86_64] machine, and
    [i386] only on every other machine, also on [armv7] and on a machine
    that [get_arch] does not know. *)
Theorem built_runtime_architectures h :
  arch (LinuxSystem.LINUX_SYSTEM h) = arch_of_machine (machine h)
  /\ LinuxSystem.runtime_architectures (LinuxSystem.LINUX_SYSTEM h)
     = if String.eqb (machine h) "x86_64" then ["i386"; "x86_64"] else ["i386"].
Proof.
  split; [|apply built_architectures]. by destruct (built_facts h) as (_ & _ & Harch & _).
Qed.

(** X10. The inventory of the built object holds under a name the records
    of the [ldconfig] listing that parse, carry that name and an
    architecture of the machine, in the order of the listing, and nothing
    else. *)
Theorem built_inventory h k :
  stored k (shared_libraries (LinuxSystem.LINUX_SYSTEM h))
  = listed (if String.eqb (machine h) "x86_64" then ["i386"; "x86_64"] else ["i386"]) h k.
Proof.
  destruct (built_facts h) as (_ & _ & _ & Hstored & _).
  rewrite Hstored, stored_inventory_of, built_architectures. done.
Qed.

(** X11. On the built object [get] answers for the commands of the
    [COMMANDS] table only, with the path found at start: for an optional
    command or a terminal it returns [None] also when it is installed; it
    leaves the object as it is. *)
Theorem get_built h command :
  LinuxSystem.get command (LinuxSystem.LINUX_SYSTEM h)
  = (Ok (if decide (command ∈ SYSTEM_COMPONENTS.COMMANDS)
         then discover h command else None),
     LinuxSystem.LINUX_SYSTEM h).
Proof.
  destruct (built_facts h) as (_ & Hcaches & _).
  unfold LinuxSystem.get, LinuxSystem.read. f_equal. f_equal.
  change (cache_COMMANDS (LinuxSystem.LINUX_SYSTEM h))
    with (caches (LinuxSystem.LINUX_SYSTEM h)).1.1.
  rewrite Hcaches. cbn [fst]. rewrite found_get.
  destruct (decide _); [|done]. by destruct (discover h command).
Qed.

(** X12. [get_terminals] on the built object returns the paths of the
    terminals that were found, in the order of the [TERMINALS] table, and
    leaves the object as it is. *)
Theorem get_terminals_built h :
  Queries.get_terminals (LinuxSystem.LINUX_SYSTEM h)
  = (Ok (omap (discover h) SYSTEM_COMPONENTS.TERMINALS), LinuxSystem.LINUX_SYSTEM h).
Proof. apply get_terminals_built_eq. Qed.

(** X13. [get_required_default_terminal] on the built object returns the
    path of the first terminal of the [TERMINALS] table that was found and
    raises [MisconfigurationError] exactly when none was found; in that
    case one error is logged. *)
Theorem get_required_default_terminal_built h :
  match omap (discover h) SYSTEM_COMPONENTS.TERMINALS with
  | term :: _ =>
      Queries.get_required_default_terminal (LinuxSystem.LINUX_SYSTEM h)
      = (Ok (inr term), LinuxSystem.LINUX_SYSTEM h)
  | [] =>
      Queries.get_required_default_terminal (LinuxSystem.LINUX_SYSTEM h)
      = (Ok (inl (Misconfiguration "No terminal emulator could be detected.")),
         add_logs [{| lvl := ERROR; message := "Couldn't find a terminal emulator." |}]
           (LinuxSystem.LINUX_SYSTEM h))
  end.
Proof.
  unfold Queries.get_required_default_terminal, Queries.get_default_terminal,
    Queries.get_terminal_apps.
  unfold_bind. rewrite get_terminals_built_eq.
  destruct (omap (discover h) SYSTEM_COMPONENTS.TERMINALS) as [|term terms] eqn:E.
  - done.
  - assert (term <> "") as Hne.
    { apply (omap_discover_nonempty h SYSTEM_COMPONENTS.TERMINALS).
      rewrite E. apply list_elem_of_here. }
    by destruct term.
Qed.

(** ** The queries on a populated object *)

Section query_lemmas.

Lemma missing_nil (D P : gset string) : elements (D ∖ P) = [] <-> D ⊆ P.
Proof.
  rewrite elements_empty_iff. split.
  - apply empty_difference_subseteq.
  - apply subseteq_empty_difference.
Qed.

Lemma runtime_architectures_arch s s' :
  arch s' = arch s ->
  LinuxSystem.runtime_architectures s' = LinuxSystem.runtime_architectures s.
Proof. intros H. unfold LinuxSystem.runtime_architectures. by rewrite H. Qed.

Lemma present_libs_shared s s' a :
  shared_libraries s' = shared_libraries s -> present_libs s' a = present_libs s a.
Proof. intros H. unfold present_libs. by rewrite H. Qed.

Lemma runtime_architectures_first s :
  exists rest, LinuxSystem.runtime_architectures s = "i386" :: rest.
Proof.
  unfold LinuxSystem.runtime_architectures.
  destruct (arch s) as [a|]; [destruct (String.eqb a "x86_64")|]; by eexists.
Qed.

Lemma required_requirements s req :
  req ∈ LinuxSystem.required_components ++ LinuxSystem.optional_components ->
  req ∈ LinuxSystem.requirements s.
Proof.
  intros H. unfold LinuxSystem.requirements, LinuxSystem.get_requirements.
  destruct (is_amd (host s)); [|done]. apply elem_of_app. by left.
Qed.

(** The loop of [get_missing_lib_arch] from the architecture at [length pre]
    on. *)
Lemma get_missing_lib_arch_loop_run s0 req :
  populated s0 -> req ∈ LinuxSystem.requirements s0 ->
  forall archs pre acc s,
    LinuxSystem.runtime_architectures s0 = pre ++ archs ->
    populated s -> host s = host s0 -> arch s = arch s0 ->
    shared_libraries s = shared_libraries s0 ->
    exists s',
      LinuxSystem.get_missing_lib_arch_loop req (length pre) archs acc s
      = (Ok (acc ++ filter (fun a => declared_libs req ⊈ present_libs s0 a) archs), s')
      /\ populated s' /\ host s' = host s0 /\ arch s' = arch s0
      /\ shared_libraries s' = shared_libraries s0.
Proof.
  intros Hpop0 Hreq0. induction archs as [|a archs IH]; intros pre acc s Hpre Hpop Hh Ha Hsh.
  - exists s. simpl. by rewrite app_nil_r.
  - destruct (get_missing_requirement_libs_run s req Hpop) as (s1 & E & Hpop1 & Hh1 & Ha1 & Hsh1).
    { by rewrite (requirements_same_host _ _ Hh). }
    rewrite (runtime_architectures_arch _ _ Ha), Hpre in E.
    cbn [LinuxSystem.get_missing_lib_arch_loop]. unfold_bind. rewrite E.
    rewrite list_lookup_fmap, list_lookup_middle by done. cbn [fmap option_fmap option_map].
    rewrite (present_libs_shared _ _ _ Hsh).
    destruct (IH (pre ++ [a])) with (s := s1)
      (acc := if decide (declared_libs req ⊈ present_libs s0 a) then acc ++ [a] else acc)
      as (s' & E' & H').
    { by rewrite <- app_assoc. }
    { done. } { congruence. } { congruence. } { congruence. }
    rewrite length_app, Nat.add_1_r in E'.
    exists s'. split; [|done]. rewrite filter_cons.
    destruct (elements _) as [|x xs] eqn:El.
    + apply missing_nil in El. rewrite decide_False in E' |- * by (by intros []).
      exact E'.
    + assert (declared_libs req ⊈ present_libs s0 a) as Hn.
      { intros Hsub%missing_nil. congruence. }
      rewrite decide_True in E' |- * by done.
      rewrite E'. by rewrite <- app_assoc.
Qed.

(** On a populated object [get_missing_lib_arch] returns the architectures
    that miss a declared library, in the order of the machine. *)
Lemma get_missing_lib_arch_run s req :
  populated s -> req ∈ LinuxSystem.requirements s ->
  exists s',
    LinuxSystem.get_missing_lib_arch req s
    = (Ok (filter (fun a => declared_libs req ⊈ present_libs s a)
             (LinuxSystem.runtime_architectures s)), s')
    /\ populated s' /\ host s' = host s /\ arch s' = arch s
    /\ shared_libraries s' = shared_libraries s.
Proof.
  intros Hpop Hreq. unfold LinuxSystem.get_missing_lib_arch. unfold_bind.
  unfold LinuxSystem.read.
  apply (get_missing_lib_arch_loop_run s req Hpop Hreq
           (LinuxSystem.runtime_architectures s) [] [] s); done.
Qed.

(** On a populated object a feature other than [ACO] is supported when the
    first architecture, [i386], misses none of its libraries. *)
Lemma is_feature_supported_run s feature :
  populated s -> feature ∈ LinuxSystem.requirements s ->
  exists s',
    LinuxSystem.is_feature_supported feature s
    = (Ok (bool_decide (declared_libs feature ⊆ present_libs s "i386")), s')
    /\ populated s' /\ host s' = host s /\ arch s' = arch s
    /\ shared_libraries s' = shared_libraries s.
Proof.
  intros Hpop Hreq. destruct (requirements_declared s feature Hreq) as [Hne _].
  apply String.eqb_neq in Hne.
  destruct (get_missing_requirement_libs_run s feature Hpop Hreq) as (s' & E & H').
  exists s'. split; [|done].
  unfold LinuxSystem.is_feature_supported. rewrite Hne. unfold_bind. rewrite E.
  destruct (runtime_architectures_first s) as [rest ->]. cbn [map lookup list_lookup].
  destruct (elements _) as [|x xs] eqn:El.
  - apply missing_nil in El. by rewrite bool_decide_eq_true_2.
  - rewrite bool_decide_eq_false_2; [done|]. intros Hsub%missing_nil. congruence.
Qed.

Lemma dict_comprehension_run {V} (I : LinuxSystem -> Prop) (f : string -> LinuxSystem.M V)
  (g : string -> V) reqs :
  (forall req, req ∈ reqs -> hoare I (f req) (fun v s => v = g req /\ I s)) ->
  forall acc,
    hoare I (Queries.dict_comprehension reqs f acc)
      (fun d s => d = fold_left (fun d req => Dict.set req (g req) d) reqs acc /\ I s).
Proof.
  induction reqs as [|req reqs IH]; intros Hf acc s Hs; simpl.
  - by exists acc, s.
  - destruct (Hf req (list_elem_of_here _ _) s Hs) as (v & s1 & E & -> & Hs1).
    destruct (IH (fun r Hr => Hf r (list_elem_of_further _ _ _ Hr))
                (Dict.set req (g req) acc) s1 Hs1) as (d & s2 & E2 & Hd & Hs2).
    exists d, s2. split; [|done]. unfold LinuxSystem.bind. by rewrite E.
Qed.

Lemma get_fold_set {V} (g : string -> V) reqs acc req :
  Dict.get req (fold_left (fun d r => Dict.set r (g r) d) reqs acc)
  = if decide (req ∈ reqs) then Some (g req) else Dict.get req acc.
Proof.
  revert acc. induction reqs as [|r reqs IH]; intros acc; [done|]. simpl. rewrite IH.
  destruct (decide (req = r)) as [->|Hne].
  - rewrite get_set_eq, (decide_True (P := r ∈ r :: reqs)) by apply list_elem_of_here.
    by destruct (decide _).
  - rewrite get_set_ne by done.
    destruct (decide (req ∈ reqs)) as [H|H].
    + by rewrite decide_True by (by apply list_elem_of_further).
    + rewrite decide_False; [done|]. by intros [?|?]%elem_of_cons.
Qed.

Lemma keys_set_fresh {V} k (v : V) d :
  k ∉ Dict.keys d -> Dict.keys (Dict.set k v d) = Dict.keys d ++ [k].
Proof.
  induction d as [|[k' v'] d IH]; [done|]. simpl.
  intros [Hne Hk]%not_elem_of_cons. apply String.eqb_neq in Hne. rewrite Hne.
  simpl. by rewrite IH.
Qed.

Lemma keys_fold_set {V} (g : string -> V) reqs acc :
  NoDup reqs -> (forall r, r ∈ reqs -> r ∉ Dict.keys acc) ->
  Dict.keys (fold_left (fun d r => Dict.set r (g r) d) reqs acc) = Dict.keys acc ++ reqs.
Proof.
  revert acc. induction reqs as [|r reqs IH]; intros acc Hnd Hacc; simpl.
  - by rewrite app_nil_r.
  - apply NoDup_cons in Hnd as [Hr Hnd].
    assert (r ∉ Dict.keys acc) as Hfresh by apply Hacc, list_elem_of_here.
    rewrite IH, keys_set_fresh, <- app_assoc; [done..|].
    intros r' Hr'. rewrite keys_set_fresh by done.
    intros [H|H%list_elem_of_singleton]%elem_of_app.
    + by apply (Hacc r'); [apply list_elem_of_further|].
    + by subst.
Qed.

Lemma NoDup_requirements s : NoDup (LinuxSystem.requirements s).
Proof.
  unfold LinuxSystem.requirements, LinuxSystem.get_requirements.
  destruct (is_amd (host s)); apply (bool_decide_unpack _); by vm_compute.
Qed.

End query_lemmas.

Section built_query_lemmas.

Lemma built_populated h : populated (LinuxSystem.LINUX_SYSTEM h).
Proof. by destruct (built_facts h) as (_ & _ & _ & _ & _ & H & _). Qed.

(** A library is present on the built object for an architecture when the
    listing has a record of it with that architecture, for an architecture
    of the machine. *)
Lemma present_libs_built h a lib :
  lib ∈ present_libs (LinuxSystem.LINUX_SYSTEM h) a
  <-> exists shared_lib,
        shared_lib ∈ parsed (ldconfig_lines h)
        /\ name shared_lib = lib /\ SharedLibrary.arch shared_lib = a
        /\ a ∈ LinuxSystem.runtime_architectures (LinuxSystem.LINUX_SYSTEM h).
Proof.
  destruct (built_facts h) as (_ & _ & _ & Hstored & _ & [Hok _] & _).
  rewrite (present_libs_stored _ _ _ Hok), Hstored, stored_inventory_of. simpl.
  split.
  - intros (sl & [[Hname Harch] Hin]%list_elem_of_filter & Ha). exists sl. by subst.
  - intros (sl & Hin & Hname & Ha & Harch). exists sl. split; [|done].
    apply list_elem_of_filter. by subst.
Qed.

Lemma declared_single req lib (P : gset string) :
  Dict.get req SYSTEM_COMPONENTS.LIBRARIES = Some [lib] ->
  declared_libs req ⊆ P <-> lib ∈ P.
Proof.
  intros H. unfold declared_libs. rewrite H. cbn [default].
  rewrite elem_of_subseteq. split.
  - intros Hsub. apply Hsub, elem_of_list_to_set, list_elem_of_here.
  - intros Hin y Hy%elem_of_list_to_set. by apply list_elem_of_singleton in Hy as ->.
Qed.

End built_query_lemmas.

(** X14. On the built object [get_missing_lib_arch] returns, for a
    requirement of the host, the architectures of the machine for which a
    declared library is not present, in the order of the machine; the index
    into the report is never out of range. *)
Theorem get_missing_lib_arch_built (h : Host) (req : string) :
  let s := LinuxSystem.LINUX_SYSTEM h in
  req ∈ LinuxSystem.requirements s ->
  exists s',
    LinuxSystem.get_missing_lib_arch req s
    = (Ok (filter (fun a => declared_libs req ⊈ present_libs s a)
             (LinuxSystem.runtime_architectures s)), s').
Proof.
  intros s Hreq.
  destruct (get_missing_lib_arch_run s req (built_populated h) Hreq) as (s' & E & _).
  by exists s'.
Qed.

Lemma get_missing_lib_arch_built_witness :
  let s := LinuxSystem.LINUX_SYSTEM Scenario.vulkan32 in
  exists s',
    LinuxSystem.get_missing_lib_arch "VULKAN" s
    = (Ok (filter (fun a => declared_libs "VULKAN" ⊈ present_libs s a)
             (LinuxSystem.runtime_architectures s)), s').
Proof.
  apply (get_missing_lib_arch_built Scenario.vulkan32 "VULKAN").
  apply list_elem_of_further, list_elem_of_here.
Defined.

(** X15. On the built object [is_vulkan_supported] returns [True] exactly
    when [libvulkan.so.1] is present for every architecture of the machine
    and the Vulkan query succeeds: on a 64-bit machine the 32-bit library
    is needed as well. *)
Theorem is_vulkan_supported_built (h : Host) (x : Collaborators) :
  let s := LinuxSystem.LINUX_SYSTEM h in
  exists b s',
    Queries.is_vulkan_supported x s = (Ok b, s')
    /\ (b = true
        <-> (forall a, a ∈ LinuxSystem.runtime_architectures s ->
                       "libvulkan.so.1" ∈ present_libs s a)
            /\ vkquery_is_vulkan_supported x = true).
Proof.
  intros s.
  destruct (get_missing_lib_arch_run s "VULKAN" (built_populated h)) as (s' & E & _).
  { apply required_requirements. apply list_elem_of_further, list_elem_of_here. }
  unfold Queries.is_vulkan_supported. unfold_bind. rewrite E.
  assert (forall a, declared_libs "VULKAN" ⊆ present_libs s a
                    <-> "libvulkan.so.1" ∈ present_libs s a) as Hsub.
  { intros a. by apply declared_single. }
  destruct (filter _ _) as [|a0 rest] eqn:Ef.
  - eexists _, _. split; [done|]. split; [|by intros [_ ?]].
    intros Hb. split; [|done]. intros a Ha. apply (proj1 (Hsub a)).
    destruct (decide (declared_libs "VULKAN" ⊆ present_libs s a)) as [Hy|Hn];
      [exact Hy|].
    assert (a ∈ filter (fun a => declared_libs "VULKAN" ⊈ present_libs s a)
                  (LinuxSystem.runtime_architectures s)) as Hin
      by (by apply list_elem_of_filter).
    rewrite Ef in Hin. by apply elem_of_nil in Hin.
  - eexists _, _. split; [done|]. split; [done|]. intros [Hall _].
    assert (a0 ∈ filter (fun a => declared_libs "VULKAN" ⊈ present_libs s a)
                   (LinuxSystem.runtime_architectures s)) as Hin
      by (rewrite Ef; apply list_elem_of_here).
    apply list_elem_of_filter in Hin as [Hn Ha0]. destruct Hn.
    apply (proj2 (Hsub a0)), Hall, Ha0.
Qed.

(** X16. On the built object [gamemode_available] returns [True] exactly
    when [gamemoderun] can be found or the [i386] architecture has
    [libgamemodeauto.so]; a 64-bit copy of the library alone does not
    count. *)
Theorem gamemode_available_built (h : Host) (x : Collaborators) :
  let s := LinuxSystem.LINUX_SYSTEM h in
  exists b s',
    Queries.gamemode_available x s = (Ok b, s')
    /\ (b = true
        <-> can_find_executable x "gamemoderun" = true
            \/ "libgamemodeauto.so" ∈ present_libs s "i386").
Proof.
  intros s. unfold Queries.gamemode_available.
  destruct (can_find_executable x "gamemoderun") eqn:Ex.
  { eexists _, _. split; [done|]. split; [by left|done]. }
  destruct (is_feature_supported_run s "GAMEMODE" (built_populated h)) as (s' & E & _).
  { apply required_requirements. do 4 apply list_elem_of_further. apply list_elem_of_here. }
  unfold LinuxSystem.bind. rewrite E.
  assert (declared_libs "GAMEMODE" ⊆ present_libs s "i386"
          <-> "libgamemodeauto.so" ∈ present_libs s "i386") as Hsub.
  { by apply declared_single. }
  destruct (bool_decide _) eqn:Eb.
  - apply bool_decide_eq_true_1 in Eb. eexists _, _. split; [done|].
    split; [|done]. intros _. right. exact (proj1 Hsub Eb).
  - apply bool_decide_eq_false_1 in Eb. eexists _, _. split; [done|].
    split; [done|]. intros [?|H]; [done|]. destruct Eb. exact (proj2 Hsub H).
Qed.

(** X17. On the built object [get_missing_libs] returns a dictionary whose
    keys are the requirements of the host, in their order, and that holds
    for each requirement the report of [get_missing_requirement_libs]: for
    each architecture of the machine the declared libraries that are not
    present. *)
Theorem get_missing_libs_built (h : Host) :
  let s := LinuxSystem.LINUX_SYSTEM h in
  exists d s',
    Queries.get_missing_libs s = (Ok d, s')
    /\ Dict.keys d = LinuxSystem.requirements s
    /\ forall req,
         Dict.get req d
         = if decide (req ∈ LinuxSystem.requirements s)
           then Some (map (fun a => elements (declared_libs req ∖ present_libs s a))
                        (LinuxSystem.runtime_architectures s))
           else None.
Proof.
  intros s.
  pose (I := fun s' => populated s' /\ host s' = host s /\ arch s' = arch s
                       /\ shared_libraries s' = shared_libraries s).
  destruct (dict_comprehension_run I LinuxSystem.get_missing_requirement_libs
              (fun req => map (fun a => elements (declared_libs req ∖ present_libs s a))
                            (LinuxSystem.runtime_architectures s))
              (LinuxSystem.requirements s)) with (acc := @nil (string * list (list string)))
                                                 (s := s)
    as (d & s' & E & -> & _).
  - intros req Hreq s1 (Hpop1 & Hh1 & Ha1 & Hsh1).
    destruct (get_missing_requirement_libs_run s1 req Hpop1) as (s2 & E & Hpop2 & Hh2 & Ha2 & Hsh2).
    { by rewrite (requirements_same_host _ _ Hh1). }
    eexists _, s2. split; [exact E|]. split.
    + rewrite (runtime_architectures_arch _ _ Ha1). apply map_ext. intros a.
      by rewrite (present_libs_shared _ _ _ Hsh1).
    + unfold I. split_and!; congruence.
  - unfold I. split_and!; [apply built_populated|done..].
  - eexists _, s'. split.
    { unfold Queries.get_missing_libs. unfold_bind. unfold LinuxSystem.read. exact E. }
    split.
    + rewrite keys_fold_set; [done|apply NoDup_requirements|].
      intros r _ H. by apply elem_of_nil in H.
    + intros req. by rewrite get_fold_set.
Qed.

(** X18. When [ldconfig] is not found, neither on the path nor in the
    [sbin] folders, the inventory of the built object is empty and every
    library declared for a requirement of the host is reported missing for
    every architecture of the machine. *)
Theorem missing_without_ldconfig (h : Host) (req : string) :
  let s := LinuxSystem.LINUX_SYSTEM h in
  discover h "ldconfig" = None ->
  req ∈ LinuxSystem.requirements s ->
  (forall k, stored k (shared_libraries s) = [])
  /\ exists s',
       LinuxSystem.get_missing_requirement_libs req s
       = (Ok (map (fun _ => elements (declared_libs req))
                (LinuxSystem.runtime_architectures s)), s').
Proof.
  intros s Hno Hreq.
  assert (ldconfig_lines h = []) as Hlines by (unfold ldconfig_lines; by rewrite Hno).
  split.
  { intros k. destruct (built_facts h) as (_ & _ & _ & Hstored & _).
    fold s in Hstored. by rewrite Hstored, stored_inventory_of, Hlines. }
  destruct (get_missing_requirement_libs_run s req (built_populated h) Hreq)
    as (s' & E & _).
  exists s'. rewrite E. f_equal. f_equal. apply map_ext. intros a. f_equal.
  apply set_eq. intros lib. rewrite elem_of_difference. split; [by intros []|].
  intros Hlib. split; [done|].
  intros (sl & Hin & _)%present_libs_built. rewrite Hlines in Hin.
  by apply elem_of_nil in Hin.
Qed.

Lemma missing_without_ldconfig_witness :
  let s := LinuxSystem.LINUX_SYSTEM bare_host in
  (forall k, stored k (shared_libraries s) = [])
  /\ exists s',
       LinuxSystem.get_missing_requirement_libs "OPENGL" s
       = (Ok (map (fun _ => elements (declared_libs "OPENGL"))
                (LinuxSystem.runtime_architectures s)), s').
Proof.
  apply (missing_without_ldconfig bare_host "OPENGL").
  - reflexivity.
  - apply list_elem_of_here.
Defined.

(** X19. On the built object the [ACO] feature is decided by the [GlxInfo]
    object read at construction: it is supported exactly when [glxinfo] was
    found among the commands, the object has a display and a Mesa renderer
    version that is at least [19.3] as a string; the object is left as it
    is. *)
Theorem is_feature_supported_ACO_built (h : Host) :
  LinuxSystem.is_feature_supported "ACO" (LinuxSystem.LINUX_SYSTEM h)
  = (Ok match probed_mesa_version h with
        | Some mesa_version => Str.ge mesa_version "19.3"
        | None => false
        end,
     LinuxSystem.LINUX_SYSTEM h).
Proof.
  destruct (built_facts h) as (_ & _ & _ & _ & Hglx & _).
  unfold LinuxSystem.is_feature_supported, probed_mesa_version.
  change (String.eqb "ACO" "ACO") with true. cbv beta iota.
  unfold LinuxSystem.try_except_AttributeError. unfold_bind. unfold LinuxSystem.read.
  rewrite Hglx.
  destruct (probed_glxinfo h) as [info|]; [|done]. simpl.
  destruct (GLX_MESA_query_renderer info) as [renderer|]; [|done]. simpl.
  by destruct (version renderer).
Qed.

(** X20. The queries about missing libraries are read-only, whether they
    return or raise: they leave the host, the command tables, the
    architecture, the inventory, the [GlxInfo] object and the log as they
    are, and every list of the [LIBRARIES] cache keeps its content; all
    they can add to the cache is an empty list for a requirement that had
    none. *)
Theorem queries_read_only (x : Collaborators) (req a r : string) :
  keeps (fun s => observes s a r) (LinuxSystem.get_missing_requirement_libs req)
  /\ keeps (fun s => observes s a r) (LinuxSystem.get_missing_lib_arch req)
  /\ keeps (fun s => observes s a r) (LinuxSystem.is_feature_supported req)
  /\ keeps (fun s => observes s a r) Queries.get_missing_libs
  /\ keeps (fun s => observes s a r) (Queries.gamemode_available x)
  /\ keeps (fun s => observes s a r) (Queries.is_vulkan_supported x).
Proof.
  split_and!.
  - apply keeps_get_missing_requirement_libs, observes_getitem.
  - apply keeps_get_missing_lib_arch, observes_getitem.
  - apply keeps_is_feature_supported, observes_getitem.
  - apply keeps_get_missing_libs, observes_getitem.
  - apply keeps_gamemode_available, observes_getitem.
  - apply keeps_is_vulkan_supported, observes_getitem.
Qed.

(** ** The content of the [LIBRARIES] cache *)

Section cache_content_lemmas.

Lemma bind_all_nil {A B} (f : A -> list B) (l : list A) :
  (forall x, x ∈ l -> f x = []) -> l ≫= f = [].
Proof.
  induction l as [|x l IH]; intros H; [done|]. csimpl.
  rewrite H by apply list_elem_of_here. apply IH. intros y Hy. by apply H, list_elem_of_further.
Qed.

Lemma of_requirement_other inventory req a r :
  req <> r -> of_requirement inventory req a r = [].
Proof.
  intros Hne. unfold of_requirement. apply bind_all_nil. intros lib _.
  unfold of_library. apply bind_all_nil. intros sl _.
  unfold of_record. rewrite decide_False; [done|]. by intros [_ ?].
Qed.

Lemma of_requirement_same inventory a r :
  of_requirement inventory r a r
  = lib ← default [] (Dict.get r SYSTEM_COMPONENTS.LIBRARIES);
    shared_lib ← stored lib inventory;
    if decide (SharedLibrary.arch shared_lib = a) then [lib] else [].
Proof.
  unfold of_requirement. apply list_bind_ext; [|done]. intros lib.
  unfold of_library. apply list_bind_ext; [|done]. intros sl.
  unfold of_record. destruct (decide (SharedLibrary.arch sl = a)).
  - by rewrite decide_True.
  - rewrite decide_False; [done|]. by intros [? _].
Qed.

Lemma requirements_cached inventory reqs a r :
  NoDup reqs ->
  (req ← reqs; of_requirement inventory req a r)
  = cached (fun lib => stored lib inventory) reqs a r.
Proof.
  unfold cached. induction reqs as [|q reqs IH]; intros Hnd; [done|].
  apply NoDup_cons in Hnd as [Hq Hnd]. csimpl. rewrite (IH Hnd).
  destruct (decide (q = r)) as [->|Hne].
  - rewrite of_requirement_same, decide_False by done.
    rewrite decide_True by apply list_elem_of_here. by rewrite app_nil_r.
  - rewrite of_requirement_other by done. simpl.
    destruct (decide (r ∈ reqs)) as [H|H].
    + by rewrite decide_True by (by apply list_elem_of_further).
    + rewrite decide_False; [done|]. intros [?|?]%elem_of_cons; [congruence|done].
Qed.

Lemma cached_ext inv1 inv2 reqs a r :
  (forall lib, inv1 lib = inv2 lib) -> cached inv1 reqs a r = cached inv2 reqs a r.
Proof.
  intros H. unfold cached. destruct (decide _); [|done].
  apply list_bind_ext; [|done]. intros lib. by rewrite H.
Qed.

Lemma built_view h a r :
  view (cache_LIBRARIES (LinuxSystem.LINUX_SYSTEM h)) a r
  = cached (fun lib => stored lib (shared_libraries (LinuxSystem.LINUX_SYSTEM h)))
      (LinuxSystem.requirements (LinuxSystem.LINUX_SYSTEM h)) a r.
Proof.
  destruct (built_facts h) as (_ & _ & _ & _ & _ & _ & Hcache).
  rewrite (Hcache a r). apply requirements_cached, NoDup_requirements.
Qed.

Lemma built_stored h k :
  stored k (shared_libraries (LinuxSystem.LINUX_SYSTEM h))
  = listed (if String.eqb (machine h) "x86_64" then ["i386"; "x86_64"] else ["i386"]) h k.
Proof.
  destruct (built_facts h) as (_ & _ & _ & Hstored & _).
  rewrite Hstored, stored_inventory_of, built_architectures. done.
Qed.

End cache_content_lemmas.

(** X21. On the built object the [LIBRARIES] cache holds, for an
    architecture and a requirement of the host, each library declared for
    the requirement once for every record of the listing with its name and
    that architecture, in the order of the declaration: a library that
    [ldconfig] lists twice for an architecture is held twice.  For another
    requirement it holds nothing. *)
Theorem built_cache (h : Host) (a r : string) :
  view (cache_LIBRARIES (LinuxSystem.LINUX_SYSTEM h)) a r
  = cached (listed (if String.eqb (machine h) "x86_64"
                    then ["i386"; "x86_64"] else ["i386"]) h)
      (LinuxSystem.requirements (LinuxSystem.LINUX_SYSTEM h)) a r.
Proof.
  rewrite built_view. apply cached_ext. intros lib. apply built_stored.
Qed.

(** X22. [populate_libraries] builds the cache anew from the inventory:
    run again on the built object, whatever the [LIBRARIES] cache holds by
    then, it returns and leaves every list of the cache and every list of
    the inventory as on the built object. *)
Theorem populate_libraries_rebuilds (h : Host)
  (c : gmap string (gmap string (list string))) :
  let s := LinuxSystem.LINUX_SYSTEM h in
  exists s',
    LinuxSystem.populate_libraries (LinuxSystem.set_cache_LIBRARIES c s) = (Ok tt, s')
    /\ (forall a r, view (cache_LIBRARIES s') a r = view (cache_LIBRARIES s) a r)
    /\ (forall k, stored k (shared_libraries s') = stored k (shared_libraries s)).
Proof.
  intros s. subst s. destruct (built_facts h) as (_ & _ & _ & _ & _ & [Hok _] & Hcache).
  destruct (populate_libraries_run
              (LinuxSystem.set_cache_LIBRARIES c (LinuxSystem.LINUX_SYSTEM h)) Hok)
    as (s' & E & (_ & _ & _ & Hstored & _) & Hcache').
  exists s'. split; [done|]. split; [|done].
  intros a r. by rewrite (Hcache' a r), (Hcache a r).
Qed.


(** ** [populate_libraries] on an inventory with a foreign record *)

Section populate_error.
Context (archs : list string) (inventory : list (string * list SharedLibrary)).

Lemma for_each_raises_first {A} (visit : A -> list SharedLibrary)
  (body : A -> LinuxSystem.M unit) (l : list A) :
  (forall x s, x ∈ l -> in_populate archs inventory s ->
               raises_first archs (in_populate archs inventory) (visit x) (body x) s) ->
  forall s, in_populate archs inventory s ->
            raises_first archs (in_populate archs inventory) (l ≫= visit)
              (LinuxSystem.for_each l body) s.
Proof.
  induction l as [|x l IH]; intros Hbody s Hs.
  - by exists s.
  - unfold raises_first in *. csimpl. rewrite filter_app.
    specialize (Hbody x s (list_elem_of_here _ _) Hs) as Hx.
    destruct (filter _ (visit x)) as [|sl sls].
    + destruct Hx as (s1 & E1 & Hs1). rewrite app_nil_l.
      specialize (IH (fun y s' Hy => Hbody y s' (list_elem_of_further _ _ _ Hy)) s1 Hs1).
      unfold_bind. rewrite E1. exact IH.
    + destruct Hx as (s1 & E1). exists s1. unfold_bind. by rewrite E1.
Qed.

Lemma append_raises_first shared_lib req lib s :
  in_populate archs inventory s ->
  raises_first archs (in_populate archs inventory) [shared_lib]
    (LinuxSystem.cache_libraries_append (SharedLibrary.arch shared_lib) req lib) s.
Proof.
  intros [Hdom Hstored]. unfold raises_first. rewrite filter_cons, filter_nil.
  unfold LinuxSystem.cache_libraries_append, LinuxSystem.cache_libraries_getitem.
  unfold_bind. unfold LinuxSystem.modify.
  destruct (decide (SharedLibrary.arch shared_lib ∉ archs)) as [Hn|Hy].
  - destruct (cache_LIBRARIES s !! SharedLibrary.arch shared_lib) as [d|] eqn:Ed.
    + destruct Hn. apply Hdom. by rewrite Ed.
    + by exists s.
  - assert (is_Some (cache_LIBRARIES s !! SharedLibrary.arch shared_lib)) as [d Ed].
    { apply Hdom. by destruct (decide (SharedLibrary.arch shared_lib ∈ archs)). }
    assert (forall a, SharedLibrary.arch shared_lib = a ->
                      is_Some (cache_LIBRARIES s !! a)) as Hin.
    { intros a <-. by rewrite Ed. }
    rewrite Ed.
    destruct (d !! req) as [l0|]; eexists; (split; [done|]); (split; [|done]);
      intros a; cbn [cache_LIBRARIES LinuxSystem.set_cache_LIBRARIES];
      rewrite ?lookup_insert_is_Some; rewrite <- (Hdom a);
      specialize (Hin a);
      destruct (decide (SharedLibrary.arch shared_lib = a)); tauto.
Qed.

Lemma library_raises_first req lib s :
  in_populate archs inventory s ->
  raises_first archs (in_populate archs inventory) (stored lib inventory)
    (shared_libs ← LinuxSystem.shared_libraries_getitem lib;
     LinuxSystem.for_each shared_libs (fun shared_lib =>
       LinuxSystem.cache_libraries_append (SharedLibrary.arch shared_lib) req lib)) s.
Proof.
  intros [Hdom Hstored].
  pose proof (getitem_stored lib (shared_libraries s)) as E1.
  pose proof (fun k => stored_getitem lib k (shared_libraries s)) as E2.
  assert (in_populate archs inventory
            (LinuxSystem.set_shared_libraries
               (Dict.getitem_default lib (shared_libraries s)).2 s)) as Hs1.
  { split; [done|]. intros k. cbn [shared_libraries LinuxSystem.set_shared_libraries].
    by rewrite E2. }
  pose proof (for_each_raises_first (fun shared_lib => [shared_lib])
                (fun shared_lib =>
                   LinuxSystem.cache_libraries_append (SharedLibrary.arch shared_lib) req lib)
                (stored lib inventory)
                (fun x s' _ Hs' => append_raises_first x req lib s' Hs') _ Hs1) as H.
  assert (stored lib inventory ≫= (fun shared_lib => [shared_lib]) = stored lib inventory)
    as Hid.
  { generalize (stored lib inventory). intros l. induction l as [|x l IH]; [done|].
    csimpl. by rewrite IH. }
  rewrite Hid in H. unfold raises_first in *.
  unfold_bind. unfold LinuxSystem.shared_libraries_getitem.
  destruct (Dict.getitem_default lib (shared_libraries s)) as [v d].
  cbn [fst snd] in *. rewrite E1, Hstored. exact H.
Qed.

Lemma requirement_raises_first req libs s :
  Dict.get req SYSTEM_COMPONENTS.LIBRARIES = Some libs ->
  in_populate archs inventory s ->
  raises_first archs (in_populate archs inventory)
    (lib ← libs; stored lib inventory)
    (libs ← LinuxSystem.static_libraries req;
     LinuxSystem.for_each libs (fun lib =>
       shared_libs ← LinuxSystem.shared_libraries_getitem lib;
       LinuxSystem.for_each shared_libs (fun shared_lib =>
         LinuxSystem.cache_libraries_append (SharedLibrary.arch shared_lib) req lib))) s.
Proof.
  intros Hlibs Hs.
  pose proof (for_each_raises_first (fun lib => stored lib inventory) _ libs
                (fun lib s' _ Hs' => library_raises_first req lib s' Hs') s Hs) as H.
  unfold raises_first in *. unfold_bind. unfold LinuxSystem.static_libraries.
  rewrite Hlibs. exact H.
Qed.

(** The loop that gives each architecture an empty [defaultdict] leaves an
    entry for these architectures and for those that had one. *)
Lemma reset_loop_dom l s :
  exists c,
    LinuxSystem.for_each l (fun arch =>
      LinuxSystem.modify (fun s =>
        LinuxSystem.set_cache_LIBRARIES (<[arch := ∅]> (cache_LIBRARIES s)) s)) s
    = (Ok tt, LinuxSystem.set_cache_LIBRARIES c s)
    /\ forall a, is_Some (c !! a) <-> a ∈ l \/ is_Some (cache_LIBRARIES s !! a).
Proof.
  revert s. induction l as [|arch l IH]; intros s.
  - exists (cache_LIBRARIES s). rewrite set_cache_same. split; [done|].
    intros a. split; [by right|]. intros [H|H]; [by apply elem_of_nil in H|done].
  - destruct (IH (LinuxSystem.set_cache_LIBRARIES (<[arch := ∅]> (cache_LIBRARIES s)) s))
      as (c & E & Hdom).
    exists c. split; [exact E|]. intros a. rewrite Hdom.
    cbn [cache_LIBRARIES LinuxSystem.set_cache_LIBRARIES].
    rewrite lookup_insert_is_Some, elem_of_cons. split.
    + intros [?|[->|[_ ?]]]; auto.
    + intros [[->|?]|?]; auto.
      destruct (decide (arch = a)); auto.
Qed.

End populate_error.

(** X24. [populate_libraries] raises [KeyError] when the inventory holds,
    for a library declared for a requirement of the host, a record whose
    architecture is not an architecture of the machine: the error names the
    architecture of the first such record in the order of the loops.  It
    returns when there is no such record. *)
Theorem populate_libraries_KeyError (s : LinuxSystem) :
  match filter (fun shared_lib =>
                  SharedLibrary.arch shared_lib ∉ LinuxSystem.runtime_architectures s)
          (visited s) with
  | shared_lib :: _ =>
      exists s',
        LinuxSystem.populate_libraries s
        = (Err (KeyError (SharedLibrary.arch shared_lib)), s')
  | [] => exists s', LinuxSystem.populate_libraries s = (Ok tt, s')
  end.
Proof.
  destruct (reset_loop_dom (LinuxSystem.runtime_architectures s)
              (LinuxSystem.set_cache_LIBRARIES ∅ s)) as (c & E & Hdom).
  assert (in_populate (LinuxSystem.runtime_architectures s) (shared_libraries s)
            (LinuxSystem.set_cache_LIBRARIES c s)) as Hs.
  { split; [|done]. intros a. rewrite Hdom.
    cbn [cache_LIBRARIES LinuxSystem.set_cache_LIBRARIES]. rewrite lookup_empty.
    split; [intros [?|[? [=]]]; done|by left]. }
  pose (body := fun req : string =>
                  libs ← LinuxSystem.static_libraries req;
                  LinuxSystem.for_each libs (fun lib =>
                    shared_libs ← LinuxSystem.shared_libraries_getitem lib;
                    LinuxSystem.for_each shared_libs (fun shared_lib =>
                      LinuxSystem.cache_libraries_append
                        (SharedLibrary.arch shared_lib) req lib))).
  assert (LinuxSystem.populate_libraries s
          = LinuxSystem.for_each (LinuxSystem.requirements s) body
              (LinuxSystem.set_cache_LIBRARIES c s)) as ->.
  { unfold LinuxSystem.populate_libraries. unfold_bind.
    unfold LinuxSystem.modify at 1. unfold LinuxSystem.read at 1.
    change (LinuxSystem.runtime_architectures (LinuxSystem.set_cache_LIBRARIES ∅ s))
      with (LinuxSystem.runtime_architectures s).
    rewrite E. reflexivity. }
  pose proof (for_each_raises_first (LinuxSystem.runtime_architectures s)
                (shared_libraries s)
                (fun req => lib ← default [] (Dict.get req SYSTEM_COMPONENTS.LIBRARIES);
                            stored lib (shared_libraries s))
                body (LinuxSystem.requirements s)) as H.
  specialize (H (fun req s' Hreq Hs' =>
                   match requirements_declared s req Hreq with
                   | conj _ (ex_intro _ libs Hlibs) =>
                       eq_rect_r
                         (fun o => raises_first _ _ (lib ← default [] o; _) _ s')
                         (requirement_raises_first _ _ req libs s' Hlibs Hs') Hlibs
                   end) _ Hs).
  unfold raises_first, visited in *.
  destruct (filter _ _) as [|sl sls].
  - destruct H as (s' & E' & _). by exists s'.
  - exact H.
Qed.

(** The error is met on an object whose inventory holds a 64-bit record
    while its only architecture is [i386]. *)
Example populate_libraries_KeyError_foreign_record :
  (LinuxSystem.populate_libraries foreign_record).1 = Err (KeyError "x86_64").
Proof. by vm_compute. Qed.

(** ** Where a command is found *)

Section command_path_lemmas.

Lemma table_commands_plain command :
  command ∈ SYSTEM_COMPONENTS.COMMANDS ++ SYSTEM_COMPONENTS.OPTIONAL_COMMANDS
            ++ SYSTEM_COMPONENTS.TERMINALS ->
  Str.has_char "/" command = false.
Proof.
  revert command. apply Forall_forall.
  apply (bool_decide_unpack _). by vm_compute.
Qed.

Lemma found_table h l command p :
  Dict.get command (found h l []) = Some p -> command ∈ l /\ discover h command = Some p.
Proof.
  rewrite found_get. destruct (decide (command ∈ l)); [|done].
  by destruct (discover h command).
Qed.

Lemma discover_origin h command p :
  Str.has_char "/" command = false ->
  discover h command = Some p ->
  p <> ""
  /\ (which h command = Some p
      \/ LinuxSystem.truthy (which h command) = false
         /\ path_exists h p = true
         /\ (p = "/sbin/" +:+ command
             \/ p = "/usr/sbin/" +:+ command
                /\ path_exists h ("/sbin/" +:+ command) = false)).
Proof.
  intros Hplain Hp. split; [by eapply discover_nonempty|].
  unfold discover in Hp.
  assert ((if LinuxSystem.truthy (which h command) then which h command
           else LinuxSystem.get_sbin_path h command) = Some p) as Hp'.
  { by destruct (if LinuxSystem.truthy _ then _ else _) as [[|c q]|]. }
  clear Hp. rename Hp' into Hp.
  destruct (LinuxSystem.truthy (which h command)) eqn:Ew; [by left|].
  right. split; [done|].
  unfold LinuxSystem.get_sbin_path in Hp. cbn [LinuxSystem.get_sbin_path_loop] in Hp.
  rewrite !path_join_plain in Hp by done.
  change ("/sbin" +:+ "/" +:+ command) with ("/sbin/" +:+ command) in Hp.
  change ("/usr/sbin" +:+ "/" +:+ command) with ("/usr/sbin/" +:+ command) in Hp.
  destruct (path_exists h ("/sbin/" +:+ command)) eqn:E1.
  { assert (p = "/sbin/" +:+ command) as -> by congruence. auto. }
  destruct (path_exists h ("/usr/sbin/" +:+ command)) eqn:E2; [|done].
  assert (p = "/usr/sbin/" +:+ command) as -> by congruence. auto.
Qed.

End command_path_lemmas.

(** X25. A path that the built object holds for a command, in any of its
    three command tables, is not empty and is either the path that
    [shutil.which] gave or, when that gave nothing, the command in [/sbin]
    or in [/usr/sbin], which exists; [/usr/sbin] is used only when the
    command is not in [/sbin]. *)
Theorem command_path_origin (h : Host) (command p : string) :
  let s := LinuxSystem.LINUX_SYSTEM h in
  Dict.get command (cache_COMMANDS s) = Some p
  \/ Dict.get command (cache_OPTIONAL_COMMANDS s) = Some p
  \/ Dict.get command (cache_TERMINALS s) = Some p ->
  p <> ""
  /\ (which h command = Some p
      \/ LinuxSystem.truthy (which h command) = false
         /\ path_exists h p = true
         /\ (p = "/sbin/" +:+ command
             \/ p = "/usr/sbin/" +:+ command
                /\ path_exists h ("/sbin/" +:+ command) = false)).
Proof.
  intros s H. destruct (built_facts h) as (_ & Hcaches & _). fold s in Hcaches.
  assert (cache_COMMANDS s = found h SYSTEM_COMPONENTS.COMMANDS []) as Hc1
    by (change (cache_COMMANDS s) with (caches s).1.1; by rewrite Hcaches).
  assert (cache_OPTIONAL_COMMANDS s = found h SYSTEM_COMPONENTS.OPTIONAL_COMMANDS [])
    as Hc2 by (change (cache_OPTIONAL_COMMANDS s) with (caches s).1.2; by rewrite Hcaches).
  assert (cache_TERMINALS s = found h SYSTEM_COMPONENTS.TERMINALS []) as Hc3
    by (change (cache_TERMINALS s) with (caches s).2; by rewrite Hcaches).
  rewrite Hc1, Hc2, Hc3 in H.
  assert (command ∈ SYSTEM_COMPONENTS.COMMANDS ++ SYSTEM_COMPONENTS.OPTIONAL_COMMANDS
                     ++ SYSTEM_COMPONENTS.TERMINALS
          /\ discover h command = Some p) as [Hin Hp].
  { rewrite !elem_of_app.
    destruct H as [H|[H|H]]; apply found_table in H as [? ?]; auto. }
  apply discover_origin; [by apply table_commands_plain|done].
Qed.

Lemma command_path_origin_witness :
  "/usr/sbin/ldconfig" <> ""
  /\ (which sbin_host "ldconfig" = Some "/usr/sbin/ldconfig"
      \/ LinuxSystem.truthy (which sbin_host "ldconfig") = false
         /\ path_exists sbin_host "/usr/sbin/ldconfig" = true
         /\ ("/usr/sbin/ldconfig" = "/sbin/" +:+ "ldconfig"
             \/ "/usr/sbin/ldconfig" = "/usr/sbin/" +:+ "ldconfig"
                /\ path_exists sbin_host ("/sbin/" +:+ "ldconfig") = false)).
Proof.
  apply (command_path_origin sbin_host "ldconfig" "/usr/sbin/ldconfig").
  left. vm_compute. reflexivity.
Defined.

(** ** The lines of [ldconfig] *)

(** X26. [get_ldconfig_libs] never raises and only writes to the log.
    Each line that it returns holds no newline and has no tab at its ends,
    and is a line of the output of [ldconfig -p] that starts with a tab,
    with the tabs at its ends removed.  When the object holds no path for
    [ldconfig] it returns no line and logs one error. *)
Theorem get_ldconfig_libs_spec (s : LinuxSystem) :
  exists rs lines,
    LinuxSystem.get_ldconfig_libs s = (Ok lines, add_logs rs s)
    /\ (forall line, line ∈ lines ->
          Str.has_char Str.nl line = false
          /\ Str.strip_chars (String Str.tab EmptyString) line = line
          /\ exists ldconfig raw,
               Dict.get "ldconfig" (cache_COMMANDS s) = Some ldconfig
               /\ raw ∈ Str.split Str.nl (read_process_output (host s) [ldconfig; "-p"])
               /\ Str.startswith (String Str.tab EmptyString) raw = true
               /\ line = Str.strip_chars (String Str.tab EmptyString) raw)
    /\ (Dict.get "ldconfig" (cache_COMMANDS s) = None ->
        lines = []
        /\ rs = [{| lvl := ERROR; message := "Could not detect ldconfig on this system" |}]).
Proof.
  unfold LinuxSystem.get_ldconfig_libs, LinuxSystem.get. unfold_bind.
  unfold LinuxSystem.read, LinuxSystem.ret, LinuxSystem.error, LinuxSystem.modify.
  destruct (Dict.get "ldconfig" (cache_COMMANDS s)) as [[|c p]|].
  - eexists [_], []. split; [done|]. split; [|done].
    intros line H. by apply elem_of_nil in H.
  - exists [], (map (Str.strip_chars (String Str.tab EmptyString))
                  (filter (fun line => Str.startswith (String Str.tab EmptyString) line = true)
                     (Str.split Str.nl (read_process_output (host s) [String c p; "-p"])))).
    split; [by rewrite add_logs_nil|]. split; [|done].
    intros line (raw & -> & [Htab Hraw]%list_elem_of_filter)%list_elem_of_fmap.
    split_and!.
    + apply has_char_strip_by. by eapply split_no_sep_inside.
    + apply strip_by_idem.
    + exists (String c p), raw. done.
  - eexists [_], []. split; [done|]. split; [|done].
    intros line H. by apply elem_of_nil in H.
Qed.

(** ** The file system of a path *)

Section drives_lemmas.

Lemma pop_snoc {A} (l : list A) x : Drives.pop (l ++ [x]) = Some (l, x).
Proof. induction l as [|y l IH]; [done|]. simpl. by rewrite IH. Qed.

Lemma snoc_cases {A} (l : list A) : l = [] \/ exists l' x, l = l' ++ [x].
Proof. induction l as [|y l IH] using rev_ind; [by left|right]. eauto. Qed.

Lemma size_children device : Drives.size device = S (Drives.weight (children device)).
Proof. by destruct device. Qed.

Lemma postorder_eq device :
  Drives.postorder device = concat (map Drives.postorder (children device)) ++ [device].
Proof. by destruct device. Qed.

(** The loop returns when the fuel exceeds the number of devices, with the
    file system of the device at the mount point that it meets first: the
    last one in post-order. *)
Lemma get_fs_type_for_path_loop_spec mount_point fuel : forall devices,
  Drives.weight devices < fuel ->
  Drives.get_fs_type_for_path_loop fuel mount_point devices
  = Some (device ← last (filter (fun d => Drives.at_mount_point mount_point d = true)
                            (concat (map Drives.postorder devices)));
          fstype device).
Proof.
  induction fuel as [|fuel IH]; intros devices Hw; [lia|].
  destruct (snoc_cases devices) as [->|(W & d & ->)]; [done|].
  cbn [Drives.get_fs_type_for_path_loop]. rewrite pop_snoc.
  rewrite map_app, concat_app. cbn [map concat]. rewrite app_nil_r, postorder_eq.
  rewrite !app_assoc, filter_app, filter_cons, filter_nil.
  destruct (Drives.at_mount_point mount_point d) eqn:E.
  - rewrite decide_True by done. by rewrite last_snoc.
  - rewrite decide_False by done. rewrite app_nil_r.
    rewrite IH.
    + by rewrite map_app, concat_app.
    + unfold Drives.weight in *. rewrite map_app, list_sum_app in *. simpl in Hw.
      rewrite size_children in Hw. unfold Drives.weight in Hw. lia.
Qed.

End drives_lemmas.

(** X27. [get_fs_type_for_path] ends on every tree of devices: with more
    fuel than there are devices in the drives it returns.  It returns the
    file system of a device at the mount point, found among the drives that
    are not [squashfs] and the devices below them, the last of them in
    post-order, and [None] when there is none. *)
Theorem get_fs_type_for_path_spec (fuel : nat) (mount_point lsblk_output : string)
  (blockdevices : list Device) :
  Drives.weight (Drives.get_drives lsblk_output blockdevices) < fuel ->
  Drives.get_fs_type_for_path fuel mount_point lsblk_output blockdevices
  = Some (device ← last (filter (fun d => Drives.at_mount_point mount_point d = true)
                            (concat (map Drives.postorder
                                       (Drives.get_drives lsblk_output blockdevices))));
          fstype device).
Proof. apply get_fs_type_for_path_loop_spec. Qed.

Lemma get_fs_type_for_path_spec_witness :
  Drives.get_fs_type_for_path 3 "/" "{}" [Drives.disk; Drives.image]
  = Some (device ← last (filter (fun d => Drives.at_mount_point "/" d = true)
                            (concat (map Drives.postorder
                                       (Drives.get_drives "{}" [Drives.disk; Drives.image]))));
          fstype device).
Proof.
  apply (get_fs_type_for_path_spec 3 "/" "{}" [Drives.disk; Drives.image]).
  vm_compute. lia.
Defined.
